(** * SNID SAGE: a shallow embedding of the clustering, preprocessing and CLI code

    Python floats are modelled as exact rationals [Q] where the code only
    uses field operations and comparisons, and as reals [R] where it calls
    [np.log], [np.exp] or [np.cos].  Python exceptions are modelled with an
    explicit result type. *)

From Stdlib Require Import String Ascii List Bool ZArith Lia QArith Qabs Qminmax Qround.
From Stdlib Require Import Reals Lra.
Import ListNotations.

(** ** Python results: a value or a raised exception *)
Inductive py_exc : Type :=
| TypeError | ValueError | OverflowError | IndexError | ZeroDivisionError
| FileNotFoundError | OtherError.

Inductive py_result (A : Type) : Type :=
| Ok : A -> py_result A
| Raise : py_exc -> py_result A.
Arguments Ok {A} _.
Arguments Raise {A} _.

Definition py_bind {A B} (r : py_result A) (f : A -> py_result B) : py_result B :=
  match r with
  | Ok a => f a
  | Raise e => Raise e
  end.

Notation "'let*' x ':=' r 'in' k" := (py_bind r (fun x => k))
  (at level 200, x name, r at level 100, k at level 200).

(** * Module Clustering: src/snid_sage/snid/cosmological_clustering.py *)
Module Clustering.
Local Open Scope Q_scope.

(** A template match as the clustering code reads it: the optional
    dictionary keys ['redshift'], ['rlap'], ['rlap_cos'] and the template's
    ['subtype'] and ['type']. *)
Record tmatch := {
  m_redshift : Q;
  m_rlap : option Q;
  m_rlap_cos : option Q;
  m_subtype : option string;
}.

(** [match.get(metric_key, match.get('rlap', 0))] *)
Definition metric_value (use_rlap_cos : bool) (m : tmatch) : Q :=
  let fallback := match m.(m_rlap) with Some v => v | None => 0 end in
  if use_rlap_cos
  then match m.(m_rlap_cos) with Some v => v | None => fallback end
  else fallback.

(** A cluster candidate as built by [perform_direct_gmm_clustering]. *)
Record candidate := {
  c_type : string;
  c_cluster_id : nat;
  c_matches : list tmatch;
  c_size : nat;
}.

Definition Qltb (a b : Q) : bool := negb (Qle_bool b a).

(** Python's [sort(key=..., reverse=True)]: a stable sort, highest key first. *)
Fixpoint insert_desc {A} (key : A -> Q) (x : A) (l : list A) : list A :=
  match l with
  | [] => [x]
  | y :: ys => if Qltb (key x) (key y) then y :: insert_desc key x ys
               else x :: y :: ys
  end.

Fixpoint sort_desc {A} (key : A -> Q) (l : list A) : list A :=
  match l with
  | [] => []
  | x :: xs => insert_desc key x (sort_desc key xs)
  end.

Definition Qsum (l : list Q) : Q := fold_right Qplus 0 l.

(** [np.mean] of a non-empty list *)
Definition Qmean (l : list Q) : Q := Qsum l / inject_Z (Z.of_nat (length l)).

(** [penalty_factor = 1.0; if len < 5: penalty_factor = 0.95 ** (5 - len)] *)
Definition penalty_factor (n : nat) : Q :=
  if (n <? 5)%nat then Qpower (95 # 100) (Z.of_nat (5 - n)) else 1.

(** The [cluster_info] dictionary of [find_winning_cluster_top5_method]. *)
Record cluster_score := {
  cs_cluster : candidate;
  cs_size : nat;
  cs_top_5_values : list Q;
  cs_top_5_mean : Q;
  cs_penalty_factor : Q;
  cs_penalized_score : Q;
}.

(** The body of the scoring loop for one cluster; [None] is the
    [if not matches: continue] branch. *)
Definition score_matches (use_rlap_cos : bool) (c : candidate) (ms : list tmatch) : cluster_score :=
  let metric_values := sort_desc (fun q => q) (map (metric_value use_rlap_cos) ms) in
  let top_5_values := firstn 5 metric_values in
  let top_5_mean := match top_5_values with [] => 0 | _ => Qmean top_5_values end in
  let pf := penalty_factor (length metric_values) in
  {| cs_cluster := c;
     cs_size := length ms;
     cs_top_5_values := top_5_values;
     cs_top_5_mean := top_5_mean;
     cs_penalty_factor := pf;
     cs_penalized_score := top_5_mean * pf |}.

Definition score_cluster (use_rlap_cos : bool) (c : candidate) : option cluster_score :=
  match c.(c_matches) with
  | [] => None
  | ms => Some (score_matches use_rlap_cos c ms)
  end.

Fixpoint cluster_scores (use_rlap_cos : bool) (cands : list candidate) : list cluster_score :=
  match cands with
  | [] => []
  | c :: cs =>
      match score_cluster use_rlap_cos c with
      | Some s => s :: cluster_scores use_rlap_cos cs
      | None => cluster_scores use_rlap_cos cs
      end
  end.

(** [find_winning_cluster_top5_method]: the winner and the sorted
    [all_cluster_scores]; [None] is the [return None, {'error': ...}] branch. *)
Definition find_winning_cluster_top5_method (use_rlap_cos : bool) (cands : list candidate)
  : option (candidate * list cluster_score) :=
  match cands with
  | [] => None
  | _ =>
      match sort_desc cs_penalized_score (cluster_scores use_rlap_cos cands) with
      | [] => None
      | w :: rest => Some (w.(cs_cluster), w :: rest)
      end
  end.

(** ** Subtype voting: [choose_subtype_weighted_voting] *)

Definition is_py_space (c : ascii) : bool :=
  existsb (Ascii.eqb c) [" "%char; "009"%char; "010"%char; "011"%char; "012"%char; "013"%char].

(** [not subtype or subtype.strip() == ''] *)
Definition is_blank (s : string) : bool := forallb is_py_space (list_ascii_of_string s).

(** [match['template'].get('subtype', 'Unknown')], then the blank check. *)
Definition subtype_of (m : tmatch) : string :=
  match m.(m_subtype) with
  | Some s => if is_blank s then "Unknown" else s
  | None => "Unknown"
  end.

(** Modelled from the spec: [get_best_metric_value] of
    [snid_sage.shared.utils.math_utils], which is not among the sources;
    the spec says the selected metric is "rlap_cos if present, else rlap". *)
Definition get_best_metric_value (m : tmatch) : Q :=
  match m.(m_rlap_cos) with
  | Some v => v
  | None => match m.(m_rlap) with Some v => v | None => 0 end
  end.

(** [gamma[i, k_star]]; [None] is numpy's IndexError. *)
Definition gamma_at (gamma : list (list Q)) (i k : nat) : option Q :=
  match nth_error gamma i with
  | Some row => nth_error row k
  | None => None
  end.

(** The member-collection loop: pairs (subtype, metric_value) of the
    matches with [gamma[i, k_star] >= resp_cut], in match order. *)
Fixpoint collect_members (gamma : list (list Q)) (k_star : nat) (resp_cut : Q)
    (i : nat) (ms : list tmatch) : option (list (string * Q)) :=
  match ms with
  | [] => Some []
  | m :: rest =>
      match gamma_at gamma i k_star with
      | None => None
      | Some g =>
          match collect_members gamma k_star resp_cut (S i) rest with
          | None => None
          | Some tl =>
              Some (if Qle_bool resp_cut g
                    then (subtype_of m, get_best_metric_value m) :: tl else tl)
          end
      end
  end.

(** [subtype_groups[member['subtype']].append(member)]: a [defaultdict]
    keeps its keys in first-insertion order. *)
Fixpoint group_add (s : string) (v : Q) (g : list (string * list Q)) : list (string * list Q) :=
  match g with
  | [] => [(s, [v])]
  | (s', vs) :: g' =>
      if String.eqb s s' then (s', vs ++ [v]) :: g' else (s', vs) :: group_add s v g'
  end.

Definition group_by_subtype (members : list (string * Q)) : list (string * list Q) :=
  fold_left (fun g sv => group_add (fst sv) (snd sv) g) members [].

Definition Qlen {A} (l : list A) : Q := inject_Z (Z.of_nat (length l)).

(** One subtype's score: [mean_top * penalty_factor] with
    [penalty_factor = len(top_values) / 5.0]. *)
Definition subtype_score (values : list Q) : Q :=
  let top_values := firstn 5 (sort_desc (fun q => q) values) in
  let mean_top := Qsum top_values / Qlen top_values in
  let pf := Qlen top_values / 5 in
  mean_top * pf.

Definition subtype_scores (groups : list (string * list Q)) : list (string * Q) :=
  map (fun sg => (fst sg, subtype_score (snd sg))) groups.

(** [max(subtype_scores, key=subtype_scores.get)]: the first key of maximal score. *)
Fixpoint first_max (best : string * Q) (l : list (string * Q)) : string * Q :=
  match l with
  | [] => best
  | x :: xs => first_max (if Qltb (snd best) (snd x) then x else best) xs
  end.

(** [choose_subtype_weighted_voting]: (best_subtype, confidence,
    relative_margin_pct, second_best_subtype); [None] is a raised IndexError. *)
Definition choose_subtype_weighted_voting (k_star : nat) (matches : list tmatch)
    (gamma : list (list Q)) (resp_cut : Q) : option (string * Q * Q * option string) :=
  match collect_members gamma k_star resp_cut 0 matches with
  | None => None
  | Some [] => Some ("Unknown"%string, 0, 0, None)
  | Some members =>
      match subtype_scores (group_by_subtype members) with
      | [] => Some ("Unknown"%string, 0, 0, None)
      | s0 :: rest =>
          let scores := s0 :: rest in
          let best := first_max s0 rest in
          let sorted_scores := sort_desc (fun q => q) (map snd scores) in
          let first := hd 0 sorted_scores in
          let second := nth 1 sorted_scores 0 in
          let has_second := (1 <? length sorted_scores)%nat in
          let margin := first - (if has_second then second else 0) in
          let total := Qsum (map snd scores) in
          let confidence := if Qltb 0 total then snd best / total else 0 in
          let rel := if has_second && Qltb 0 second then margin / second * 100 else 0 in
          let second_name :=
            if has_second
            then option_map fst
                   (find (fun sv => Qltb (Qabs (snd sv - second)) (1 # 1000000)) scores)
            else None in
          Some (fst best, confidence, rel, second_name)
      end
  end.

(** ** Redshift quality of a cluster *)

(** [np.max] and [np.min] of a non-empty array *)
Definition Qmax_list (l : list Q) : Q := fold_left Qmax (tl l) (hd 0 l).
Definition Qmin_list (l : list Q) : Q := fold_left Qmin (tl l) (hd 0 l).

(** The classification in [_perform_direct_gmm_clustering]. *)
Definition redshift_quality_gmm (span q : Q) : string :=
  if Qle_bool span q then "tight"
  else if Qle_bool span (q * 2) then "moderate"
  else if Qle_bool span (q * 4) then "loose"
  else "very_loose".

(** The classification in [_create_single_cluster_result]. *)
Definition redshift_quality_single (span q : Q) : string :=
  if Qle_bool span q then "tight"
  else if Qle_bool span (q * 2) then "moderate"
  else "loose".

Record cluster_info := {
  ci_id : nat;
  ci_matches : list tmatch;
  ci_redshift_span : Q;
  ci_redshift_quality : string;
  ci_cluster_method : string;
}.

(** The per-component loop of [_perform_direct_gmm_clustering], given the
    number of components [optimal_n_clusters] and the [labels] that
    scikit-learn's [GaussianMixture.predict] returned. *)
Definition direct_gmm_clusters (type_matches : list tmatch) (quality_threshold : Q)
    (optimal_n_clusters : nat) (labels : list nat) : list cluster_info :=
  flat_map (fun cluster_id =>
    let cluster_matches :=
      map fst (filter (fun ml => Nat.eqb (snd ml) cluster_id) (combine type_matches labels)) in
    match cluster_matches with
    | [] => []
    | _ =>
        let zs := map m_redshift cluster_matches in
        let span := Qmax_list zs - Qmin_list zs in
        [{| ci_id := cluster_id; ci_matches := cluster_matches; ci_redshift_span := span;
            ci_redshift_quality := redshift_quality_gmm span quality_threshold;
            ci_cluster_method := "direct_gmm" |}]
    end) (seq 0 optimal_n_clusters).

(** [_create_single_cluster_result] *)
Definition create_single_cluster_result (type_matches : list tmatch) (quality_threshold : Q)
  : cluster_info :=
  let zs := map m_redshift type_matches in
  let span := if (1 <? length zs)%nat then Qmax_list zs - Qmin_list zs else 0 in
  {| ci_id := 0; ci_matches := type_matches; ci_redshift_span := span;
     ci_redshift_quality := redshift_quality_single span quality_threshold;
     ci_cluster_method := "single_cluster" |}.

(** [_perform_direct_gmm_clustering]: the fallback when
    [min(max_clusters, n // 2 + 1) < 2], else the GMM components; [gmm] is
    the (optimal_n_clusters, labels) pair of the BIC-selected model. *)
Definition perform_direct_gmm_clustering_type (type_matches : list tmatch)
    (max_clusters : nat) (quality_threshold : Q) (gmm : nat * list nat) : list cluster_info :=
  let max_clusters_actual := Nat.min max_clusters (length type_matches / 2 + 1) in
  if (max_clusters_actual <? 2)%nat
  then [create_single_cluster_result type_matches quality_threshold]
  else direct_gmm_clusters type_matches quality_threshold (fst gmm) (snd gmm).

(** ** The spec's wording, for comparison *)

(** Spec P10: the chosen cluster has the maximum penalized score; ties go
    to the larger size, then by type name in lexical order ([asc]) or in
    its reverse ([negb asc]). *)
Definition type_name_first (asc : bool) (a b : candidate) : Prop :=
  if asc then String.compare a.(c_type) b.(c_type) <> Gt
  else String.compare a.(c_type) b.(c_type) <> Lt.

Definition spec_best_cluster (asc : bool) (w : candidate) (scores : list cluster_score) : Prop :=
  exists ws, In ws scores /\ ws.(cs_cluster) = w /\
    forall s, In s scores ->
      s.(cs_penalized_score) < ws.(cs_penalized_score) \/
      (s.(cs_penalized_score) == ws.(cs_penalized_score) /\
       ((s.(cs_size) < ws.(cs_size))%nat \/
        (s.(cs_size) = ws.(cs_size) /\ type_name_first asc ws.(cs_cluster) s.(cs_cluster)))).

(** The spec's four-way classification of a redshift span. *)
Definition spec_redshift_quality (span q : Q) : string :=
  if Qle_bool span q then "tight"
  else if Qle_bool span (2 * q) then "moderate"
  else if Qle_bool span (4 * q) then "loose"
  else "very_loose".

(** Spec §4.5 step 2: the top-5 rule for one scored cluster:
    penalized_score = mean_top_5 * penalty_factor, penalty_factor = 1 for
    five or more members and 0.95^(5 - size) otherwise. *)
Definition spec_top5_rule (use_rlap_cos : bool) (s : cluster_score) : Prop :=
  s.(cs_size) = length s.(cs_cluster).(c_matches) /\
  s.(cs_top_5_values) =
    firstn 5 (sort_desc (fun q => q) (map (metric_value use_rlap_cos) s.(cs_cluster).(c_matches))) /\
  s.(cs_top_5_mean) = Qmean s.(cs_top_5_values) /\
  ((5 <= s.(cs_size))%nat -> s.(cs_penalty_factor) = 1) /\
  ((s.(cs_size) < 5)%nat ->
     s.(cs_penalty_factor) = Qpower (95 # 100) (Z.of_nat (5 - s.(cs_size)))) /\
  s.(cs_penalized_score) = s.(cs_top_5_mean) * s.(cs_penalty_factor).

(** The metric values of the collected members whose subtype is [st], in order. *)
Definition vals_of (st : string) (members : list (string * Q)) : list Q :=
  map snd (filter (fun p => String.eqb (fst p) st) members).

(** ** Concrete inputs *)

Definition match_with (subtype : string) (z v : Q) : tmatch :=
  {| m_redshift := z; m_rlap := Some v; m_rlap_cos := Some v; m_subtype := Some subtype |}.

Definition cand (t : string) (vals : list Q) : candidate :=
  {| c_type := t; c_cluster_id := 0; c_matches := map (match_with "norm" 0) vals;
     c_size := length vals |}.

Definition cand_b : candidate := cand "b" [10].
Definition cand_a : candidate := cand "a" [10].
Definition cand_small : candidate := cand "II" [100; 100; 100; 100].
Definition cand_large : candidate := cand "Ia" [95; 95; 95; 95; 95].
Definition one_norm_match : list tmatch := [match_with "norm" 0 10].

Definition zmatch (z : Q) : tmatch :=
  {| m_redshift := z; m_rlap := Some 10; m_rlap_cos := None; m_subtype := None |}.

End Clustering.

(** ** Python floats

    The arithmetic the numeric helpers use, so that one translation serves
    both exact rationals (to evaluate examples) and reals (where the same
    code is composed with [np.cos], [np.log] or [np.exp]).  [fint] is
    Python's [int()] on a finite float, which truncates towards zero. *)
Class PyFloat (F : Type) := {
  f0 : F;
  fadd : F -> F -> F;
  fsub : F -> F -> F;
  fmul : F -> F -> F;
  fdiv : F -> F -> F;
  f_of_Z : Z -> F;
  feqb : F -> F -> bool;
  fleb : F -> F -> bool;
  fint : F -> Z
}.

(** Python's [int()] on a rational: truncation towards zero. *)
Definition py_int_Q (q : Q) : Z := Z.quot (Qnum q) (Zpos (Qden q)).

#[export] Instance Q_PyFloat : PyFloat Q := {
  f0 := 0%Q;
  fadd := Qplus;
  fsub := Qminus;
  fmul := Qmult;
  fdiv := fun a b => Qred (a / b);
  f_of_Z := inject_Z;
  feqb := Qeq_bool;
  fleb := Qle_bool;
  fint := py_int_Q
}.

(** Python's [int()] on a real: truncation towards zero. *)
Definition py_int_R (x : R) : Z :=
  if Rle_dec 0 x then Int_part x else (- Int_part (- x))%Z.

#[export] Instance R_PyFloat : PyFloat R := {
  f0 := 0%R;
  fadd := Rplus;
  fsub := Rminus;
  fmul := Rmult;
  fdiv := Rdiv;
  f_of_Z := IZR;
  feqb := fun a b => if Req_EM_T a b then true else false;
  fleb := fun a b => if Rle_dec a b then true else false;
  fint := py_int_R
}.

(** * Module Savgol: [savgol_filter_fixed] and [savgol_filter_wavelength]
    of src/snid_sage/snid/preprocessing.py, over [scipy.signal.savgol_filter]
    in its default [mode='interp']. *)
Module Savgol.

Section Generic.
Context {F : Type} `{PyFloat F}.

(** Vector helpers for the least-squares fit. *)
Definition dot (u v : list F) : F :=
  fold_right fadd f0 (map (fun ab => fmul (fst ab) (snd ab)) (combine u v)).
Definition scale (c : F) (v : list F) : list F := map (fmul c) v.
Definition vsub (u v : list F) : list F := map (fun ab => fsub (fst ab) (snd ab)) (combine u v).
Definition vadd (u v : list F) : list F := map (fun ab => fadd (fst ab) (snd ab)) (combine u v).

Fixpoint fpow (x : F) (j : nat) : F :=
  match j with
  | O => f_of_Z 1
  | S j => fmul x (fpow x j)
  end.

(** Coefficient of the orthogonal projection of [y] on the direction [u]. *)
Definition coef (y u : list F) : F :=
  if feqb (dot u u) f0 then f0 else fdiv (dot y u) (dot u u).

(** Gram-Schmidt: orthogonalise [v] against the basis built so far. *)
Definition orth_step (acc : list (list F)) (v : list F) : list (list F) :=
  acc ++ [fold_left (fun w u => vsub w (scale (coef v u) u)) acc v].

(** Orthogonal basis of the polynomials of degree [<= p] sampled at the
    window positions [0 .. w-1] (the columns of the Vandermonde matrix). *)
Definition basis (w p : nat) : list (list F) :=
  fold_left orth_step
    (map (fun j => map (fun t => fpow (f_of_Z (Z.of_nat t)) j) (seq 0 w)) (seq 0 (S p)))
    [].

(** Least-squares fit of [y] by a polynomial of the basis, sampled at the
    window positions. *)
Definition project (y : list F) (bs : list (list F)) : list F :=
  fold_left (fun acc u => vadd acc (scale (coef y u) u)) bs (repeat f0 (length y)).

Definition window_of (data : list F) (lo w : nat) : list F := firstn w (skipn lo data).

(** [savgol_filter(x, w, p)] with [mode='interp']: the value at [i] is the
    degree-[p] least-squares polynomial of a window of [w] samples
    evaluated at [i]; interior points use the window centred on [i]
    (the convolution), the first and last [w // 2] points use the first and
    last window (the [polyfit] of the edges).  Exact for odd [w] and for
    [w = len(x)], the only windows the callers below pass. *)
Definition savgol_core (data : list F) (w p : nat) : list F :=
  let n := length data in
  let half := Nat.div w 2 in
  map (fun i =>
         let lo := if Nat.ltb i half then 0%nat else Nat.min (i - half) (n - w) in
         nth (i - lo) (project (window_of data lo w) (basis w p)) f0)
      (seq 0 n).

(** scipy refuses [polyorder >= window_length] and, in interp mode, a
    window longer than the data. *)
Definition savgol_filter (data : list F) (window_length polyorder : nat) : py_result (list F) :=
  if Nat.leb window_length polyorder then Raise ValueError
  else if Nat.ltb (length data) window_length then Raise ValueError
  else Ok (savgol_core data window_length polyorder).

Definition savgol_filter_fixed (data : list F) (window_length polyorder : nat) : list F :=
  if Nat.ltb window_length 3 then data else
  let window_length := if Nat.even window_length then S window_length else window_length in
  let window_length := Nat.min window_length (length data) in
  if Nat.ltb window_length 3 then data else
  let polyorder := Nat.min polyorder (window_length - 1) in
  match savgol_filter data window_length polyorder with
  | Ok r => r
  | Raise _ => data
  end.

(** [np.diff] *)
Definition np_diff (l : list F) : list F :=
  map (fun ab => fsub (snd ab) (fst ab)) (combine l (tl l)).

(** [int(2 * sigma_angstrom / avg_dwl)] with [avg_dwl = np.mean(np.diff(wave))]
    and [sigma_angstrom = fwhm_angstrom / 2.35], in exact arithmetic: a zero
    mean spacing makes the quotient infinite and [int(inf)] raises
    OverflowError.  In float64 the mean can be 0.0 for a nonzero span or
    tiny and nonzero for a zero span, and a tiny spacing also overflows, so
    [savgol_filter_wavelength] below takes this step as a parameter; this
    exact version is the one used on concrete inputs. *)
Definition exact_int_window (wave : list F) (fwhm_angstrom : F) : py_result Z :=
  let d := np_diff wave in
  let avg_dwl := fdiv (fold_right fadd f0 d) (f_of_Z (Z.of_nat (length d))) in
  if feqb avg_dwl f0 then Raise OverflowError else
  let sigma_angstrom := fdiv fwhm_angstrom (fdiv (f_of_Z 235) (f_of_Z 100)) in
  Ok (fint (fdiv (fmul (f_of_Z 2) sigma_angstrom) avg_dwl)).

Section Window.

(** The float64 value of [int(2 * sigma_angstrom / avg_dwl)] for a
    wavelength array of at least two samples: a Python int, or the
    ValueError of [int(nan)], or the OverflowError of [int(inf)]. *)
Variable int_window : list F -> F -> py_result Z.

(** Lines [avg_dwl = ...] to [window_length_pixels += 1]: the odd window
    in pixels before it is clamped to the data length.  With fewer than two
    samples [np.mean] of an empty array is nan and [int(nan)] raises
    ValueError. *)
Definition wavelength_window (wave : list F) (fwhm_angstrom : F) : py_result Z :=
  match np_diff wave with
  | [] => Raise ValueError
  | _ =>
      let* window_length_pixels := int_window wave fwhm_angstrom in
      let window_length_pixels := Z.max 3 window_length_pixels in
      Ok (if Z.even window_length_pixels then window_length_pixels + 1
          else window_length_pixels)%Z
  end.

Definition savgol_filter_wavelength (wave data : list F) (fwhm_angstrom : F)
    (polyorder : nat) : py_result (list F) :=
  if negb (Nat.eqb (length data) (length wave)) then Raise ValueError else
  if fleb fwhm_angstrom f0 then Ok data else
  let* window_length_pixels := wavelength_window wave fwhm_angstrom in
  let window_length_pixels := Z.min window_length_pixels (Z.of_nat (length data)) in
  if (window_length_pixels <? 3)%Z then Ok data else
  let w := Z.to_nat window_length_pixels in
  let polyorder := Nat.min polyorder (w - 1) in
  Ok (match savgol_filter data w polyorder with
      | Ok r => r
      | Raise _ => data
      end).

End Window.

(** The filter run with its window clamped to the data length. *)
Definition clamped_result (data : list F) (polyorder : nat) : list F :=
  if Nat.ltb (length data) 3 then data
  else savgol_core data (length data) (Nat.min polyorder (length data - 1)).

End Generic.

Definition spike : list Q := [0; 0; 1; 0; 0]%Q.
Definition wave5 : list Q := [1; 2; 3; 4; 5]%Q.

End Savgol.

(** * Module Apodize: [apodize] of src/snid_sage/snid/preprocessing.py *)
Module Apodize.
Local Open Scope R_scope.

(** Python's [round] on a float: to the nearest integer, halves to even. *)
Definition py_round (x : R) : Z :=
  let f := Int_part x in
  let r := x - IZR f in
  if Rlt_dec r (1 / 2) then f
  else if Rlt_dec (1 / 2) r then (f + 1)%Z
  else if Z.even f then f else (f + 1)%Z.

(** [out[start : start + len(ramp)] *= ramp], for a slice inside [out]. *)
Definition mul_slice (out : list R) (start : Z) (ramp : list R) : list R :=
  map (fun jx =>
         let k := (Z.of_nat (fst jx) - start)%Z in
         if ((0 <=? k) && (k <? Z.of_nat (length ramp)))%Z
         then snd jx * nth (Z.to_nat k) ramp 0
         else snd jx)
      (combine (seq 0 (length out)) out).

(** [percent=None] is [None]. *)
Definition apodize (arr : list R) (n1 n2 : Z) (percent : option R) : list R :=
  let out := arr in
  if negb ((0 <=? n1) && (n1 <=? n2) && (n2 <? Z.of_nat (length arr)))%Z then out else
  match percent with
  | None => out
  | Some percent =>
      if Rle_dec percent 0 then out else
      let valid_data_len := (n2 - n1 + 1)%Z in
      if (valid_data_len <=? 0)%Z then out else
      let ns := py_round (IZR valid_data_len * percent / 100) in
      let ns := Z.min ns (py_int_R (IZR valid_data_len / 2)) in
      if (ns <? 1)%Z then out else
      let ramp :=
        if (ns =? 1)%Z then [0]
        else map (fun k => 1 / 2 * (1 - cos (PI * INR k / (IZR ns - 1))))
                 (seq 0 (Z.to_nat ns)) in
      if ((n1 + ns >? Z.of_nat (length arr)) || (n2 - ns + 1 <? 0))%Z then out else
      let out := mul_slice out n1 ramp in
      mul_slice out (n2 - ns + 1) (rev ramp)
  end.

(** Modelled from the spec: the preprocessed spectrum's [tapered_flux] is
    [flat_flux] apodized over [left_edge, right_edge] with
    [apodize_percent] ("within [left_edge, right_edge] apply a
    raised-cosine taper over the given percentage of that region's length
    at each end; produce tapered_flux without modifying flat_flux"). *)
Definition tapered_flux_of (flat_flux : list R) (left_edge right_edge : Z)
    (apodize_percent : R) : list R :=
  apodize flat_flux left_edge right_edge (Some apodize_percent).

End Apodize.

(** * Module LogRebin: the log-wavelength grid and [log_rebin] of
    src/snid_sage/snid/preprocessing.py *)
Module LogRebin.
Local Open Scope R_scope.

(** The module-level grid [(NW, W0, W1, DWLOG)]. *)
Record grid := { NW : nat; W0 : R; W1 : R; DWLOG : R }.

(** [init_wavelength_grid], for positive finite bounds and a positive
    number of points (the grid every caller uses). *)
Definition init_wavelength_grid (num_points : nat) (min_wave max_wave : R) : grid :=
  {| NW := num_points; W0 := min_wave; W1 := max_wave;
     DWLOG := ln (max_wave / min_wave) / INR num_points |}.

Definition default_grid : grid := init_wavelength_grid 1024 2500 10000.

(** [_ensure_grid]: the module-level [DWLOG = None] is commented out, so
    before [init_wavelength_grid] has run, reading [DWLOG] raises
    NameError ([OtherError]). *)
Definition ensure_grid (st : option grid) : py_result grid :=
  match st with
  | Some g => Ok g
  | None => Raise OtherError
  end.

(** Step 5: the linear pixel edges [s], [len(wave) + 1] of them:
    midpoints inside, extrapolated half pixels at both ends. *)
Definition s_edges (wave : list R) : list R :=
  let n := length wave in
  map (fun k =>
         if Nat.eqb k 0 then 3 / 2 * nth 0 wave 0 - 1 / 2 * nth 1 wave 0
         else if Nat.eqb k n then 3 / 2 * nth (n - 1) wave 0 - 1 / 2 * nth (n - 2) wave 0
         else 1 / 2 * (nth (k - 1) wave 0 + nth k wave 0))
      (seq 0 (S n)).

(** Step 6: [slog = np.log(s / w0) / dwlog + 1.0]. *)
Definition slog (g : grid) (sk : R) : R := ln (sk / W0 g) / DWLOG g + 1.

(** [int(np.floor(slog[k]))].  numpy's log of a negative ratio is nan and
    of zero is -inf, a zero [w0] or [dwlog] makes the quotient infinite or
    nan; [int()] then raises ValueError (nan) or OverflowError (inf). *)
Definition slog_floor (g : grid) (sk : R) : py_result Z :=
  if Req_EM_T (W0 g) 0 then
    (if Req_EM_T sk 0 then Raise ValueError
     else if Rlt_dec 0 sk then Raise OverflowError else Raise ValueError)
  else
    let ratio := sk / W0 g in
    if Rlt_dec ratio 0 then Raise ValueError
    else if Req_EM_T ratio 0 then Raise OverflowError
    else if Req_EM_T (DWLOG g) 0 then
      (if Req_EM_T (ln ratio) 0 then Raise ValueError else Raise OverflowError)
    else Ok (Int_part (slog g sk)).

(** [fsrc[l]] *)
Definition py_index (l : list R) (k : nat) : py_result R :=
  if Nat.ltb k (length l) then Ok (nth k l 0) else Raise IndexError.

(** [fdest[k] += v] *)
Fixpoint add_at (l : list R) (k : nat) (v : R) : list R :=
  match l, k with
  | [], _ => []
  | x :: l', O => (x + v) :: l'
  | x :: l', S k' => x :: add_at l' k' v
  end.

(** [range(a, b + 1)] *)
Definition zrange (a b : Z) : list Z :=
  map (fun k => (a + Z.of_nat k)%Z) (seq 0 (Z.to_nat (b - a + 1))).

(** One iteration of the inner loop over the log bins [i]. *)
Definition rebin_bin (s0log s1log width_log dl : R) (fsrc : list R) (l : nat)
    (acc : py_result (list R)) (i : Z) : py_result (list R) :=
  let* fdest := acc in
  let alen := Rmin s1log (IZR i + 1) - Rmax s0log (IZR i) in
  if Rle_dec alen 0 then Ok fdest else
  let frac := alen / width_log in
  let* f := py_index fsrc l in
  Ok (add_at fdest (Z.to_nat (i - 1)) (f * frac * dl)).

(** One iteration of the outer loop over the source pixels [l]. *)
Definition rebin_pixel (g : grid) (s fsrc : list R)
    (acc : py_result (list R)) (l : nat) : py_result (list R) :=
  let* fdest := acc in
  let s0 := nth l s 0 in
  let s1 := nth (S l) s 0 in
  let dl := s1 - s0 in
  let* fl0 := slog_floor g s0 in
  let i0 := Z.max 1 fl0 in
  let* fl1 := slog_floor g s1 in
  let i1 := Z.min (Z.of_nat (NW g)) fl1 in
  let s0log := slog g s0 in
  let s1log := slog g s1 in
  let width_log := s1log - s0log in
  fold_left (rebin_bin s0log s1log width_log dl fsrc l) (zrange i0 i1) (Ok fdest).

(** [log_rebin(wave, fsrc)] in the module state [st] of the grid; returns
    [(log_wave, fdest)].  [wave[1]] raises IndexError for fewer than two
    samples. *)
Definition log_rebin (st : option grid) (wave fsrc : list R)
    : py_result (list R * list R) :=
  let* g := ensure_grid st in
  let nlog := NW g in
  let log_wave := map (fun k => W0 g * exp ((INR k + 1 / 2) * DWLOG g)) (seq 0 nlog) in
  let fdest := repeat 0 nlog in
  if Nat.ltb (length wave) 2 then Raise IndexError else
  let s := s_edges wave in
  let* fdest := fold_left (rebin_pixel g s fsrc) (seq 0 (length wave)) (Ok fdest) in
  let edges := map (fun k => W0 g * exp ((INR k - 1 / 2) * DWLOG g)) (seq 0 (S nlog)) in
  let binw := map (fun ab => snd ab - fst ab) (combine edges (tl edges)) in
  Ok (log_wave, map (fun ab => fst ab / snd ab) (combine fdest binw)).

(** The input's coverage: from the first to the last extrapolated pixel
    edge. *)
Definition coverage_lo (wave : list R) : R := 3 / 2 * nth 0 wave 0 - 1 / 2 * nth 1 wave 0.
Definition coverage_hi (wave : list R) : R :=
  3 / 2 * nth (length wave - 1) wave 0 - 1 / 2 * nth (length wave - 2) wave 0.

(** Log bin [j] (0-based) collects the flux of [slog] in [j+1, j+2], the
    wavelengths [W0 exp(j DWLOG), W0 exp((j+1) DWLOG)]. *)
Definition bin_outside (g : grid) (wave : list R) (j : nat) : Prop :=
  W0 g * exp (INR (S j) * DWLOG g) <= coverage_lo wave \/
  coverage_hi wave <= W0 g * exp (INR j * DWLOG g).

Definition nondecreasing (wave : list R) : Prop :=
  forall k, (S k < length wave)%nat -> nth k wave 0 <= nth (S k) wave 0.

End LogRebin.

(** * Module Flatten: [flatten_spectrum] of src/snid_sage/snid/preprocessing.py *)
Module Flatten.
Local Open Scope R_scope.

(** Python's binding of keyword arguments: an unexpected keyword raises
    TypeError before the body runs. *)
Definition check_kwargs (params kwargs : list string) : py_result unit :=
  if forallb (fun k => existsb (String.eqb k) params) kwargs then Ok tt
  else Raise TypeError.

(** The signature [log_rebin(wave, fsrc)]. *)
Definition log_rebin_params : list string := ["wave"; "fsrc"]%string.

Record flatten_result := {
  fr_wave : list R;
  fr_flux : list R;
  fr_continuum : list R;
  fr_original_wave : list R;
  fr_original_flux : list R
}.

(** The smoothing step ([median_filter_type] "pixel" or "angstrom");
    [int_window] is the float64 window computation of
    [savgol_filter_wavelength]. *)
Definition smoothing_step (int_window : list R -> R -> py_result Z)
    (wave flux : list R) (median_filter_type : string)
    (median_filter_value : R) : py_result (list R) :=
  if negb (String.eqb median_filter_type "none") && (if Rlt_dec 0 median_filter_value then true else false)
  then
    if String.eqb median_filter_type "pixel" then
      let window_length := Z.max 3 (py_int_R median_filter_value) in
      Ok (Savgol.savgol_filter_fixed flux (Z.to_nat window_length) 3)
    else if String.eqb median_filter_type "angstrom" then
      Savgol.savgol_filter_wavelength int_window wave flux median_filter_value 3
    else Ok flux
  else Ok flux.

Section WithContinuum.
(** The continuum fit [fit_continuum(log_flux, method="spline")] that
    follows the rebinning, left abstract. *)
Variable fit_continuum : list R -> py_result (list R * list R).
(** The float64 step [int(2 * sigma_angstrom / avg_dwl)] of
    [savgol_filter_wavelength] ([Savgol.wavelength_window]). *)
Variable int_window : list R -> R -> py_result Z.

(** [flatten_spectrum] in the module state [st] of the log grid. *)
Definition flatten_spectrum (st : option LogRebin.grid) (wave flux : list R)
    (apodize_percent : R) (median_filter_type : string) (median_filter_value : R)
    (num_points : nat) : py_result flatten_result :=
  let flux :=
    if Rlt_dec 0 apodize_percent then
      let n_points := length flux in
      let n_apodize := py_int_R (INR n_points * apodize_percent / 100) in
      Apodize.apodize flux n_apodize n_apodize (Some apodize_percent)
    else flux in
  let* flux := smoothing_step int_window wave flux median_filter_type median_filter_value in
  let* _ := check_kwargs log_rebin_params ["num_points"]%string in
  let* rebinned := LogRebin.log_rebin st wave flux in
  let '(log_wave, log_flux) := rebinned in
  let* fitted := fit_continuum log_flux in
  let '(flat_flux, continuum) := fitted in
  Ok {| fr_wave := log_wave; fr_flux := flat_flux; fr_continuum := continuum;
        fr_original_wave := wave; fr_original_flux := flux |}.

End WithContinuum.

End Flatten.

(** * Module Spline: [fit_continuum_spline] of src/snid_sage/snid/preprocessing.py

    Python indexing and assignment are checked ([IndexError] out of range,
    negative indices count from the end); [np.log10] and [10.0 ** x] are
    parameters of the model. *)
Module Spline.
Local Open Scope Q_scope.

(** Python's index normalisation: [k] or [len + k] for a negative [k]. *)
Definition py_norm_index (len k : Z) : option nat :=
  if ((0 <=? k) && (k <? len))%Z then Some (Z.to_nat k)
  else if ((- len <=? k) && (k <? 0))%Z then Some (Z.to_nat (len + k))
  else None.

(** [l[k]] *)
Definition py_get (l : list Q) (k : Z) : py_result Q :=
  match py_norm_index (Z.of_nat (length l)) k with
  | Some i => Ok (nth i l 0)
  | None => Raise IndexError
  end.

Fixpoint set_nth (l : list Q) (i : nat) (v : Q) : list Q :=
  match l, i with
  | [], _ => []
  | _ :: l', O => v :: l'
  | x :: l', S i' => x :: set_nth l' i' v
  end.

(** [l[k] = v] *)
Definition py_set (l : list Q) (k : Z) (v : Q) : py_result (list Q) :=
  match py_norm_index (Z.of_nat (length l)) k with
  | Some i => Ok (set_nth l i v)
  | None => Raise IndexError
  end.

(** Python's [a % b] and [a // b] on ints. *)
Definition py_mod (a b : Z) : py_result Z :=
  if (b =? 0)%Z then Raise ZeroDivisionError else Ok (a mod b)%Z.
Definition py_floordiv (a b : Z) : py_result Z :=
  if (b =? 0)%Z then Raise ZeroDivisionError else Ok (a / b)%Z.

(** An elementwise numpy operation on two 1-D arrays (shapes must agree;
    they always have equal lengths below, where numpy's broadcasting of a
    length-1 operand does not arise). *)
Definition vzip (f : Q -> Q -> Q) (a b : list Q) : py_result (list Q) :=
  if Nat.eqb (length a) (length b) then Ok (map (fun p => f (fst p) (snd p)) (combine a b))
  else Raise ValueError.

(** [np.diff], and the slices [l[k:]], [l[:-k]], [l[1:-1]]. *)
Definition qdiff (l : list Q) : list Q := map (fun p => snd p - fst p) (combine l (tl l)).
Definition drop_last (k : nat) (l : list Q) : list Q := firstn (length l - k) l.
Definition mid (l : list Q) : list Q := firstn (length l - 2) (skipn 1 l).

(** [range(a, b + 1)] and [range(a, -1, -1)] *)
Definition zrange (a b : Z) : list Z :=
  map (fun k => (a + Z.of_nat k)%Z) (seq 0 (Z.to_nat (b - a + 1))).
Definition zrange_down (a : Z) : list Z :=
  map (fun k => (a - Z.of_nat k)%Z) (seq 0 (Z.to_nat (a + 1))).

(** [np.searchsorted(a, v)] (side "left") on a sorted array: the number of
    elements below [v]. *)
Definition searchsorted (a : list Q) (v : Q) : Z :=
  Z.of_nat (length (filter (fun x => negb (Qle_bool v x)) a)).

Fixpoint py_mapM {A B : Type} (f : A -> py_result B) (l : list A) : py_result (list B) :=
  match l with
  | [] => Ok []
  | x :: l' => let* y := f x in let* ys := py_mapM f l' in Ok (y :: ys)
  end.

Definition zeros (n : nat) : list Q := repeat 0 n.
Definition ones (n : nat) : list Q := repeat 1 n.

Section WithLog.
Variables (log10 pow10 : Q -> Q).

(** [while l1 < n - 1 and (flux[l1] <= 0 or nuked < 1)]; the loop makes
    at most [n - 1] iterations, [fuel] is [n]. *)
Fixpoint chop_l1 (fuel : nat) (flux : list Q) (n l1 nuked : Z) : py_result Z :=
  match fuel with
  | O => Ok l1
  | S fuel' =>
      if (l1 <? n - 1)%Z then
        let* f := py_get flux l1 in
        if Qle_bool f 0 || (nuked <? 1)%Z then
          let* f' := py_get flux l1 in
          let nuked := if Qle_bool f' 0 then nuked else (nuked + 1)%Z in
          chop_l1 fuel' flux n (l1 + 1)%Z nuked
        else Ok l1
      else Ok l1
  end.

(** [while l2 > 1 and (flux[l2] <= 0 or nuked < 1)] *)
Fixpoint chop_l2 (fuel : nat) (flux : list Q) (l2 nuked : Z) : py_result Z :=
  match fuel with
  | O => Ok l2
  | S fuel' =>
      if (1 <? l2)%Z then
        let* f := py_get flux l2 in
        if Qle_bool f 0 || (nuked <? 1)%Z then
          let* f' := py_get flux l2 in
          let nuked := if Qle_bool f' 0 then nuked else (nuked + 1)%Z in
          chop_l2 fuel' flux (l2 - 1)%Z nuked
        else Ok l2
      else Ok l2
  end.

(** Step 1: the usable range [l1 .. l2]. *)
Definition chop_ends (flux : list Q) : py_result (Z * Z) :=
  let n := Z.of_nat (length flux) in
  let* l1 := chop_l1 (length flux) flux n 0 0 in
  let* l2 := chop_l2 (length flux) flux (n - 1) 0 in
  Ok (l1, l2).

Record knot_state := {
  ks_x : list Q;
  ks_y : list Q;
  ks_nave : Q;
  ks_sum_x : Q;
  ks_sum_y : Q
}.

Definition knot_init : knot_state :=
  {| ks_x := []; ks_y := []; ks_nave := 0; ks_sum_x := 0; ks_sum_y := 0 |}.

(** One iteration of the knot loop. *)
Definition knot_step (flux logf : list Q) (l1 l2 istart kwidth : Z)
    (acc : py_result knot_state) (i : Z) : py_result knot_state :=
  let* st := acc in
  let* st :=
    if ((l1 <? i) && (i <? l2))%Z then
      let* fi := py_get flux i in
      if Qle_bool fi 0 then Ok st else
      let* lf := py_get logf i in
      Ok {| ks_x := ks_x st; ks_y := ks_y st; ks_nave := ks_nave st + 1;
            ks_sum_x := ks_sum_x st + (inject_Z i - (1 # 2));
            ks_sum_y := ks_sum_y st + lf |}
    else Ok st in
  let* r := py_mod (i - istart) kwidth in
  if (r =? 0)%Z && negb (Qle_bool (ks_nave st) 0) then
    Ok {| ks_x := ks_x st ++ [ks_sum_x st / ks_nave st];
          ks_y := ks_y st ++ [ks_sum_y st / ks_nave st];
          ks_nave := 0; ks_sum_x := 0; ks_sum_y := 0 |}
  else Ok st.

(** Step 2: knot placement on [log10] of the positive fluxes. *)
Definition place_knots (flux : list Q) (knotnum izoff l1 l2 : Z) : py_result knot_state :=
  let n := Z.of_nat (length flux) in
  let logf := map (fun f => if Qle_bool f 0 then 0 else log10 f) flux in
  let* kwidth := py_floordiv n knotnum in
  let* istart :=
    if (0 <? izoff)%Z then let* m := py_mod izoff kwidth in Ok (m - kwidth)%Z
    else Ok 0%Z in
  fold_left (knot_step flux logf l1 l2 istart kwidth) (zrange 0 (n - 1)) (Ok knot_init).

(** One iteration of the forward elimination. *)
Definition fwd_step (A C rhs : list Q) (acc : py_result (list Q * list Q)) (i : Z)
    : py_result (list Q * list Q) :=
  let* uz := acc in
  let '(u, z) := uz in
  let* c := py_get C (i - 1) in
  let* ui := py_get u (i - 1) in
  let li := c / ui in
  let* a := py_get A i in
  let* c' := py_get C (i - 1) in
  let* u := py_set u i (a - li * c') in
  let* r := py_get rhs i in
  let* zi := py_get z (i - 1) in
  let* z := py_set z i (r - li * zi) in
  Ok (u, z).

(** One iteration of the back substitution. *)
Definition back_step (C u z : list Q) (acc : py_result (list Q)) (i : Z) : py_result (list Q) :=
  let* y2 := acc in
  let* zi := py_get z i in
  let* ci := py_get C i in
  let* y := py_get y2 (i + 2) in
  let* ui := py_get u i in
  py_set y2 (i + 1) ((zi - ci * y) / ui).

(** Step 4 at pixel [j]: the spline in [log10], then [10.0 ** logc]. *)
Definition eval_at (xknot yknot y2 : list Q) (nk j : Z) : py_result Q :=
  let xp := inject_Z j - (1 # 2) in
  let idx := Z.min (Z.max (searchsorted xknot xp - 1) 0) (nk - 2) in
  let* x1 := py_get xknot (idx + 1) in
  let* x0 := py_get xknot idx in
  let h_i := x1 - x0 in
  let* x1' := py_get xknot (idx + 1) in
  let a := (x1' - xp) / h_i in
  let* x0' := py_get xknot idx in
  let b := (xp - x0') / h_i in
  let* y0 := py_get yknot idx in
  let* y1 := py_get yknot (idx + 1) in
  let* s0 := py_get y2 idx in
  let* s1 := py_get y2 (idx + 1) in
  let logc := a * y0 + b * y1 + ((a ^ 3 - a) * s0 + (b ^ 3 - b) * s1) * (h_i ^ 2) / 6 in
  Ok (pow10 logc).

(** Steps 3 to 5, on at least three knots. *)
Definition spline_continuum (flux xknot yknot : list Q) : py_result (list Q * list Q) :=
  let n := Z.of_nat (length flux) in
  let nk := Z.of_nat (length xknot) in
  let h := qdiff xknot in
  let* t1 := vzip Qminus (skipn 2 yknot) (mid yknot) in
  let* t1 := vzip Qdiv t1 (skipn 1 h) in
  let* t2 := vzip Qminus (mid yknot) (drop_last 2 yknot) in
  let* t2 := vzip Qdiv t2 (drop_last 1 h) in
  let* rhs := vzip Qminus t1 t2 in
  let rhs := map (Qmult 6) rhs in
  let* A := vzip Qplus (drop_last 1 h) (skipn 1 h) in
  let A := map (Qmult 2) A in
  let C := skipn 1 h in
  let u := repeat 0 (length A) in
  let z := repeat 0 (length rhs) in
  let* a0 := py_get A 0 in
  let* r0 := py_get rhs 0 in
  let* u := py_set u 0 a0 in
  let* z := py_set z 0 r0 in
  let* uz := fold_left (fwd_step A C rhs) (zrange 1 (Z.of_nat (length rhs) - 1)) (Ok (u, z)) in
  let '(u, z) := uz in
  let y2 := repeat 0 (length xknot) in
  let* y2 :=
    if Nat.ltb 0 (length rhs) then
      let* zl := py_get z (-1) in
      let* ul := py_get u (-1) in
      let* y2 := py_set y2 (-2) (zl / ul) in
      fold_left (back_step C u z) (zrange_down (Z.of_nat (length rhs) - 2)) (Ok y2)
    else Ok y2 in
  let* cont := py_mapM (eval_at xknot yknot y2 nk) (zrange 0 (n - 1)) in
  let flat :=
    map (fun fc => if negb (Qle_bool (fst fc) 0) && negb (Qle_bool (snd fc) 0)
                   then fst fc / snd fc - 1 else 0)
        (combine flux cont) in
  Ok (flat, cont).

Definition fit_continuum_spline (flux : list Q) (knotnum izoff : Z)
    : py_result (list Q * list Q) :=
  let n := length flux in
  if ((Z.of_nat n <? 10) || (knotnum <? 3))%Z then Ok (zeros n, ones n) else
  let* l12 := chop_ends flux in
  let '(l1, l2) := l12 in
  if (l2 - l1 <? 3 * knotnum)%Z then Ok (zeros n, ones n) else
  let* ks := place_knots flux knotnum izoff l1 l2 in
  if Nat.ltb (length (ks_x ks)) 3 then Ok (zeros n, ones n) else
  spline_continuum flux (ks_x ks) (ks_y ks).

End WithLog.

Definition flux12 : list Q := repeat 1 12.
Definition flux_ramp : list Q := map (fun k => inject_Z (Z.of_nat k) + 1) (seq 0 30).

End Spline.

(** * Module Cli: [main] of src/snid_sage/interfaces/cli/identify.py

    The calls [main] makes into the rest of the package ([os.path.exists],
    [_validate_and_fix_templates_dir], [read_spectrum] with
    [preprocess_spectrum], [run_snid_analysis], the output writers and the
    results formatter) are inputs of the model: each is given by the value
    it returns or the exception it raises. Every [print] is recorded with
    its stream; text is kept up to the emoji of the progress lines, and the
    trailing newline of [print] is left out. *)
Module Cli.
Local Open Scope string_scope.

Inductive stream := Stdout | Stderr.

(** A raised exception: its class and [str(e)]. *)
Record exn := mk_exn { exn_kind : py_exc; exn_msg : string }.

Definition out := list (stream * string).

(** Output-and-exception state: the lines printed so far, and a value or
    the exception in flight. *)
Definition io (A : Type) := out -> out * (A + exn).

Definition ret {A} (a : A) : io A := fun o => (o, inl a).
Definition lift {A} (r : A + exn) : io A := fun o => (o, r).
Definition bind {A B} (m : io A) (k : A -> io B) : io B :=
  fun o => let '(o', r) := m o in
           match r with inl a => k a o' | inr e => (o', inr e) end.
Definition print (s : stream) (msg : string) : io unit := fun o => (app o [(s, msg)], inl tt).

Notation "x <-- m ;; k" := (bind m (fun x => k)) (at level 61, m at next level, right associativity).

Definition nl : string := String (Ascii.ascii_of_nat 10) EmptyString.

(** The [SNIDResult] fields [main] reads: [success], and [error_message]
    when the attribute exists. *)
Record snid_result := { success : bool; error_message : option string }.

(** The command-line options [main] reads for its control flow. *)
Record cli_args := {
  spectrum_path : string;
  verbose : bool;
  minimal : bool;
  complete : bool;
  output_dir : string
}.

(** Outcomes of the calls [main] makes: [spectrum_name] is
    [Path(spectrum_path).stem]; [summary] is the unified formatter block,
    whose [ImportError] fallback also just prints, so only other
    exceptions appear there. *)
Record cli_env := {
  path_exists : bool;
  spectrum_name : string;
  templates : string + exn;
  preprocess : unit + exn;
  analysis : option snid_result + exn;
  save_outputs : unit + exn;
  summary : unit + exn
}.

(** [if not result or not result.success] *)
Definition result_ok (r : option snid_result) : bool :=
  match r with Some x => success x | None => false end.

(** The body of the [try] block. *)
Definition main_try (a : cli_args) (env : cli_env) : io Z :=
  if negb (path_exists env) then
    _ <-- print Stderr ("[ERROR] Spectrum file not found: " ++ spectrum_path a) ;; ret 1%Z
  else
  match templates env with
  | inr e =>
      match exn_kind e with
      | FileNotFoundError => _ <-- print Stderr ("[ERROR] " ++ exn_msg e) ;; ret 1%Z
      | _ => fun o => (o, inr e)
      end
  | inl _ =>
    _ <-- lift (preprocess env) ;;
    _ <-- (if verbose a then ret tt else print Stdout "Starting SNID analysis...") ;;
    result <-- lift (analysis env) ;;
    _ <-- (if verbose a then ret tt else
             _ <-- print Stdout (if result_ok result then "Analysis complete" else "Analysis failed") ;;
             print Stdout EmptyString) ;;
    if negb (result_ok result) then
      _ <-- print Stdout (nl ++ "[ERROR] SNID analysis failed for " ++ spectrum_name env) ;;
      _ <-- match result with
            | Some {| error_message := Some m |} => print Stdout ("   Error: " ++ m)
            | _ => ret tt
            end ;;
      ret 1%Z
    else
      _ <-- lift (save_outputs env) ;;
      _ <-- lift (summary env) ;;
      _ <-- (if minimal a then print Stdout ("Main result file saved to: " ++ output_dir a ++ "/")
             else
               _ <-- print Stdout (nl ++ "Results saved to: " ++ output_dir a ++ "/") ;;
               if complete a then
                 _ <-- print Stdout "   3D Plots: Static PNG files with optimized viewing angle" ;;
                 print Stdout "   Top 5 templates: Sorted by RLAP (highest quality first)"
               else ret tt) ;;
      ret 0%Z
  end.

(** [main]: the [try] block with its two [except] clauses; the
    traceback printed in verbose mode is one [stderr] entry. *)
Definition main (a : cli_args) (env : cli_env) : out * Z :=
  let '(o, r) := main_try a env [] in
  match r with
  | inl code => (o, code)
  | inr e =>
      match exn_kind e with
      | FileNotFoundError =>
          (app o [(Stderr, "[ERROR] File not found - " ++ exn_msg e)], 1%Z)
      | _ =>
          (app o ((Stderr, "[ERROR] Error during SNID identification: " ++ exn_msg e)
                  :: (if verbose a then [(Stderr, "Traceback (most recent call last):")] else [])),
           1%Z)
      end
  end.

(** [main] ran to a successful identification. *)
Definition main_succeeds (env : cli_env) : Prop :=
  path_exists env = true /\ (exists t, templates env = inl t) /\ preprocess env = inl tt /\
  (exists r, analysis env = inl (Some r) /\ success r = true) /\
  save_outputs env = inl tt /\ summary env = inl tt.

Definition demo_args : cli_args :=
  {| spectrum_path := "sn.dat"; verbose := false; minimal := false; complete := false;
     output_dir := "results" |}.

Definition demo_env (r : option snid_result) : cli_env :=
  {| path_exists := true; spectrum_name := "sn"; templates := inl "templates";
     preprocess := inl tt; analysis := inl r; save_outputs := inl tt; summary := inl tt |}.

Definition demo_failed : option snid_result :=
  Some {| success := false; error_message := Some "no template matched" |}.

End Cli.

(** * Module Masks: the clipping helpers and [pad_to_NW] of
    src/snid_sage/snid/preprocessing.py *)
Module Masks.
Local Open Scope Q_scope.

(** [(w >= a) & (w <= b)] at one sample. *)
Definition in_band (a b x : Q) : bool := Qle_bool a x && Qle_bool x b.

(** [keep &= ~((w >= a) & (w <= b))] *)
Definition mask_out (keep : list bool) (w : list Q) (a b : Q) : list bool :=
  map (fun kx => fst kx && negb (in_band a b (snd kx))) (combine keep w).

(** [np.ones_like(w, bool)] *)
Definition ones_keep (w : list Q) : list bool := repeat true (length w).

(** Boolean indexing [l[keep]]: numpy raises IndexError when the mask and
    the array differ in length. *)
Definition bool_index (l : list Q) (keep : list bool) : py_result (list Q) :=
  if Nat.eqb (length l) (length keep) then Ok (map fst (filter snd (combine l keep)))
  else Raise IndexError.

(** [return w[keep], f[keep]] *)
Definition select (w f : list Q) (keep : list bool) : py_result (list Q * list Q) :=
  let* w' := bool_index w keep in
  let* f' := bool_index f keep in
  Ok (w', f').

Definition aband_default : Q * Q := (7575, 7675).

Definition clip_aband (w f : list Q) (band : Q * Q) : py_result (list Q * list Q) :=
  let '(a, b) := band in
  let keep := map (fun x => negb (in_band a b x)) w in
  select w f keep.

Definition sky_lines_default : list Q := [5577; 63002 # 10; 6364].

Definition clip_sky_lines (w f : list Q) (width : Q) (lines : list Q)
    : py_result (list Q * list Q) :=
  let keep := fold_left (fun keep l => mask_out keep w (l - width) (l + width)) lines (ones_keep w) in
  select w f keep.

Definition host_rest_lines : list Q :=
  [37273 # 10; 48613 # 10; 49589 # 10; 50068 # 10;
   65481 # 10; 65628 # 10; 65836 # 10; 67164 # 10; 67308 # 10].

Definition clip_host_emission_lines (w f : list Q) (z width : Q)
    : py_result (list Q * list Q) :=
  if Qlt_le_dec z 0 then Ok (w, f) else
  let keep :=
    fold_left (fun keep l => let ll := l * (1 + z) in mask_out keep w (ll - width) (ll + width))
              host_rest_lines (ones_keep w) in
  select w f keep.

(** One iteration of the loop of [apply_wavelength_mask]. *)
Definition mask_range (w : list Q) (acc : py_result (list bool)) (r : Q * Q)
    : py_result (list bool) :=
  let* keep := acc in
  let '(a, b) := r in
  if Qlt_le_dec b a then Raise ValueError
  else Ok (mask_out keep w a b).

Definition apply_wavelength_mask (w f : list Q) (ranges : list (Q * Q))
    : py_result (list Q * list Q) :=
  let* keep := fold_left (mask_range w) ranges (Ok (ones_keep w)) in
  select w f keep.

(** [x] lies in none of the closed intervals [ranges]. *)
Definition outside_all (ranges : list (Q * Q)) (x : Q) : bool :=
  forallb (fun r => negb (in_band (fst r) (snd r) x)) ranges.

(** Some interval of [ranges] has [b < a]. *)
Definition has_bad_range (ranges : list (Q * Q)) : bool :=
  existsb (fun r => if Qlt_le_dec (snd r) (fst r) then true else false) ranges.

(** The pairs [(w[i], f[i])] kept by a mask over [ranges], unzipped. *)
Definition kept_pairs (ranges : list (Q * Q)) (w f : list Q) : list Q * list Q :=
  let ps := filter (fun p => outside_all ranges (fst p)) (combine w f) in
  (map fst ps, map snd ps).

(** The result of [select w f keep] for a mask that keeps [kept]: numpy's
    IndexError when [f] and [w] differ in length. *)
Definition or_index_error (w f : list Q) (kept : list Q * list Q) : py_result (list Q * list Q) :=
  if Nat.eqb (length w) (length f) then Ok kept else Raise IndexError.

(** [pad_to_NW]: [np.zeros] of a negative size raises ValueError; the
    assignment [out[:arr.size] = arr] writes a slice of length
    [min(arr.size, NW)] and raises ValueError when [arr] cannot be
    broadcast to it (a length-1 [arr] is broadcast). *)
Definition pad_to_NW (arr : list Q) (NW : Z) : py_result (list Q) :=
  if (Z.of_nat (length arr) =? NW)%Z then Ok arr else
  if (NW <? 0)%Z then Raise ValueError else
  let out := repeat 0 (Z.to_nat NW) in
  let sl := Nat.min (length arr) (Z.to_nat NW) in
  if Nat.eqb (length arr) sl then Ok (arr ++ skipn sl out)
  else if Nat.eqb (length arr) 1 then Ok (repeat (hd 0 arr) sl ++ skipn sl out)
  else Raise ValueError.

End Masks.

(** * Module ContinuumFit: [fit_continuum] and [unflatten_on_loggrid] of
    src/snid_sage/snid/preprocessing.py *)
Module ContinuumFit.
Import Spline.
Local Open Scope Q_scope.

(** [np.where(flux > 0)[0]] *)
Definition positive_indices (flux : list Q) : list Z :=
  map Z.of_nat (filter (fun i => negb (Qle_bool (nth i flux 0) 0)) (seq 0 (length flux))).

(** [flux[flux > 0]] *)
Definition positive_values (flux : list Q) : list Q :=
  filter (fun x => negb (Qle_bool x 0)) flux.

(** [l[a:b]] for [0 <= a] and [0 <= b]. *)
Definition py_slice (l : list Q) (a b : Z) : list Q :=
  firstn (Z.to_nat b - Z.to_nat a) (skipn (Z.to_nat a) l).

(** [l[a:b] = v] for [0 <= a] and [0 <= b]: numpy requires [v] to have the
    slice's length, or length 1 (broadcast); otherwise ValueError. *)
Definition slice_assign (l : list Q) (a b : Z) (v : list Q) : py_result (list Q) :=
  let a := Z.to_nat a in
  let m := (Nat.min (Z.to_nat b) (length l) - a)%nat in
  let v' := if Nat.eqb (length v) m then Some v
            else if Nat.eqb (length v) 1 then Some (repeat (hd 0 v) m)
            else None in
  match v' with
  | None => Raise ValueError
  | Some v' => Ok (firstn a l ++ v' ++ skipn (a + m) l)
  end.

(** Elementwise update by position: [f idx l[idx]]. *)
Definition map_idx (f : Z -> Q -> Q) (l : list Q) : list Q :=
  map (fun p => f (Z.of_nat (fst p)) (snd p)) (combine (seq 0 (length l)) l).

(** Python's [max(a, b)]: [a] unless [b > a]. *)
Definition py_max (a b : Q) : Q := if Qlt_le_dec a b then b else a.

(** [for check_idx in range(n_edge_check): if i0 + check_idx < len(flux)
    and flux[i0 + check_idx] < threshold: i0 = i0 + check_idx + 1
    else: break]; the loop reads [i0] as updated. *)
Fixpoint skip_start (flux : list Q) (threshold : Q) (i0 : Z) (ks : list Z) : Z :=
  match ks with
  | [] => i0
  | k :: ks =>
      if ((i0 + k <? Z.of_nat (length flux))%Z
          && negb (Qle_bool threshold (nth (Z.to_nat (i0 + k)) flux 0)))
      then skip_start flux threshold (i0 + k + 1)%Z ks
      else i0
  end.

(** The same loop at the end: [i1 - check_idx >= 0 and
    flux[i1 - check_idx] < threshold] gives [i1 = i1 - check_idx - 1]. *)
Fixpoint skip_end (flux : list Q) (threshold : Q) (i1 : Z) (ks : list Z) : Z :=
  match ks with
  | [] => i1
  | k :: ks =>
      if ((0 <=? i1 - k)%Z && negb (Qle_bool threshold (nth (Z.to_nat (i1 - k)) flux 0)))
      then skip_end flux threshold (i1 - k - 1)%Z ks
      else i1
  end.

(** [flat = zeros; good = (flux > 0) & (cont > 0);
    flat[good] = flux[good] / cont[good] - 1.0] *)
Definition flat_of (flux cont : list Q) : list Q :=
  map (fun fc => if negb (Qle_bool (fst fc) 0) && negb (Qle_bool (snd fc) 0)
                 then fst fc / snd fc - 1 else 0)
      (combine flux cont).

(** [flat[:i0] = 0.0; flat[i1+1:] = 0.0; cont[:i0] = 0.0; cont[i1+1:] = 0.0]
    for the first and last positive pixels, when there are any. *)
Definition zero_outside (flux flat cont : list Q) : list Q * list Q :=
  match positive_indices flux with
  | [] => (flat, cont)
  | nz =>
      let i0 := hd 0%Z nz in
      let i1 := last nz 0%Z in
      let z := fun idx x => if ((idx <? i0) || (i1 <? idx))%Z then 0 else x in
      (map_idx z flat, map_idx z cont)
  end.

Section WithFilters.
Variables (log10 pow10 : Q -> Q).
(** [scipy.ndimage.gaussian_filter1d(x, sigma, mode="mirror")], [np.median],
    and [calculate_auto_gaussian_sigma]: the statements below hold for any
    such functions. *)
Variable gaussian_filter1d : list Q -> Q -> list Q.
Variable median : list Q -> Q.
Variable calculate_auto_gaussian_sigma : list Q -> Q.

(** The [method == "gaussian"] branch after its early return, up to the
    computation of [flat]. *)
Definition gaussian_fit (flux : list Q) (sigma : Q) : py_result (list Q * list Q) :=
  let n := Z.of_nat (length flux) in
  let positive_indices := positive_indices flux in
  let i0 := hd 0%Z positive_indices in
  let i1 := last positive_indices 0%Z in
  let n_edge_check := Z.min 3 (Z.of_nat (length positive_indices) / 10) in
  let '(i0, i1) :=
    if (2 * n_edge_check <? Z.of_nat (length positive_indices))%Z then
      let median_flux := median (positive_values flux) in
      let threshold := median_flux * (2 # 10) in
      let i0 := skip_start flux threshold i0 (zrange 0 (n_edge_check - 1)) in
      let i1 := skip_end flux threshold i1 (zrange 0 (n_edge_check - 1)) in
      (i0, i1)
    else (i0, i1) in
  let '(i0, i1) :=
    if (i1 - i0 <? 10)%Z then (hd 0%Z positive_indices, last positive_indices 0%Z)
    else (i0, i1) in
  let core_flux := py_slice flux i0 (i1 + 1) in
  let core_continuum := gaussian_filter1d core_flux sigma in
  let* cont := slice_assign (ones (length flux)) i0 (i1 + 1) core_continuum in
  let* cont :=
    if (0 <? i0)%Z then
      if (i0 + 1 <? Z.of_nat (length cont))%Z then
        let* c1 := py_get core_continuum 1 in
        let* c0 := py_get core_continuum 0 in
        let slope := c1 - c0 in
        Ok (map_idx (fun idx x =>
              if (idx <? i0)%Z then py_max (c0 + slope * inject_Z (idx - i0)) (c0 * (1 # 10))
              else x) cont)
      else
        let* c0 := py_get core_continuum 0 in
        Ok (map_idx (fun idx x => if (idx <? i0)%Z then c0 else x) cont)
    else Ok cont in
  let* cont :=
    if (i1 <? n - 1)%Z then
      if (0 <=? i1 - 1)%Z then
        let* cl := py_get core_continuum (-1) in
        let* cl2 := py_get core_continuum (-2) in
        let slope := cl - cl2 in
        Ok (map_idx (fun idx x =>
              if ((i1 + 1 <=? idx) && (idx <? n))%Z
              then py_max (cl + slope * inject_Z (idx - i1)) (cl * (1 # 10))
              else x) cont)
      else
        let* cl := py_get core_continuum (-1) in
        Ok (map_idx (fun idx x => if (i1 + 1 <=? idx)%Z then cl else x) cont)
    else Ok cont in
  Ok (flat_of flux cont, cont).

(** [fit_continuum(flux, method=..., knotnum=..., izoff=..., sigma=...)];
    [sigma=None] is [None]. *)
Definition fit_continuum (flux : list Q) (method : string) (knotnum izoff : Z)
    (sigma : option Q) : py_result (list Q * list Q) :=
  if String.eqb method "spline" then
    let* fc := fit_continuum_spline log10 pow10 flux knotnum izoff in
    Ok (zero_outside flux (fst fc) (snd fc))
  else if String.eqb method "gaussian" then
    let sigma := match sigma with
                 | None => calculate_auto_gaussian_sigma flux
                 | Some s => s
                 end in
    match positive_indices flux with
    | [] => Ok (zeros (length flux), ones (length flux))
    | _ =>
        let* fc := gaussian_fit flux sigma in
        Ok (zero_outside flux (fst fc) (snd fc))
    end
  else Raise ValueError.

End WithFilters.

(** Pixel [i] of [flat] is 0, or [flux/cont - 1] at a pixel where both
    [flux] and [cont] are positive. *)
Definition flat_rel (flux flat cont : list Q) (i : nat) : Prop :=
  nth i flat 0 = 0 \/
  (0 < nth i flux 0 /\ 0 < nth i cont 0 /\ nth i flat 0 = nth i flux 0 / nth i cont 0 - 1).

(** A binary numpy operation on two 1-D arrays, with broadcasting of a
    length-1 operand; other shape mismatches raise ValueError. *)
Definition np_broadcast (f : Q -> Q -> Q) (a b : list Q) : py_result (list Q) :=
  if Nat.eqb (length a) (length b) then Ok (map (fun p => f (fst p) (snd p)) (combine a b))
  else if Nat.eqb (length a) 1 then Ok (map (f (hd 0 a)) b)
  else if Nat.eqb (length b) 1 then Ok (map (fun x => f x (hd 0 b)) a)
  else Raise ValueError.

(** [(flat_tpl + 1.0) * cont] *)
Definition unflatten_on_loggrid (flat_tpl cont : list Q) : py_result (list Q) :=
  np_broadcast Qmult (map (fun x => x + 1) flat_tpl) cont.

End ContinuumFit.

(** * Module ClusteringAssess: the assessments of [find_winning_cluster_top5_method]
    in src/snid_sage/snid/cosmological_clustering.py *)
Module ClusteringAssess.
Import Clustering.
Local Open Scope Q_scope.

(** A Python float that is either finite or [float('inf')]. *)
Inductive qinf := QFin (q : Q) | QInf.

(** [x >= t] for such a float, with [inf >= t] true. *)
Definition qinf_geb (r : qinf) (t : Q) : bool :=
  match r with QInf => true | QFin q => Qle_bool t q end.

(** The keys of the dictionary returned by [_calculate_cluster_confidence]
    that do not depend on string formatting or on [scipy.stats];
    [ca_relative_margin] and [ca_second_best_type] are [None] where the
    dictionary has no such key. *)
Record confidence_assessment := {
  ca_confidence_level : string;
  ca_margin_vs_second : qinf;
  ca_relative_margin : option qinf;
  ca_second_best_type : option string;
}.

(** [_calculate_cluster_confidence] *)
Definition calculate_cluster_confidence (cluster_scores : list cluster_score)
  : confidence_assessment :=
  match cluster_scores with
  | b :: s :: _ =>
      let best_score := b.(cs_penalized_score) in
      let second_best_score := s.(cs_penalized_score) in
      let margin := best_score - second_best_score in
      let relative_margin :=
        if Qltb 0 second_best_score then QFin (margin / second_best_score) else QInf in
      let confidence_level :=
        if qinf_geb relative_margin (3 # 10) then "high"%string
        else if qinf_geb relative_margin (15 # 100) then "medium"%string
        else if qinf_geb relative_margin (5 # 100) then "low"%string
        else "very_low"%string in
      {| ca_confidence_level := confidence_level;
         ca_margin_vs_second := QFin margin;
         ca_relative_margin := Some relative_margin;
         ca_second_best_type := Some s.(cs_cluster).(c_type) |}
  | _ =>
      {| ca_confidence_level := "high";
         ca_margin_vs_second := QInf;
         ca_relative_margin := None;
         ca_second_best_type := None |}
  end.

(** The keys of the dictionary returned by [_calculate_absolute_quality];
    [qa_penalty_note] says whether the [' [Penalty applied: ...]'] suffix is
    appended to the description. *)
Record quality_assessment := {
  qa_quality_category : string;
  qa_penalty_note : bool;
  qa_mean_top_5 : Q;
  qa_penalized_score : Q;
  qa_penalty_factor : Q;
  qa_cluster_size : nat;
}.

(** [_calculate_absolute_quality] *)
Definition calculate_absolute_quality (winning_cluster_info : cluster_score)
  : quality_assessment :=
  let penalized_score := winning_cluster_info.(cs_penalized_score) in
  let quality_category :=
    if Qle_bool 10 penalized_score then "high"%string
    else if Qle_bool 5 penalized_score then "medium"%string
    else "low"%string in
  {| qa_quality_category := quality_category;
     qa_penalty_note := Qltb winning_cluster_info.(cs_penalty_factor) 1;
     qa_mean_top_5 := winning_cluster_info.(cs_top_5_mean);
     qa_penalized_score := penalized_score;
     qa_penalty_factor := winning_cluster_info.(cs_penalty_factor);
     qa_cluster_size := winning_cluster_info.(cs_size) |}.

(** The tail of [find_winning_cluster_top5_method]: the winner with the
    confidence assessment of the sorted scores and the quality assessment of
    [cluster_scores[0]]. *)
Definition find_winning_with_assessment (use_rlap_cos : bool) (cands : list candidate)
  : option (candidate * confidence_assessment * quality_assessment) :=
  match find_winning_cluster_top5_method use_rlap_cos cands with
  | Some (w, (wi :: _) as scores) =>
      Some (w, calculate_cluster_confidence scores, calculate_absolute_quality wi)
  | _ => None
  end.

Definition subtype_matches : list tmatch :=
  [match_with "Ia-norm" 0 10; match_with "Ia-91T" (1 # 100) 5; match_with "Ia-norm" (2 # 100) 8].

End ClusteringAssess.

(** * Module Visualization3D: [create_3d_visualization_data] in
    src/snid_sage/snid/cosmological_clustering.py, the [all_candidates]
    branch *)
Module Visualization3D.
Import Clustering.
Local Open Scope Q_scope.

(** [type_to_index[sn_type]] on the insertion-ordered dictionary. *)
Fixpoint lookup_index (t : string) (type_to_index : list (string * nat)) : option nat :=
  match type_to_index with
  | [] => None
  | (k, i) :: rest => if String.eqb t k then Some i else lookup_index t rest
  end.

(** The returned dictionary, arrays as lists. *)
Record viz_data := {
  v_redshifts : list Q;
  v_rlaps : list Q;
  v_types : list string;
  v_type_indices : list nat;
  v_cluster_ids : list nat;
  v_type_mapping : list (string * nat);
  v_matches : list tmatch;
}.

Definition viz_empty : viz_data :=
  {| v_redshifts := []; v_rlaps := []; v_types := []; v_type_indices := [];
     v_cluster_ids := []; v_type_mapping := []; v_matches := [] |}.

(** One iteration of [for candidate in clustering_results.get('all_candidates', [])]:
    register the type, then append one entry per match to every list. *)
Definition viz_step (st : viz_data * nat) (candidate : candidate) : viz_data * nat :=
  let '(v, current_type_index) := st in
  let sn_type := candidate.(c_type) in
  let '(type_to_index, current_type_index') :=
    match lookup_index sn_type v.(v_type_mapping) with
    | Some _ => (v.(v_type_mapping), current_type_index)
    | None => (v.(v_type_mapping) ++ [(sn_type, current_type_index)], S current_type_index)
    end in
  let type_index := match lookup_index sn_type type_to_index with Some i => i | None => 0%nat end in
  let cluster_id := candidate.(c_cluster_id) in
  let ms := candidate.(c_matches) in
  ({| v_redshifts := v.(v_redshifts) ++ map m_redshift ms;
      v_rlaps := v.(v_rlaps) ++ map get_best_metric_value ms;
      v_types := v.(v_types) ++ map (fun _ => sn_type) ms;
      v_type_indices := v.(v_type_indices) ++ map (fun _ => type_index) ms;
      v_cluster_ids := v.(v_cluster_ids) ++ map (fun _ => cluster_id) ms;
      v_type_mapping := type_to_index;
      v_matches := v.(v_matches) ++ ms |},
   current_type_index').

Definition create_3d_visualization_data (all_candidates : list candidate) : viz_data :=
  fst (fold_left viz_step all_candidates (viz_empty, 0%nat)).

(** [list(dict.fromkeys(l))]: the distinct elements of [l] in first-seen
    order. *)
Fixpoint dedup_first (l : list string) : list string :=
  match l with
  | [] => []
  | x :: xs => x :: filter (fun y => negb (String.eqb y x)) (dedup_first xs)
  end.

(** The invariant of the loop of [create_3d_visualization_data] after the
    candidates [done_]. *)
Definition viz_inv (done_ : list candidate) (st : viz_data * nat) : Prop :=
  let '(v, cur) := st in
  v.(v_matches) = flat_map c_matches done_ /\
  v.(v_redshifts) = map m_redshift v.(v_matches) /\
  v.(v_rlaps) = map get_best_metric_value v.(v_matches) /\
  v.(v_types) = flat_map (fun c => map (fun _ => c.(c_type)) c.(c_matches)) done_ /\
  v.(v_cluster_ids) = flat_map (fun c => map (fun _ => c.(c_cluster_id)) c.(c_matches)) done_ /\
  NoDup (map fst v.(v_type_mapping)) /\
  map snd v.(v_type_mapping) = seq 0 (length v.(v_type_mapping)) /\
  cur = length v.(v_type_mapping) /\
  Forall2 (fun t i => lookup_index t v.(v_type_mapping) = Some i) v.(v_types) v.(v_type_indices) /\
  (forall t, In t (map fst v.(v_type_mapping)) <-> In t (map c_type done_)) /\
  map fst v.(v_type_mapping) = dedup_first (map c_type done_).

End Visualization3D.

(** * Proofs *)

Module ClusteringFacts.
Import Clustering.
Local Open Scope Q_scope.

Lemma Qltb_true a b : Qltb a b = true -> a < b.
Proof.
  unfold Qltb. intro H. apply negb_true_iff in H.
  apply Qnot_le_lt. intro Hle. apply Qle_bool_iff in Hle. congruence.
Qed.

Lemma Qltb_false a b : Qltb a b = false -> b <= a.
Proof.
  unfold Qltb. intro H. apply negb_false_iff in H. now apply Qle_bool_iff.
Qed.

Lemma insert_desc_length {A} (key : A -> Q) x l :
  length (insert_desc key x l) = S (length l).
Proof.
  induction l as [|y ys IH]; simpl; [reflexivity|].
  destruct (Qltb (key x) (key y)); simpl; [now rewrite IH | reflexivity].
Qed.

Lemma sort_desc_length {A} (key : A -> Q) l : length (sort_desc key l) = length l.
Proof.
  induction l as [|x xs IH]; simpl; [reflexivity|].
  now rewrite insert_desc_length, IH.
Qed.

Lemma in_insert_desc {A} (key : A -> Q) x l c :
  In c (insert_desc key x l) <-> x = c \/ In c l.
Proof.
  induction l as [|y ys IH]; simpl; [tauto|].
  destruct (Qltb (key x) (key y)); simpl; rewrite ?IH; tauto.
Qed.

Lemma in_sort_desc {A} (key : A -> Q) l c : In c (sort_desc key l) <-> In c l.
Proof.
  induction l as [|x xs IH]; simpl; [tauto|].
  rewrite in_insert_desc, IH. tauto.
Qed.

(** The head of the stable descending sort is the first element of maximal key. *)
Lemma sort_desc_head {A} (key : A -> Q) l w rest :
  sort_desc key l = w :: rest ->
  exists pre post, l = pre ++ w :: post /\
    (forall c, In c l -> key c <= key w) /\
    (forall c, In c pre -> key c < key w).
Proof.
  revert w rest. induction l as [|x xs IH]; intros w rest H; simpl in H; [discriminate|].
  destruct (sort_desc key xs) as [|y ys] eqn:Hs.
  - simpl in H. injection H as <- <-.
    assert (xs = []) as ->.
    { destruct xs; [reflexivity|].
      pose proof (sort_desc_length key (a :: xs)) as Hl. rewrite Hs in Hl. discriminate. }
    exists [], []. split; [reflexivity|]. split.
    + intros c [<-|[]]. apply Qle_refl.
    + intros c [].
  - destruct (IH y ys eq_refl) as [pre [post [Hxs [Hmax Hpre]]]].
    simpl in H. destruct (Qltb (key x) (key y)) eqn:Hc; injection H as <- <-.
    + apply Qltb_true in Hc.
      exists (x :: pre), post. split; [now rewrite Hxs|]. split.
      * intros c [<-|Hin]; [now apply Qlt_le_weak | now apply Hmax].
      * intros c [<-|Hin]; [exact Hc | now apply Hpre].
    + apply Qltb_false in Hc.
      exists [], xs. split; [reflexivity|]. split.
      * intros c [<-|Hin]; [apply Qle_refl|].
        apply Qle_trans with (key y); [now apply Hmax | exact Hc].
      * intros c [].
Qed.

Lemma cluster_scores_in use cands s :
  In s (cluster_scores use cands) ->
  exists c, In c cands /\ score_cluster use c = Some s.
Proof.
  induction cands as [|c cs IH]; simpl; [tauto|].
  destruct (score_cluster use c) as [s'|] eqn:Hsc.
  - intros [<-|Hin]; [now exists c; split; [left|]|].
    destruct (IH Hin) as [c' [Hc' Hs']]. exists c'. split; [right|]; assumption.
  - intro Hin. destruct (IH Hin) as [c' [Hc' Hs']]. exists c'. split; [right|]; assumption.
Qed.

Lemma score_cluster_some use c s :
  score_cluster use c = Some s -> s.(cs_cluster) = c.
Proof.
  unfold score_cluster. destruct (c_matches c); [discriminate|].
  intro H. injection H as <-. reflexivity.
Qed.

Lemma cluster_scores_nonempty use cands :
  (exists c, In c cands /\ c.(c_matches) <> []) -> cluster_scores use cands <> [].
Proof.
  intros [c [Hin Hm]]. induction cands as [|c' cs IH]; [destruct Hin|].
  simpl. destruct (score_cluster use c') eqn:Hsc; [discriminate|].
  destruct Hin as [Heq|Hin]; [subst c'|now apply IH].
  unfold score_cluster in Hsc. destruct (c_matches c); [contradiction|discriminate].
Qed.

Lemma find_winning_cluster_sorted use cands w scores :
  find_winning_cluster_top5_method use cands = Some (w, scores) ->
  exists ws rest, sort_desc cs_penalized_score (cluster_scores use cands) = ws :: rest /\
    scores = ws :: rest /\ ws.(cs_cluster) = w.
Proof.
  unfold find_winning_cluster_top5_method. destruct cands as [|c cs]; [discriminate|].
  destruct (sort_desc cs_penalized_score (cluster_scores use (c :: cs))) as [|ws rest];
    [discriminate|].
  intro H. injection H as <- <-. now exists ws, rest.
Qed.

Lemma firstn_5_nonempty {A} (l : list A) : l <> [] -> firstn 5 l <> [].
Proof. destruct l; [contradiction|discriminate]. Qed.

Lemma score_cluster_rule use c s :
  score_cluster use c = Some s -> spec_top5_rule use s.
Proof.
  unfold score_cluster. destruct (c_matches c) as [|m ms] eqn:Hm; [discriminate|].
  intro H. injection H as <-. unfold score_matches.
  remember (sort_desc (fun q => q) (map (metric_value use) (m :: ms))) as vals eqn:Hv.
  assert (Hlen : length vals = length (m :: ms))
    by (rewrite Hv; now rewrite sort_desc_length, length_map).
  assert (Hne : firstn 5 vals <> []).
  { apply firstn_5_nonempty. intro He. rewrite He in Hlen. discriminate. }
  unfold spec_top5_rule; cbn [cs_cluster cs_size cs_top_5_values
    cs_top_5_mean cs_penalty_factor cs_penalized_score].
  rewrite Hm, <- Hv.
  split; [reflexivity|]. split; [reflexivity|]. split.
  { destruct (firstn 5 vals); [contradiction|reflexivity]. }
  rewrite Hlen. unfold penalty_factor.
  split; [|split].
  - intro H5. destruct (Nat.ltb_spec (length (m :: ms)) 5); [lia|reflexivity].
  - intro H5. destruct (Nat.ltb_spec (length (m :: ms)) 5); [reflexivity|lia].
  - reflexivity.
Qed.

(** ** Grouping by subtype *)

Lemma group_add_keys st v g :
  map fst (group_add st v g) =
  if in_dec string_dec st (map fst g) then map fst g else map fst g ++ [st].
Proof.
  induction g as [|[s0 vs0] g IH]; [reflexivity|].
  cbn [group_add map fst].
  destruct (String.eqb_spec st s0) as [Heq|Hne].
  - subst st. cbn [map fst].
    destruct (in_dec string_dec s0 (s0 :: map fst g)) as [_|Hn]; [reflexivity|].
    exfalso. apply Hn. left. reflexivity.
  - cbn [map fst]. rewrite IH.
    destruct (in_dec string_dec st (map fst g)) as [Hi|Hi];
      destruct (in_dec string_dec st (s0 :: map fst g)) as [Hi'|Hi']; try reflexivity.
    + exfalso. apply Hi'. right. exact Hi.
    + exfalso. destruct Hi' as [Hi'|Hi']; [congruence|contradiction].
Qed.

Lemma in_group_add st v g s' vs' :
  NoDup (map fst g) -> In (s', vs') (group_add st v g) ->
  (s' = st /\ ((vs' = [v] /\ ~ In st (map fst g)) \/
               exists vs, In (st, vs) g /\ vs' = vs ++ [v])) \/
  (s' <> st /\ In (s', vs') g).
Proof.
  induction g as [|[s0 vs0] g IH]; simpl; intros Hnd Hin.
  - destruct Hin as [Heq|[]]. injection Heq as Hs Hv. subst. left. split; [reflexivity|].
    left. split; [reflexivity|tauto].
  - inversion Hnd as [|? ? Hnotin Hnd']; subst.
    destruct (String.eqb_spec st s0) as [->|Hne].
    + destruct Hin as [Heq|Hin].
      * injection Heq as Hs Hv. subst. left. split; [reflexivity|].
        right. exists vs0. split; [left; reflexivity|reflexivity].
      * right. split; [|right; exact Hin].
        intros ->. apply Hnotin. apply (in_map fst) in Hin. exact Hin.
    + destruct Hin as [Heq|Hin].
      * injection Heq as Hs Hv. subst. right. split; [congruence|left; reflexivity].
      * destruct (IH Hnd' Hin) as [[Hs [[Hv Hn]|[vs [Hvs Hv]]]]|[Hs Hg]].
        -- left. split; [exact Hs|]. left. split; [exact Hv|]. intros [H|H]; congruence.
        -- left. split; [exact Hs|]. right. exists vs. split; [right|]; assumption.
        -- right. split; [exact Hs|right; exact Hg].
Qed.

Lemma vals_of_app st members s v :
  vals_of st (members ++ [(s, v)]) = vals_of st members ++ (if String.eqb s st then [v] else []).
Proof.
  unfold vals_of. rewrite filter_app, map_app. simpl.
  destruct (String.eqb s st); reflexivity.
Qed.

(** The invariant of the grouping loop after the members [done_]. *)
Definition groups_inv (g : list (string * list Q)) (done_ : list (string * Q)) : Prop :=
  NoDup (map fst g) /\
  (forall s vs, In (s, vs) g -> vs = vals_of s done_ /\ vs <> []) /\
  (forall s, vals_of s done_ <> [] -> In s (map fst g)).

Lemma groups_inv_step g done_ st v :
  groups_inv g done_ -> groups_inv (group_add st v g) (done_ ++ [(st, v)]).
Proof.
  intros [Hnd [Hvals Hkeys]]. split; [|split].
  - rewrite group_add_keys. destruct (in_dec string_dec st (map fst g)) as [Hin|Hnin];
      [exact Hnd|].
    apply NoDup_app; [exact Hnd|constructor; [tauto|constructor]|].
    intros a Ha [<-|[]]. contradiction.
  - intros s vs Hin. rewrite vals_of_app.
    destruct (in_group_add _ _ _ _ _ Hnd Hin) as [[-> [[-> Hn]|[vs0 [Hvs0 ->]]]]|[Hs Hg]].
    + rewrite String.eqb_refl.
      assert (Hnil : vals_of st done_ = []).
      { destruct (vals_of st done_) eqn:E; [reflexivity|].
        exfalso. apply Hn, Hkeys. rewrite E. discriminate. }
      rewrite Hnil. split; [reflexivity|discriminate].
    + rewrite String.eqb_refl. destruct (Hvals _ _ Hvs0) as [-> _].
      split; [reflexivity|]. intro H. apply app_eq_nil in H as [_ H]. discriminate.
    + destruct (String.eqb_spec st s) as [->|_]; [contradiction|].
      rewrite app_nil_r. now apply Hvals.
  - intros s Hs. rewrite group_add_keys.
    rewrite vals_of_app in Hs.
    destruct (String.eqb_spec st s) as [->|Hne].
    + destruct (in_dec string_dec s (map fst g)); [assumption|].
      apply in_or_app. right. left. reflexivity.
    + rewrite app_nil_r in Hs. pose proof (Hkeys s Hs) as Hk.
      destruct (in_dec string_dec st (map fst g)); [assumption|].
      apply in_or_app. left. exact Hk.
Qed.

Lemma groups_inv_fold members g done_ :
  groups_inv g done_ ->
  groups_inv (fold_left (fun g sv => group_add (fst sv) (snd sv) g) members g) (done_ ++ members).
Proof.
  revert g done_. induction members as [|[st v] ms IH]; intros g done_ Hinv; simpl.
  - now rewrite app_nil_r.
  - replace (done_ ++ (st, v) :: ms) with ((done_ ++ [(st, v)]) ++ ms)
      by (now rewrite <- app_assoc).
    apply IH. now apply groups_inv_step.
Qed.

Lemma group_by_subtype_vals members st vs :
  In (st, vs) (group_by_subtype members) -> vs = vals_of st members /\ vs <> [].
Proof.
  intro Hin.
  assert (Hinv : groups_inv (group_by_subtype members) ([] ++ members)).
  { apply groups_inv_fold. split; [constructor|]. split; [intros s vs' []|].
    intros s H. exfalso. apply H. reflexivity. }
  destruct Hinv as [_ [Hvals _]]. exact (Hvals _ _ Hin).
Qed.

Lemma Qle_bool_compat_r x y y' : y == y' -> Qle_bool x y = Qle_bool x y'.
Proof.
  intro Hy. destruct (Qle_bool x y) eqn:E1, (Qle_bool x y') eqn:E2; try reflexivity.
  - apply Qle_bool_iff in E1. rewrite Hy in E1. apply Qle_bool_iff in E1. congruence.
  - apply Qle_bool_iff in E2. rewrite <- Hy in E2. apply Qle_bool_iff in E2. congruence.
Qed.

(** The GMM path classifies a span exactly as the spec's four-way rule. *)
Lemma redshift_quality_gmm_spec span q :
  redshift_quality_gmm span q = spec_redshift_quality span q.
Proof.
  unfold redshift_quality_gmm, spec_redshift_quality.
  rewrite (Qle_bool_compat_r span (q * 2) (2 * q)) by apply Qmult_comm.
  rewrite (Qle_bool_compat_r span (q * 4) (4 * q)) by apply Qmult_comm.
  reflexivity.
Qed.

Lemma direct_gmm_clusters_quality type_matches q n labels c :
  In c (direct_gmm_clusters type_matches q n labels) ->
  c.(ci_redshift_quality) = spec_redshift_quality c.(ci_redshift_span) q.
Proof.
  unfold direct_gmm_clusters. intro Hin. apply in_flat_map in Hin as [k [_ Hin]].
  destruct (map fst _); [destruct Hin|].
  destruct Hin as [<-|[]]. apply redshift_quality_gmm_spec.
Qed.

End ClusteringFacts.

Module ClusteringClaims.
Import Clustering ClusteringFacts.
Local Open Scope Q_scope.

(** Claim C1 (amended): when at least one candidate has a match,
    [find_winning_cluster_top5_method] returns a best cluster that is one of
    the candidates, whose penalized_score is maximal among all scored
    candidates, and before which (in input order) every scored candidate has
    a strictly smaller penalized_score: ties go to the earliest candidate,
    not to the larger size or the type name. *)
Theorem find_winning_cluster_first_max : forall use_rlap_cos cands,
  (exists c, In c cands /\ c.(c_matches) <> []) ->
  exists w scores pre ws post,
    find_winning_cluster_top5_method use_rlap_cos cands = Some (w, scores) /\
    In w cands /\
    cluster_scores use_rlap_cos cands = pre ++ ws :: post /\ ws.(cs_cluster) = w /\
    (forall s, In s (cluster_scores use_rlap_cos cands) ->
       s.(cs_penalized_score) <= ws.(cs_penalized_score)) /\
    (forall s, In s pre -> s.(cs_penalized_score) < ws.(cs_penalized_score)).
Proof.
  intros use cands Hex.
  pose proof (cluster_scores_nonempty use cands Hex) as Hne.
  destruct (sort_desc cs_penalized_score (cluster_scores use cands)) as [|ws rest] eqn:Hs.
  - exfalso. apply Hne. apply length_zero_iff_nil.
    rewrite <- (sort_desc_length cs_penalized_score), Hs. reflexivity.
  - destruct (sort_desc_head _ _ _ _ Hs) as [pre [post [Hsplit [Hmax Hpre]]]].
    exists ws.(cs_cluster), (ws :: rest), pre, ws, post.
    split.
    { unfold find_winning_cluster_top5_method. destruct cands as [|c cs].
      - destruct Hex as [c [[] _]].
      - rewrite Hs. reflexivity. }
    split.
    { assert (Hin : In ws (cluster_scores use cands))
        by (rewrite Hsplit; apply in_or_app; right; left; reflexivity).
      destruct (cluster_scores_in _ _ _ Hin) as [c [Hc Hsc]].
      now rewrite (score_cluster_some _ _ _ Hsc). }
    repeat split; assumption.
Qed.

Lemma find_winning_cluster_first_max_witness :
  exists w scores pre ws post,
    find_winning_cluster_top5_method true [cand_b; cand_a] = Some (w, scores) /\
    In w [cand_b; cand_a] /\
    cluster_scores true [cand_b; cand_a] = pre ++ ws :: post /\ ws.(cs_cluster) = w /\
    (forall s, In s (cluster_scores true [cand_b; cand_a]) ->
       s.(cs_penalized_score) <= ws.(cs_penalized_score)) /\
    (forall s, In s pre -> s.(cs_penalized_score) < ws.(cs_penalized_score)).
Proof.
  apply (find_winning_cluster_first_max true [cand_b; cand_a]).
  exists cand_b. split; [left; reflexivity | simpl; discriminate].
Defined.

Ltac refute_disjunction H :=
  let Hs := fresh "Hs" in
  destruct H as [H | [_ [H | [Hs H]]]];
  [ vm_compute in H; discriminate
  | vm_compute in H; lia
  | first [ vm_compute in Hs; discriminate Hs | apply H; vm_compute; reflexivity ] ].

Ltac refute_other Hall :=
  first
    [ let H := fresh "H" in
      pose proof (Hall _ (or_introl eq_refl)) as H; refute_disjunction H
    | let H := fresh "H" in
      pose proof (Hall _ (or_intror (or_introl eq_refl))) as H; refute_disjunction H ].

Ltac refute_spec_best :=
  let ws := fresh "ws" in
  let Hin := fresh "Hin" in
  let Hw := fresh "Hw" in
  let Hall := fresh "Hall" in
  intros [ws [Hin [Hw Hall]]];
  cbn in Hin, Hall; destruct Hin as [Hin | [Hin | []]]; subst ws;
  [ first [ vm_compute in Hw; discriminate Hw | refute_other Hall ]
  | first [ vm_compute in Hw; discriminate Hw | refute_other Hall ] ].

(** Claim C1 (counterexample): ties are not broken by size or by type name.
    Two one-match clusters of equal score: the one listed first wins,
    "b" before "a" and "a" before "b", so no lexical order of the type name
    decides; a 4-member cluster of values 100 and a 5-member cluster of
    values 95 both score 95, and the smaller, listed first, wins. *)
Lemma find_winning_cluster_tie_break_counterexample :
  (exists scs, find_winning_cluster_top5_method true [cand_b; cand_a] = Some (cand_b, scs) /\
     ~ spec_best_cluster true cand_b (cluster_scores true [cand_b; cand_a])) /\
  (exists scs, find_winning_cluster_top5_method true [cand_a; cand_b] = Some (cand_a, scs) /\
     ~ spec_best_cluster false cand_a (cluster_scores true [cand_a; cand_b])) /\
  (exists scs,
     find_winning_cluster_top5_method true [cand_small; cand_large] = Some (cand_small, scs) /\
     ~ spec_best_cluster true cand_small (cluster_scores true [cand_small; cand_large]) /\
     ~ spec_best_cluster false cand_small (cluster_scores true [cand_small; cand_large])).
Proof.
  split; [|split].
  - eexists. split; [reflexivity|]. refute_spec_best.
  - eexists. split; [reflexivity|]. refute_spec_best.
  - eexists. split; [reflexivity|]. split; refute_spec_best.
Qed.

(** Claim C6: every cluster scored by [find_winning_cluster_top5_method]
    has penalized_score = mean_top_5 * penalty_factor, where mean_top_5 is
    the mean of the (up to) five highest metric values, and penalty_factor
    is 1 for 5 or more members (so 1 for exactly 5) and 0.95^(5 - size)
    for fewer. *)
Theorem find_winning_cluster_penalty_factor : forall use_rlap_cos cands w scores,
  find_winning_cluster_top5_method use_rlap_cos cands = Some (w, scores) ->
  forall s, In s scores -> spec_top5_rule use_rlap_cos s.
Proof.
  intros use cands w scores H s Hin.
  destruct (find_winning_cluster_sorted _ _ _ _ H) as [ws [rest [Hs [-> _]]]].
  rewrite <- Hs, in_sort_desc in Hin.
  destruct (cluster_scores_in _ _ _ Hin) as [c [_ Hsc]].
  exact (score_cluster_rule _ _ _ Hsc).
Qed.

Lemma find_winning_cluster_penalty_factor_witness :
  exists scores,
    find_winning_cluster_top5_method true [cand_small; cand_large] = Some (cand_small, scores) /\
    forall s, In s scores -> spec_top5_rule true s.
Proof.
  eexists. split; [reflexivity|].
  apply (find_winning_cluster_penalty_factor true [cand_small; cand_large] cand_small).
  reflexivity.
Defined.

(** Claim C2 (counterexample): the subtype score is not the cluster-level
    top-5 rule.  A single member of subtype "norm" with metric 10 scores
    10 * 1/5 = 2 in [choose_subtype_weighted_voting], while the cluster
    rule gives 10 * 0.95^4. *)
Lemma subtype_score_penalty_counterexample :
  collect_members [[1]] 0 (1 # 10) 0 one_norm_match = Some [("norm"%string, 10)] /\
  exists v, subtype_scores (group_by_subtype [("norm"%string, 10)]) = [("norm"%string, v)] /\
    v == 2 /\ ~ (v == 10 * penalty_factor 1).
Proof.
  split; [reflexivity|].
  eexists. split; [reflexivity|]. split.
  - vm_compute. reflexivity.
  - vm_compute. discriminate.
Qed.

(** Claim C2 (amended): in [choose_subtype_weighted_voting] the score of
    each subtype is the mean of its (up to) five highest metric values,
    taken over exactly the collected members of that subtype, multiplied by
    min(5, size) / 5 (1 for five or more members, 0.8 for four, ...). *)
Theorem subtype_score_len_over_5 : forall gamma k_star resp_cut matches members,
  collect_members gamma k_star resp_cut 0 matches = Some members ->
  forall st v, In (st, v) (subtype_scores (group_by_subtype members)) ->
    vals_of st members <> [] /\
    v = Qmean (firstn 5 (sort_desc (fun q => q) (vals_of st members))) *
        (inject_Z (Z.of_nat (Nat.min 5 (length (vals_of st members)))) / 5).
Proof.
  intros gamma k_star resp_cut matches members _ st v Hin.
  unfold subtype_scores in Hin. apply in_map_iff in Hin as [[st' vs] [Heq Hin]].
  cbn in Heq. injection Heq as -> <-.
  destruct (group_by_subtype_vals _ _ _ Hin) as [-> Hne].
  split; [exact Hne|].
  unfold subtype_score, Qmean, Qlen.
  rewrite length_firstn, sort_desc_length. reflexivity.
Qed.

Lemma subtype_score_len_over_5_witness :
  vals_of "norm" [("norm"%string, 10)] <> [] /\
  subtype_score [10] =
    Qmean (firstn 5 (sort_desc (fun q => q) (vals_of "norm" [("norm"%string, 10)]))) *
    (inject_Z (Z.of_nat (Nat.min 5 (length (vals_of "norm" [("norm"%string, 10)])))) / 5).
Proof.
  apply (subtype_score_len_over_5 [[1]] 0 (1 # 10) one_norm_match).
  - reflexivity.
  - left. reflexivity.
Defined.

(** Claim C3 (code defect): the single-cluster fallback of
    [_perform_direct_gmm_clustering] ([_create_single_cluster_result]) has
    no 'very_loose' class.  Two matches at z = 0 and z = 0.1 with
    [max_clusters = 1] and q = 0.02 give one cluster of span 0.1 > 4q
    labelled 'loose'; the four-way rule (which the GMM path implements,
    [redshift_quality_gmm_spec]) says 'very_loose'. *)
Theorem single_cluster_quality_counterexample :
  map ci_redshift_quality
      (perform_direct_gmm_clustering_type [zmatch 0; zmatch (1 # 10)] 1 (1 # 50) (1%nat, [0; 0]%nat))
    = ["loose"%string] /\
  map ci_cluster_method
      (perform_direct_gmm_clustering_type [zmatch 0; zmatch (1 # 10)] 1 (1 # 50) (1%nat, [0; 0]%nat))
    = ["single_cluster"%string] /\
  map ci_redshift_span
      (perform_direct_gmm_clustering_type [zmatch 0; zmatch (1 # 10)] 1 (1 # 50) (1%nat, [0; 0]%nat))
    = [1 # 10] /\
  spec_redshift_quality (1 # 10) (1 # 50) = "very_loose"%string.
Proof. vm_compute. repeat split. Qed.

End ClusteringClaims.

Module SavgolFacts.
Import Savgol.

Section Generic.
Context {F : Type} `{PyFloat F}.

(** With the window equal to the data length and the order clamped below
    it, scipy's argument checks pass. *)
Lemma savgol_filter_full (data : list F) polyorder :
  (3 <= length data)%nat ->
  savgol_filter data (length data) (Nat.min polyorder (length data - 1))
  = Ok (savgol_core data (length data) (Nat.min polyorder (length data - 1))).
Proof.
  intro Hn. unfold savgol_filter.
  replace (Nat.leb (length data) (Nat.min polyorder (length data - 1))) with false
    by (symmetry; apply Nat.leb_gt; lia).
  rewrite Nat.ltb_irrefl. reflexivity.
Qed.

Lemma savgol_filter_fixed_length (data : list F) window_length polyorder :
  length (savgol_filter_fixed data window_length polyorder) = length data.
Proof.
  unfold savgol_filter_fixed. cbv zeta.
  destruct (Nat.ltb window_length 3); [reflexivity|].
  destruct (Nat.ltb _ 3); [reflexivity|].
  unfold savgol_filter.
  destruct (Nat.leb _ _); [reflexivity|].
  destruct (Nat.ltb _ _); [reflexivity|].
  unfold savgol_core. rewrite length_map, length_seq. reflexivity.
Qed.

End Generic.

End SavgolFacts.

Module SavgolClaims.
Import Savgol SavgolFacts.
Local Open Scope Q_scope.

(** Claim C4 (counterexample): a window longer than the data is not a
    no-op.  The five-sample spike [0,0,1,0,0] with the default window 11
    is smoothed with the window clamped to 5: the centre becomes 17/35,
    both through [savgol_filter_fixed] and through
    [savgol_filter_wavelength] with 1 A spacing and FWHM 100 A (a window of
    85 pixels; the mean spacing 1.0 is exact in float64 too). *)
Lemma savgol_window_noop_counterexample :
  (length spike < 11)%nat /\
  ~ (nth 2 (savgol_filter_fixed spike 11 3) 0 == nth 2 spike 0) /\
  wavelength_window exact_int_window wave5 100 = Ok 85%Z /\
  (Z.of_nat (length spike) < 85)%Z /\
  (exists r, savgol_filter_wavelength exact_int_window wave5 spike 100 3 = Ok r /\
             ~ (nth 2 r 0 == nth 2 spike 0)).
Proof.
  split; [cbn; lia|].
  split; [vm_compute; discriminate|].
  split; [vm_compute; reflexivity|].
  split; [cbn; lia|].
  eexists. split; [vm_compute; reflexivity|].
  vm_compute. discriminate.
Qed.

(** Claim C4 (amended): when the requested window exceeds the data length,
    the window is clamped to the data length and the polynomial order to
    [min(polyorder, length - 1)]: the result is the input itself when the
    data has fewer than 3 samples, and otherwise the least-squares
    polynomial fit of that order over the whole array, evaluated at every
    sample ([clamped_result]).  This holds for [savgol_filter_fixed] and,
    for same-shaped arrays, a positive FWHM and a computed window longer
    than the data, for [savgol_filter_wavelength], whatever the float64
    window computation. *)
Theorem savgol_window_clamped :
  (forall (data : list Q) window_length polyorder,
     (length data < window_length)%nat ->
     savgol_filter_fixed data window_length polyorder = clamped_result data polyorder) /\
  (forall int_window (wave data : list Q) fwhm_angstrom polyorder w,
     length wave = length data -> 0 < fwhm_angstrom ->
     wavelength_window int_window wave fwhm_angstrom = Ok w ->
     (Z.of_nat (length data) < w)%Z ->
     savgol_filter_wavelength int_window wave data fwhm_angstrom polyorder
     = Ok (clamped_result data polyorder)).
Proof.
  split.
  - intros data window_length polyorder Hlt.
    unfold savgol_filter_fixed, clamped_result. cbv zeta.
    destruct (Nat.ltb_spec window_length 3) as [H3|H3].
    + destruct (Nat.ltb_spec (length data) 3); [reflexivity|lia].
    + rewrite (Nat.min_r (if Nat.even window_length then S window_length else window_length))
        by (destruct (Nat.even window_length); lia).
      destruct (Nat.ltb_spec (length data) 3) as [Hn|Hn]; [reflexivity|].
      rewrite savgol_filter_full by exact Hn. reflexivity.
  - intros int_window wave data fwhm_angstrom polyorder w Hlen Hf Hw Hlt.
    unfold savgol_filter_wavelength, clamped_result.
    rewrite Hlen, Nat.eqb_refl. cbn [negb].
    change (fleb fwhm_angstrom f0) with (Qle_bool fwhm_angstrom 0).
    destruct (Qle_bool fwhm_angstrom 0) eqn:E.
    { apply Qle_bool_iff in E. exfalso. apply (Qlt_not_le _ _ Hf E). }
    rewrite Hw. cbn [py_bind].
    rewrite Z.min_r by lia.
    destruct (Z.ltb_spec (Z.of_nat (length data)) 3) as [Hn|Hn].
    + replace (Nat.ltb (length data) 3%nat) with true by (symmetry; apply Nat.ltb_lt; lia).
      reflexivity.
    + replace (Nat.ltb (length data) 3%nat) with false by (symmetry; apply Nat.ltb_ge; lia).
      rewrite Nat2Z.id, savgol_filter_full by lia. reflexivity.
Qed.

(** On the spike the clamped fit is applied; on the four samples
    [1,2,5,3] with order 3 the clamped fit is a cubic through four points
    and gives the samples back. *)
Lemma savgol_window_clamped_witness :
  savgol_filter_fixed spike 11 3 = clamped_result spike 3%nat /\
  savgol_filter_wavelength exact_int_window wave5 spike 100 3 = Ok (clamped_result spike 3%nat) /\
  savgol_filter_fixed [1; 2; 5; 3] 11 3 = clamped_result [1; 2; 5; 3] 3%nat /\
  Forall2 Qeq (clamped_result [1; 2; 5; 3] 3%nat) [1; 2; 5; 3].
Proof.
  split; [|split; [|split]].
  - apply (proj1 savgol_window_clamped). cbn. lia.
  - apply ((proj2 savgol_window_clamped) exact_int_window wave5 spike 100 3%nat 85%Z).
    + reflexivity.
    + vm_compute. reflexivity.
    + vm_compute. reflexivity.
    + cbn. lia.
  - apply (proj1 savgol_window_clamped). cbn. lia.
  - vm_compute. repeat constructor.
Defined.

End SavgolClaims.

Module ApodizeClaims.
Import Apodize.
Local Open Scope R_scope.

(** Claim C8: with [percent = 0] [apodize] returns its input unchanged, for
    every array and every pair of edges (valid or not); hence a
    [tapered_flux] built with [apodize_percent = 0] equals [flat_flux]
    elementwise. *)
Theorem apodize_percent_zero_identity :
  (forall arr n1 n2, apodize arr n1 n2 (Some 0) = arr) /\
  (forall flat_flux left_edge right_edge,
     forall i, nth i (tapered_flux_of flat_flux left_edge right_edge 0) 0 = nth i flat_flux 0).
Proof.
  assert (Hid : forall arr n1 n2, apodize arr n1 n2 (Some 0) = arr).
  { intros arr n1 n2. unfold apodize.
    destruct (negb _); [reflexivity|].
    destruct (Rle_dec 0 0) as [_|Hn]; [reflexivity|].
    exfalso. apply Hn. apply Rle_refl. }
  split; [exact Hid|].
  intros flat_flux left_edge right_edge i. unfold tapered_flux_of. rewrite Hid. reflexivity.
Qed.

End ApodizeClaims.

Module LogRebinFacts.
Import LogRebin.
Local Open Scope R_scope.

Lemma s_edges_length wave : length (s_edges wave) = S (length wave).
Proof. unfold s_edges. rewrite length_map, length_seq. reflexivity. Qed.

Lemma s_edges_nth wave k :
  (k <= length wave)%nat ->
  nth k (s_edges wave) 0 =
    (if Nat.eqb k 0 then 3 / 2 * nth 0 wave 0 - 1 / 2 * nth 1 wave 0
     else if Nat.eqb k (length wave)
          then 3 / 2 * nth (length wave - 1) wave 0 - 1 / 2 * nth (length wave - 2) wave 0
          else 1 / 2 * (nth (k - 1) wave 0 + nth k wave 0)).
Proof.
  intro Hk. unfold s_edges.
  set (f := fun k : nat =>
         if Nat.eqb k 0 then 3 / 2 * nth 0 wave 0 - 1 / 2 * nth 1 wave 0
         else if Nat.eqb k (length wave)
              then 3 / 2 * nth (length wave - 1) wave 0 - 1 / 2 * nth (length wave - 2) wave 0
              else 1 / 2 * (nth (k - 1) wave 0 + nth k wave 0)).
  rewrite (nth_indep _ 0 (f 0%nat)) by (rewrite length_map, length_seq; lia).
  rewrite map_nth, seq_nth by lia. reflexivity.
Qed.

Lemma s_edges_first wave : nth 0 (s_edges wave) 0 = coverage_lo wave.
Proof. rewrite s_edges_nth by lia. reflexivity. Qed.

Lemma s_edges_last wave :
  (2 <= length wave)%nat -> nth (length wave) (s_edges wave) 0 = coverage_hi wave.
Proof.
  intro H2. rewrite s_edges_nth by lia.
  destruct (Nat.eqb_spec (length wave) 0); [lia|].
  rewrite Nat.eqb_refl. reflexivity.
Qed.

(** The pixel edges of a non-decreasing wavelength array are non-decreasing. *)
Lemma s_edges_step wave k :
  (2 <= length wave)%nat -> nondecreasing wave -> (k < length wave)%nat ->
  nth k (s_edges wave) 0 <= nth (S k) (s_edges wave) 0.
Proof.
  intros H2 Hmono Hk.
  rewrite (s_edges_nth wave k) by lia. rewrite (s_edges_nth wave (S k)) by lia.
  replace (Nat.eqb (S k) 0) with false by reflexivity.
  replace (Nat.eqb k (length wave)) with false by (symmetry; apply Nat.eqb_neq; lia).
  replace (S k - 1)%nat with k by lia.
  destruct (Nat.eqb_spec k 0) as [Hk0|Hk0];
    destruct (Nat.eqb_spec (S k) (length wave)) as [E|E].
  - lia.
  - subst k. pose proof (Hmono 0%nat ltac:(lia)). lra.
  - replace (length wave - 1)%nat with k by lia.
    replace (length wave - 2)%nat with (k - 1)%nat by lia.
    pose proof (Hmono (k - 1)%nat ltac:(lia)) as Hm.
    replace (S (k - 1)) with k in Hm by lia. lra.
  - pose proof (Hmono (k - 1)%nat ltac:(lia)) as Hm1.
    pose proof (Hmono k ltac:(lia)) as Hm2.
    replace (S (k - 1)) with k in Hm1 by lia. lra.
Qed.

Lemma s_edges_ge_first wave k :
  (2 <= length wave)%nat -> nondecreasing wave -> (k <= length wave)%nat ->
  coverage_lo wave <= nth k (s_edges wave) 0.
Proof.
  intros H2 Hmono. rewrite <- s_edges_first. induction k as [|k IH]; intro Hk.
  - apply Rle_refl.
  - eapply Rle_trans; [apply IH; lia|]. apply s_edges_step; auto; lia.
Qed.

Lemma s_edges_le_last wave k :
  (2 <= length wave)%nat -> nondecreasing wave -> (k <= length wave)%nat ->
  nth k (s_edges wave) 0 <= coverage_hi wave.
Proof.
  intros H2 Hmono Hk. rewrite <- (s_edges_last wave H2).
  remember (length wave - k)%nat as d eqn:Hd.
  revert k Hk Hd. induction d as [|d IH]; intros k Hk Hd.
  - replace k with (length wave) by lia. apply Rle_refl.
  - eapply Rle_trans; [apply s_edges_step; auto; lia|]. apply IH; lia.
Qed.

Lemma ln_le_mono x y : 0 < x -> x <= y -> ln x <= ln y.
Proof.
  intros Hx Hxy. destruct (Rle_lt_or_eq_dec _ _ Hxy) as [Hlt|<-].
  - left. apply ln_increasing; assumption.
  - apply Rle_refl.
Qed.

(** [slog] against the wavelength edges of the log bins. *)
Lemma slog_ge g x t :
  0 < W0 g -> 0 < DWLOG g -> W0 g * exp (t * DWLOG g) <= x -> t + 1 <= slog g x.
Proof.
  intros Hw Hd Hx. unfold slog.
  assert (Hr : exp (t * DWLOG g) <= x / W0 g).
  { apply (Rmult_le_reg_l (W0 g)); [exact Hw|].
    unfold Rdiv. rewrite <- Rmult_assoc, (Rmult_comm (W0 g) x), Rmult_assoc,
      Rinv_r, Rmult_1_r by lra. exact Hx. }
  apply ln_le_mono in Hr; [|apply exp_pos]. rewrite ln_exp in Hr.
  apply Rplus_le_compat_r.
  apply (Rmult_le_reg_r (DWLOG g)); [exact Hd|].
  unfold Rdiv. rewrite Rmult_assoc, Rinv_l, Rmult_1_r by lra. exact Hr.
Qed.

Lemma slog_le g x t :
  0 < W0 g -> 0 < DWLOG g -> 0 < x -> x <= W0 g * exp (t * DWLOG g) -> slog g x <= t + 1.
Proof.
  intros Hw Hd Hx0 Hx. unfold slog.
  assert (Hr : x / W0 g <= exp (t * DWLOG g)).
  { apply (Rmult_le_reg_l (W0 g)); [exact Hw|].
    unfold Rdiv. rewrite <- Rmult_assoc, (Rmult_comm (W0 g) x), Rmult_assoc,
      Rinv_r, Rmult_1_r by lra. exact Hx. }
  apply ln_le_mono in Hr; [|apply Rdiv_lt_0_compat; lra]. rewrite ln_exp in Hr.
  apply Rplus_le_compat_r.
  apply (Rmult_le_reg_r (DWLOG g)); [exact Hd|].
  unfold Rdiv. rewrite Rmult_assoc, Rinv_l, Rmult_1_r by lra. exact Hr.
Qed.

(** On a positive edge the floor of [slog] is computed without raising. *)
Lemma slog_floor_ok g x :
  0 < W0 g -> 0 < DWLOG g -> 0 < x -> slog_floor g x = Ok (Int_part (slog g x)).
Proof.
  intros Hw Hd Hx. unfold slog_floor.
  destruct (Req_EM_T (W0 g) 0) as [E|_]; [lra|].
  assert (Hr : 0 < x / W0 g) by (apply Rdiv_lt_0_compat; lra).
  destruct (Rlt_dec (x / W0 g) 0) as [E|_]; [lra|].
  destruct (Req_EM_T (x / W0 g) 0) as [E|_]; [lra|].
  destruct (Req_EM_T (DWLOG g) 0) as [E|_]; [lra|].
  reflexivity.
Qed.

(** Threading an invariant through a loop whose body may raise. *)
Lemma fold_py_inv {A B : Type} (P : B -> Prop) (f : py_result B -> A -> py_result B)
    (l : list A) (b : B) :
  (forall b' a, In a l -> P b' -> exists b'', f (Ok b') a = Ok b'' /\ P b'') ->
  P b -> exists b', fold_left f l (Ok b) = Ok b' /\ P b'.
Proof.
  revert b. induction l as [|a l IH]; intros b Hstep Hb.
  - exists b. split; [reflexivity|exact Hb].
  - destruct (Hstep b a (or_introl eq_refl) Hb) as [b'' [Hf Hb'']].
    cbn [fold_left]. rewrite Hf. apply IH; [|exact Hb''].
    intros b' a' Hin. apply Hstep. right. exact Hin.
Qed.

Lemma add_at_length l k v : length (add_at l k v) = length l.
Proof.
  revert k. induction l as [|x l IH]; intros [|k]; cbn; try rewrite IH; reflexivity.
Qed.

Lemma nth_add_at_other l k v j : j <> k -> nth j (add_at l k v) 0 = nth j l 0.
Proof.
  revert k j. induction l as [|x l IH]; intros [|k] [|j] Hjk; cbn; try reflexivity.
  - congruence.
  - apply IH. congruence.
Qed.

Lemma zrange_in a b i : In i (zrange a b) -> (a <= i <= b)%Z.
Proof.
  unfold zrange. intro Hin. apply in_map_iff in Hin as [k [<- Hk]].
  apply in_seq in Hk. lia.
Qed.

Lemma length_tl_R (l : list R) : length (tl l) = (length l - 1)%nat.
Proof. destruct l; cbn; lia. Qed.

Section Rebin.
Variables (g : grid) (wave fsrc : list R).
Hypothesis HW0 : 0 < W0 g.
Hypothesis HDW : 0 < DWLOG g.
Hypothesis Hlen2 : (2 <= length wave)%nat.
Hypothesis Hmono : nondecreasing wave.
Hypothesis Hlo : 0 < coverage_lo wave.
Hypothesis Hfsrc : length fsrc = length wave.

Lemma edge_pos k : (k <= length wave)%nat -> 0 < nth k (s_edges wave) 0.
Proof.
  intro Hk. pose proof (s_edges_ge_first wave k Hlen2 Hmono Hk). lra.
Qed.

(** A source pixel never overlaps a log bin outside the coverage. *)
Lemma alen_outside l j :
  (l < length wave)%nat -> bin_outside g wave j ->
  Rmin (slog g (nth (S l) (s_edges wave) 0)) (IZR (Z.of_nat j + 1) + 1)
  - Rmax (slog g (nth l (s_edges wave) 0)) (IZR (Z.of_nat j + 1)) <= 0.
Proof.
  intros Hl Hout.
  replace (IZR (Z.of_nat j + 1)) with (INR j + 1)
    by (rewrite plus_IZR, <- INR_IZR_INZ; reflexivity).
  destruct Hout as [HA|HB].
  - pose proof (s_edges_ge_first wave l Hlen2 Hmono ltac:(lia)) as Hs.
    pose proof (slog_ge g (nth l (s_edges wave) 0) (INR (S j)) HW0 HDW ltac:(lra)) as Hg.
    rewrite S_INR in Hg.
    pose proof (Rmin_r (slog g (nth (S l) (s_edges wave) 0)) (INR j + 1 + 1)).
    pose proof (Rmax_l (slog g (nth l (s_edges wave) 0)) (INR j + 1)).
    lra.
  - pose proof (s_edges_le_last wave (S l) Hlen2 Hmono ltac:(lia)) as Hs.
    pose proof (edge_pos (S l) ltac:(lia)) as Hp.
    pose proof (slog_le g (nth (S l) (s_edges wave) 0) (INR j) HW0 HDW Hp ltac:(lra)) as Hg.
    pose proof (Rmin_l (slog g (nth (S l) (s_edges wave) 0)) (INR j + 1 + 1)).
    pose proof (Rmax_r (slog g (nth l (s_edges wave) 0)) (INR j + 1)).
    lra.
Qed.

(** The accumulator invariant: [NW] bins, and zero on the bins outside the
    coverage. *)
Definition rebin_inv (fd : list R) : Prop :=
  length fd = NW g /\
  forall j, (j < NW g)%nat -> bin_outside g wave j -> nth j fd 0 = 0.

Lemma rebin_pixel_inv l fd :
  In l (seq 0 (length wave)) -> rebin_inv fd ->
  exists fd', rebin_pixel g (s_edges wave) fsrc (Ok fd) l = Ok fd' /\ rebin_inv fd'.
Proof.
  intros Hl Hinv. apply in_seq in Hl as [_ Hl]. cbn in Hl.
  unfold rebin_pixel. cbn [py_bind].
  rewrite (slog_floor_ok g _ HW0 HDW (edge_pos l ltac:(lia))). cbn [py_bind].
  rewrite (slog_floor_ok g _ HW0 HDW (edge_pos (S l) ltac:(lia))). cbn [py_bind].
  apply fold_py_inv; [|exact Hinv].
  intros fd' i Hi [Hlen Hz]. apply zrange_in in Hi.
  unfold rebin_bin. cbn [py_bind].
  match goal with |- context [Rle_dec ?a 0] => destruct (Rle_dec a 0) as [Hle|Hgt] end.
  - exists fd'. split; [reflexivity|split; assumption].
  - unfold py_index. replace (Nat.ltb l (length fsrc)) with true
      by (symmetry; apply Nat.ltb_lt; lia).
    cbn [py_bind]. eexists. split; [reflexivity|]. split.
    + rewrite add_at_length. exact Hlen.
    + intros j Hj Hout.
      destruct (Nat.eq_dec j (Z.to_nat (i - 1))) as [Ej|Ej].
      * exfalso. apply Hgt.
        replace i with (Z.of_nat j + 1)%Z by lia.
        apply alen_outside; [lia|exact Hout].
      * rewrite nth_add_at_other by exact Ej. apply Hz; assumption.
Qed.

Lemma rebin_loop_inv :
  exists fd, fold_left (rebin_pixel g (s_edges wave) fsrc) (seq 0 (length wave))
                       (Ok (repeat 0 (NW g))) = Ok fd /\ rebin_inv fd.
Proof.
  apply fold_py_inv.
  - intros fd l Hl Hinv. apply rebin_pixel_inv; assumption.
  - split; [apply repeat_length|].
    intros j Hj _. apply nth_repeat.
Qed.

End Rebin.

Lemma fold_rebin_raise g s fsrc l e :
  fold_left (rebin_pixel g s fsrc) l (Raise e) = Raise e.
Proof. induction l as [|a l IH]; [reflexivity|exact IH]. Qed.

Lemma rebin_pixel_raise_first g s fsrc fd l e :
  slog_floor g (nth l s 0) = Raise e -> rebin_pixel g s fsrc (Ok fd) l = Raise e.
Proof. intro H. unfold rebin_pixel. cbn [py_bind]. rewrite H. reflexivity. Qed.

(** [fdest / binw], elementwise. *)
Lemma nth_div_combine (a b : list R) j :
  (j < length a)%nat -> (j < length b)%nat ->
  nth j (map (fun ab : R * R => fst ab / snd ab) (combine a b)) 0 = nth j a 0 / nth j b 0.
Proof.
  revert b j. induction a as [|x a IH]; intros [|y b] [|j] Ha Hb; cbn in *; try lia.
  - reflexivity.
  - apply IH; lia.
Qed.

Lemma default_grid_W0_pos : 0 < W0 default_grid.
Proof. cbn. lra. Qed.

Lemma default_grid_DWLOG_pos : 0 < DWLOG default_grid.
Proof.
  unfold default_grid, init_wavelength_grid. cbn [DWLOG]. apply Rdiv_lt_0_compat.
  - rewrite <- ln_1. apply ln_increasing; lra.
  - apply lt_0_INR. lia.
Qed.

End LogRebinFacts.

Module LogRebinClaims.
Import LogRebin LogRebinFacts.
Local Open Scope R_scope.

(** Claim C7 (counterexample): [log_rebin] does not return an array for
    every increasing input with two samples.  For [wave = [1000, 4000]] the
    extrapolated first edge is 1.5*1000 - 0.5*4000 = -500, numpy's log of
    the negative ratio is nan and [int(np.floor(nan))] raises ValueError;
    and before [init_wavelength_grid] has run, [_ensure_grid] raises
    NameError. *)
Lemma log_rebin_negative_edge_counterexample :
  nondecreasing [1000; 4000] /\ coverage_lo [1000; 4000] = -500 /\
  log_rebin (Some default_grid) [1000; 4000] [1; 1] = Raise ValueError /\
  log_rebin None [3000; 3001] [1; 1] = Raise OtherError.
Proof.
  split.
  { intros [|k] Hk; cbn in Hk |- *; [lra|lia]. }
  split; [unfold coverage_lo; cbn; lra|].
  split; [|reflexivity].
  assert (Hs0 : slog_floor default_grid (nth 0 (s_edges [1000; 4000]) 0) = Raise ValueError).
  { rewrite s_edges_first. unfold slog_floor, coverage_lo. cbn [W0 default_grid init_wavelength_grid nth].
    destruct (Req_EM_T 2500 0) as [E|_]; [lra|].
    destruct (Rlt_dec ((3 / 2 * 1000 - 1 / 2 * 4000) / 2500) 0) as [_|Hn]; [reflexivity|].
    exfalso. apply Hn. lra. }
  unfold log_rebin. cbn [ensure_grid py_bind length Nat.ltb Nat.leb].
  change (seq 0 2) with (0%nat :: seq 1 1). cbn [fold_left].
  rewrite (rebin_pixel_raise_first _ _ _ _ _ _ Hs0), fold_rebin_raise. reflexivity.
Qed.

(** Claim C7 (amended): on an initialised grid ([W0 > 0], [DWLOG > 0]),
    for a non-decreasing wavelength array with at least two samples whose
    extrapolated first pixel edge [1.5 wave[0] - 0.5 wave[1]] is positive,
    and a flux array of the same length, [log_rebin] returns a log grid and
    a flux array of length [NW], and every log bin lying entirely outside
    the input coverage (below the first or above the last extrapolated
    pixel edge) is exactly 0. *)
Theorem log_rebin_outside_coverage_zero g wave fsrc :
  0 < W0 g -> 0 < DWLOG g -> (2 <= length wave)%nat -> nondecreasing wave ->
  0 < coverage_lo wave -> length fsrc = length wave ->
  exists log_wave fdest,
    log_rebin (Some g) wave fsrc = Ok (log_wave, fdest) /\
    length log_wave = NW g /\ length fdest = NW g /\
    forall j, (j < NW g)%nat -> bin_outside g wave j -> nth j fdest 0 = 0.
Proof.
  intros HW0 HDW H2 Hmono Hlo Hfsrc.
  destruct (rebin_loop_inv g wave fsrc HW0 HDW H2 Hmono Hlo Hfsrc) as [fd [Hfold [Hlen Hz]]].
  unfold log_rebin. cbn [ensure_grid py_bind].
  replace (Nat.ltb (length wave) 2) with false by (symmetry; apply Nat.ltb_ge; lia).
  rewrite Hfold. cbn [py_bind].
  set (edges := map (fun k => W0 g * exp ((INR k - 1 / 2) * DWLOG g)) (seq 0 (S (NW g)))).
  set (binw := map (fun ab : R * R => snd ab - fst ab) (combine edges (tl edges))).
  assert (Hbinw : length binw = NW g).
  { unfold binw. rewrite length_map, length_combine, length_tl_R.
    unfold edges. rewrite length_map, length_seq. lia. }
  eexists. eexists. split; [reflexivity|].
  split; [rewrite length_map, length_seq; reflexivity|].
  split; [rewrite length_map, length_combine, Hlen, Hbinw; lia|].
  intros j Hj Hout.
  rewrite nth_div_combine by lia.
  rewrite (Hz j Hj Hout). unfold Rdiv. apply Rmult_0_l.
Qed.

Lemma log_rebin_outside_coverage_zero_witness :
  exists log_wave fdest,
    log_rebin (Some default_grid) [3000; 3001] [1; 1] = Ok (log_wave, fdest) /\
    length log_wave = NW default_grid /\ length fdest = NW default_grid /\
    forall j, (j < NW default_grid)%nat -> bin_outside default_grid [3000; 3001] j ->
      nth j fdest 0 = 0.
Proof.
  apply log_rebin_outside_coverage_zero.
  - exact default_grid_W0_pos.
  - exact default_grid_DWLOG_pos.
  - cbn. lia.
  - intros [|k] Hk; cbn in Hk |- *; [lra|lia].
  - unfold coverage_lo. cbn. lra.
  - reflexivity.
Defined.

End LogRebinClaims.

Module FlattenFacts.
Import Flatten.
Local Open Scope R_scope.

Lemma mul_slice_length out start ramp :
  length (Apodize.mul_slice out start ramp) = length out.
Proof.
  unfold Apodize.mul_slice. rewrite length_map, length_combine, length_seq. lia.
Qed.

Lemma apodize_length arr n1 n2 percent :
  length (Apodize.apodize arr n1 n2 percent) = length arr.
Proof.
  unfold Apodize.apodize. cbv zeta.
  destruct percent as [p|];
    repeat match goal with |- context [if ?b then _ else _] => destruct b end;
    rewrite ?mul_slice_length; reflexivity.
Qed.

(** The keyword [num_points] is not a parameter of [log_rebin]. *)
Lemma log_rebin_num_points_kwarg :
  check_kwargs log_rebin_params ["num_points"%string] = Raise TypeError.
Proof. reflexivity. Qed.

(** Whatever the smoothing step returns, the call to [log_rebin] raises. *)
Lemma flatten_spectrum_unfold fit iw st wave flux apodize_percent ftype fvalue num_points :
  flatten_spectrum fit iw st wave flux apodize_percent ftype fvalue num_points =
  let* _ := smoothing_step iw wave
              (if Rlt_dec 0 apodize_percent then
                 Apodize.apodize flux (py_int_R (INR (length flux) * apodize_percent / 100))
                   (py_int_R (INR (length flux) * apodize_percent / 100)) (Some apodize_percent)
               else flux) ftype fvalue in
  Raise TypeError.
Proof.
  unfold flatten_spectrum. cbv zeta.
  destruct (smoothing_step _ _ _ _ _); reflexivity.
Qed.

(** The smoothing step raises only in the "angstrom" branch with a positive
    value, and there only the errors of the shape check, of the empty mean
    and of the window computation. *)
Lemma smoothing_step_errors iw wave flux ftype fvalue e :
  (forall e', iw wave fvalue = Raise e' -> e' = ValueError \/ e' = OverflowError) ->
  smoothing_step iw wave flux ftype fvalue = Raise e ->
  ftype = "angstrom"%string /\ 0 < fvalue /\ (e = ValueError \/ e = OverflowError).
Proof.
  intros Hiw. unfold smoothing_step.
  destruct (negb (String.eqb ftype "none") && (if Rlt_dec 0 fvalue then true else false))
    eqn:Hsm; [|discriminate].
  destruct (String.eqb ftype "pixel"); [discriminate|].
  destruct (String.eqb_spec ftype "angstrom") as [Ea|Ea]; [|discriminate].
  apply andb_true_iff in Hsm as [_ Hpos].
  destruct (Rlt_dec 0 fvalue) as [Hv|]; [|discriminate].
  intro H. split; [exact Ea|]. split; [exact Hv|].
  unfold Savgol.savgol_filter_wavelength in H.
  destruct (negb _); [injection H as <-; now left|].
  destruct (fleb fvalue f0); [discriminate|].
  unfold Savgol.wavelength_window in H.
  destruct (Savgol.np_diff wave); [injection H as <-; now left|].
  destruct (iw wave fvalue) as [k|e'] eqn:Hk.
  - cbn [py_bind] in H. destruct (_ <? 3)%Z; discriminate.
  - cbn [py_bind] in H. injection H as <-. now apply Hiw.
Qed.

End FlattenFacts.

Module FlattenClaims.
Import Flatten FlattenFacts.
Local Open Scope R_scope.

(** Claim C9 (counterexample): [flatten_spectrum] does not always raise
    TypeError.  With the "angstrom" filter on a 3-sample wavelength array
    and a 2-sample flux array, [savgol_filter_wavelength] raises ValueError
    (shape mismatch) before [log_rebin] is called, whatever the window
    computation. *)
Lemma flatten_spectrum_type_error_counterexample :
  flatten_spectrum (fun l => Ok (l, l)) Savgol.exact_int_window (Some LogRebin.default_grid)
    [1; 2; 3] [1; 1] 0 "angstrom" 10 1024 = Raise ValueError.
Proof.
  rewrite flatten_spectrum_unfold.
  destruct (Rlt_dec 0 0) as [H|_]; [lra|].
  unfold smoothing_step. cbn [String.eqb Ascii.eqb Bool.eqb negb andb].
  destruct (Rlt_dec 0 10) as [_|H]; [|lra].
  reflexivity.
Qed.

(** Claim C9 (amended): [flatten_spectrum] never returns a result.  It
    raises TypeError (the [num_points] keyword that [log_rebin] does not
    accept) whenever the smoothing step does not raise first: always unless
    the "angstrom" filter is requested with a positive value, and in that
    case too when wave and flux have the same length and the window
    computation yields a window ([wavelength_window]).  Otherwise
    [savgol_filter_wavelength] raises first, and its error is ValueError or
    OverflowError as long as the float64 step [int(2 * sigma / avg_dwl)]
    raises only those (Python's [int] on a float: nan gives ValueError,
    inf gives OverflowError). *)
Theorem flatten_spectrum_never_returns :
  (forall fit iw st wave flux apodize_percent ftype fvalue num_points,
     exists e, flatten_spectrum fit iw st wave flux apodize_percent ftype fvalue num_points = Raise e) /\
  (forall fit iw st wave flux apodize_percent ftype fvalue num_points,
     (forall e', iw wave fvalue = Raise e' -> e' = ValueError \/ e' = OverflowError) ->
     exists e, flatten_spectrum fit iw st wave flux apodize_percent ftype fvalue num_points = Raise e /\
       (e = TypeError \/
        (ftype = "angstrom"%string /\ 0 < fvalue /\ (e = ValueError \/ e = OverflowError)))) /\
  (forall fit iw st wave flux apodize_percent ftype fvalue num_points,
     (ftype <> "angstrom"%string \/ fvalue <= 0 \/
      (length wave = length flux /\ exists w, Savgol.wavelength_window iw wave fvalue = Ok w)) ->
     flatten_spectrum fit iw st wave flux apodize_percent ftype fvalue num_points = Raise TypeError).
Proof.
  split; [|split].
  - intros. rewrite flatten_spectrum_unfold.
    destruct (smoothing_step _ _ _ _ _) as [r|e]; eexists; reflexivity.
  - intros fit iw st wave flux apodize_percent ftype fvalue num_points Hiw.
    rewrite flatten_spectrum_unfold.
    destruct (smoothing_step _ _ _ _ _) as [r|e] eqn:Hs.
    + exists TypeError. split; [reflexivity|now left].
    + exists e. split; [reflexivity|right].
      exact (smoothing_step_errors _ _ _ _ _ _ Hiw Hs).
  - intros fit iw st wave flux apodize_percent ftype fvalue num_points Hcase.
    rewrite flatten_spectrum_unfold.
    set (flux' := if Rlt_dec 0 apodize_percent then _ else flux).
    assert (Hlen : length flux' = length flux).
    { unfold flux'. destruct (Rlt_dec 0 apodize_percent); [apply apodize_length|reflexivity]. }
    unfold smoothing_step.
    destruct (negb (String.eqb ftype "none") && (if Rlt_dec 0 fvalue then true else false))
      eqn:Hsm; [|reflexivity].
    destruct (String.eqb ftype "pixel"); [reflexivity|].
    destruct (String.eqb_spec ftype "angstrom") as [Ea|Ea]; [|reflexivity].
    apply andb_true_iff in Hsm as [_ Hpos].
    destruct (Rlt_dec 0 fvalue) as [Hv|]; [|discriminate].
    destruct Hcase as [Hn|[Hle|[Hl [w Hw]]]]; [contradiction|lra|].
    unfold Savgol.savgol_filter_wavelength.
    rewrite Hlen, Hl, Nat.eqb_refl. cbn [negb].
    change (fleb fvalue f0) with (if Rle_dec fvalue 0 then true else false).
    destruct (Rle_dec fvalue 0) as [Hle|_]; [lra|].
    rewrite Hw. cbn [py_bind].
    destruct (Z.min w _ <? 3)%Z; reflexivity.
Qed.

Lemma flatten_spectrum_never_returns_witness :
  (exists e, flatten_spectrum (fun l => Ok (l, l)) (fun _ _ => Raise OverflowError) None
               [3000; 3000; 3000] [1; 1; 1] 0 "angstrom" 10 1024 = Raise e /\
     (e = TypeError \/
      ("angstrom"%string = "angstrom"%string /\ 0 < 10 /\ (e = ValueError \/ e = OverflowError)))) /\
  flatten_spectrum (fun l => Ok (l, l)) Savgol.exact_int_window None
    [3000; 3001; 3002] [1; 1; 1] 5 "pixel" 3 1024 = Raise TypeError.
Proof.
  split.
  - apply (proj1 (proj2 flatten_spectrum_never_returns)).
    intros e' H. injection H as <-. now right.
  - apply (proj2 (proj2 flatten_spectrum_never_returns)).
    left. discriminate.
Defined.

End FlattenClaims.

Module SplineFacts.
Import Spline.
Local Open Scope Z_scope.

Lemma py_norm_index_in len k :
  0 <= k < len -> py_norm_index len k = Some (Z.to_nat k).
Proof.
  intro Hk. unfold py_norm_index.
  replace ((0 <=? k) && (k <? len)) with true; [reflexivity|].
  symmetry. apply andb_true_intro. split; [apply Z.leb_le|apply Z.ltb_lt]; lia.
Qed.

Lemma py_norm_index_neg len k :
  - len <= k < 0 -> py_norm_index len k = Some (Z.to_nat (len + k)).
Proof.
  intro Hk. unfold py_norm_index.
  replace ((0 <=? k) && (k <? len)) with false.
  2:{ symmetry. apply andb_false_iff. left. apply Z.leb_gt. lia. }
  replace ((- len <=? k) && (k <? 0)) with true; [reflexivity|].
  symmetry. apply andb_true_intro. split; [apply Z.leb_le|apply Z.ltb_lt]; lia.
Qed.

Lemma py_get_ok (l : list Q) k :
  - Z.of_nat (length l) <= k < Z.of_nat (length l) -> exists v, py_get l k = Ok v.
Proof.
  intro Hk. unfold py_get. destruct (Z_lt_le_dec k 0).
  - rewrite py_norm_index_neg by lia. eauto.
  - rewrite py_norm_index_in by lia. eauto.
Qed.

Lemma set_nth_length (l : list Q) i v : length (set_nth l i v) = length l.
Proof.
  revert i. induction l as [|x l IH]; intros [|i]; cbn; try rewrite IH; reflexivity.
Qed.

Lemma py_set_ok (l : list Q) k v :
  - Z.of_nat (length l) <= k < Z.of_nat (length l) ->
  exists l', py_set l k v = Ok l' /\ length l' = length l.
Proof.
  intro Hk. unfold py_set. destruct (Z_lt_le_dec k 0).
  - rewrite py_norm_index_neg by lia. eexists. split; [reflexivity|apply set_nth_length].
  - rewrite py_norm_index_in by lia. eexists. split; [reflexivity|apply set_nth_length].
Qed.

(** An in-range read or write is [Ok]; the side condition is left to [lia]. *)
Ltac py_access :=
  match goal with
  | |- context [py_get ?l ?k] =>
      let v := fresh "v" in let Hv := fresh "Hv" in
      destruct (py_get_ok l k) as [v Hv]; [rewrite ?repeat_length; lia|rewrite Hv; cbn [py_bind]; clear Hv]
  | |- context [py_set ?l ?k ?x] =>
      let l' := fresh "l" in let Hl := fresh "Hl" in let Hlen := fresh "Hlen" in
      destruct (py_set_ok l k x) as [l' [Hl Hlen]]; [rewrite ?repeat_length; lia|rewrite Hl; cbn [py_bind]; clear Hl]
  end.

Lemma zrange_in_bounds a b i : In i (zrange a b) -> a <= i <= b.
Proof.
  unfold zrange. intro Hin. apply in_map_iff in Hin as [k [<- Hk]].
  apply in_seq in Hk. lia.
Qed.

Lemma zrange_down_in a i : In i (zrange_down a) -> 0 <= i <= a.
Proof.
  unfold zrange_down. intro Hin. apply in_map_iff in Hin as [k [<- Hk]].
  apply in_seq in Hk. lia.
Qed.

Lemma zrange_length a b : length (zrange a b) = Z.to_nat (b - a + 1).
Proof. unfold zrange. rewrite length_map, length_seq. reflexivity. Qed.

Lemma chop_l1_ok (flux : list Q) fuel l1 nuked :
  0 <= l1 ->
  exists r, chop_l1 fuel flux (Z.of_nat (length flux)) l1 nuked = Ok r /\ 0 <= r.
Proof.
  revert l1 nuked. induction fuel as [|fuel IH]; intros l1 nuked H1; cbn [chop_l1].
  - eauto.
  - destruct (l1 <? Z.of_nat (length flux) - 1) eqn:E; [apply Z.ltb_lt in E|eauto].
    py_access. destruct (Qle_bool v 0 || (nuked <? 1)); [|eauto].
    apply IH. lia.
Qed.

Lemma chop_l2_ok (flux : list Q) fuel l2 nuked :
  l2 <= Z.of_nat (length flux) - 1 ->
  exists r, chop_l2 fuel flux l2 nuked = Ok r /\ r <= Z.of_nat (length flux) - 1.
Proof.
  revert l2 nuked. induction fuel as [|fuel IH]; intros l2 nuked H2; cbn [chop_l2].
  - eauto.
  - destruct (1 <? l2) eqn:E; [apply Z.ltb_lt in E|eauto].
    py_access. destruct (Qle_bool v 0 || (nuked <? 1)); [|eauto].
    apply IH. lia.
Qed.

Lemma chop_ends_ok (flux : list Q) :
  exists l1 l2, chop_ends flux = Ok (l1, l2) /\ 0 <= l1 /\ l2 <= Z.of_nat (length flux) - 1.
Proof.
  unfold chop_ends.
  destruct (chop_l1_ok flux (length flux) 0 0) as [l1 [E1 H1]]; [lia|].
  destruct (chop_l2_ok flux (length flux) (Z.of_nat (length flux) - 1) 0) as [l2 [E2 H2]]; [lia|].
  rewrite E1. cbn [py_bind]. rewrite E2. cbn [py_bind]. eauto.
Qed.

Lemma knot_step_ok (flux logf : list Q) l1 l2 istart kwidth st i :
  0 < kwidth -> length logf = length flux -> 0 <= i < Z.of_nat (length flux) ->
  length (ks_x st) = length (ks_y st) ->
  exists st', knot_step flux logf l1 l2 istart kwidth (Ok st) i = Ok st' /\
              length (ks_x st') = length (ks_y st').
Proof.
  intros Hkw Hlf Hi Hst. unfold knot_step. cbn [py_bind].
  assert (Hmod : forall a, py_mod a kwidth = Ok (a mod kwidth)).
  { intro a. unfold py_mod. replace (kwidth =? 0) with false; [reflexivity|].
    symmetry. apply Z.eqb_neq. lia. }
  assert (Hin : exists st0,
    (if (l1 <? i) && (i <? l2) then
       let* fi := py_get flux i in
       if Qle_bool fi 0 then Ok st else
       let* lf := py_get logf i in
       Ok {| ks_x := ks_x st; ks_y := ks_y st; ks_nave := (ks_nave st + 1)%Q;
             ks_sum_x := (ks_sum_x st + (inject_Z i - (1 # 2)))%Q;
             ks_sum_y := (ks_sum_y st + lf)%Q |}
     else Ok st) = Ok st0 /\ length (ks_x st0) = length (ks_y st0)).
  { destruct ((l1 <? i) && (i <? l2)); [|eauto].
    py_access. destruct (Qle_bool v 0); [eauto|].
    py_access. eexists. split; [reflexivity|exact Hst]. }
  destruct Hin as [st0 [E0 H0]]. rewrite E0. cbn [py_bind]. rewrite Hmod. cbn [py_bind].
  destruct ((i - istart) mod kwidth =? 0); destruct (negb (Qle_bool (ks_nave st0) 0));
    cbn [andb]; eexists; (split; [reflexivity|]); cbn [ks_x ks_y];
    rewrite ?length_app; cbn [length]; lia.
Qed.

Lemma place_knots_ok log10 (flux : list Q) knotnum izoff l1 l2 :
  0 < knotnum -> 0 < Z.of_nat (length flux) / knotnum ->
  exists ks, place_knots log10 flux knotnum izoff l1 l2 = Ok ks /\
             length (ks_x ks) = length (ks_y ks).
Proof.
  intros Hk Hkw. unfold place_knots, py_floordiv.
  replace (knotnum =? 0) with false by (symmetry; apply Z.eqb_neq; lia).
  cbn [py_bind]. set (kw := Z.of_nat (length flux) / knotnum) in *.
  assert (Hist : exists istart,
    (if 0 <? izoff then let* m := py_mod izoff kw in Ok (m - kw) else Ok 0) = Ok istart).
  { destruct (0 <? izoff); [|eauto]. unfold py_mod.
    replace (kw =? 0) with false by (symmetry; apply Z.eqb_neq; lia). cbn [py_bind]. eauto. }
  destruct Hist as [istart Eist]. rewrite Eist. cbn [py_bind].
  apply LogRebinFacts.fold_py_inv; [|reflexivity].
  intros st i Hi Hst. apply zrange_in_bounds in Hi.
  apply knot_step_ok; [exact Hkw|apply length_map|lia|exact Hst].
Qed.

Lemma vzip_ok f (a b : list Q) :
  length a = length b -> exists c, vzip f a b = Ok c /\ length c = length a.
Proof.
  intro Hab. unfold vzip. rewrite Hab, Nat.eqb_refl. eexists. split; [reflexivity|].
  rewrite length_map, length_combine. lia.
Qed.

Lemma qdiff_length (l : list Q) : length (qdiff l) = (length l - 1)%nat.
Proof.
  unfold qdiff. rewrite length_map, length_combine. destruct l; cbn [tl length]; lia.
Qed.

Lemma mid_length (l : list Q) : length (mid l) = (length l - 2)%nat.
Proof. unfold mid. rewrite length_firstn, length_skipn. lia. Qed.

Lemma drop_last_length k (l : list Q) : length (drop_last k l) = (length l - k)%nat.
Proof. unfold drop_last. rewrite length_firstn. lia. Qed.

Lemma py_mapM_ok {A B : Type} (f : A -> py_result B) (l : list A) :
  (forall x, In x l -> exists y, f x = Ok y) ->
  exists ys, py_mapM f l = Ok ys /\ length ys = length l.
Proof.
  induction l as [|x l IH]; intro Hf; cbn [py_mapM].
  - exists []. split; reflexivity.
  - destruct (Hf x (or_introl eq_refl)) as [y Hy]. rewrite Hy. cbn [py_bind].
    destruct IH as [ys [Hys Hlen]]; [intros x' Hx'; apply Hf; right; exact Hx'|].
    rewrite Hys. cbn [py_bind]. exists (y :: ys). split; [reflexivity|cbn; lia].
Qed.

Lemma eval_at_ok pow10 (xknot yknot y2 : list Q) j :
  (2 <= length xknot)%nat -> length yknot = length xknot -> length y2 = length xknot ->
  exists v, eval_at pow10 xknot yknot y2 (Z.of_nat (length xknot)) j = Ok v.
Proof.
  intros H2 Hy Hy2. unfold eval_at.
  set (idx := Z.min (Z.max _ 0) (Z.of_nat (length xknot) - 2)).
  assert (Hidx : 0 <= idx <= Z.of_nat (length xknot) - 2) by (subst idx; lia).
  clearbody idx. repeat py_access. eauto.
Qed.

Ltac lens := rewrite ?length_skipn, ?mid_length, ?drop_last_length in *; lia.

Lemma spline_continuum_ok pow10 (flux xknot yknot : list Q) :
  (3 <= length xknot)%nat -> length yknot = length xknot ->
  exists flat cont, spline_continuum pow10 flux xknot yknot = Ok (flat, cont) /\
    length flat = length flux /\ length cont = length flux.
Proof.
  intros H3 Hy. unfold spline_continuum.
  assert (Hh : length (qdiff xknot) = (length xknot - 1)%nat) by apply qdiff_length.
  set (h := qdiff xknot) in *. clearbody h.
  destruct (vzip_ok Qminus (skipn 2 yknot) (mid yknot)) as [t1 [E Ht1]];
    [lens|]. rewrite E. cbn [py_bind]. clear E.
  destruct (vzip_ok Qdiv t1 (skipn 1 h)) as [t1' [E Ht1']];
    [lens|]. rewrite E. cbn [py_bind]. clear E.
  destruct (vzip_ok Qminus (mid yknot) (drop_last 2 yknot)) as [t2 [E Ht2]];
    [lens|]. rewrite E. cbn [py_bind]. clear E.
  destruct (vzip_ok Qdiv t2 (drop_last 1 h)) as [t2' [E Ht2']];
    [lens|]. rewrite E. cbn [py_bind]. clear E.
  destruct (vzip_ok Qminus t1' t2') as [r0 [E Hr0]]; [lens|].
  rewrite E. cbn [py_bind]. clear E.
  destruct (vzip_ok Qplus (drop_last 1 h) (skipn 1 h)) as [a0 [E Ha0]];
    [lens|]. rewrite E. cbn [py_bind]. clear E.
  rewrite length_skipn in Ht1. rewrite mid_length in Ht2. rewrite drop_last_length in Ha0.
  set (m := length (map (Qmult 6) r0)).
  assert (Hm : m = (length xknot - 2)%nat) by (subst m; rewrite length_map; lia).
  assert (HA : length a0 = m) by lia.
  assert (HC : length (skipn 1 h) = m) by (rewrite length_skipn; lia).
  set (A := map (Qmult 2) a0) in *. set (rhs := map (Qmult 6) r0) in *.
  assert (HA' : length A = m) by (subst A; rewrite length_map; exact HA).
  set (C := skipn 1 h) in *. fold m. rewrite HA'.
  assert (Hrhs : length rhs = m) by reflexivity.
  clearbody A rhs C m.
  do 4 py_access.
  rewrite repeat_length in *.
  set (fwd := fold_left (fwd_step A C rhs) _ _).
  destruct (LogRebinFacts.fold_py_inv
              (fun uz : list Q * list Q => length (fst uz) = m /\ length (snd uz) = m)
              (fwd_step A C rhs) (zrange 1 (Z.of_nat m - 1)) (l, l0))
    as [[u z] [Hf [Hu Hz]]].
  { intros [u z] i Hi [Hu Hz]. apply zrange_in_bounds in Hi. cbn [fst snd] in Hu, Hz.
    unfold fwd_step. cbn [py_bind].
    repeat py_access. eexists. split; [reflexivity|]. cbn [fst snd]. lia. }
  { cbn [fst snd]. lia. }
  subst fwd. rewrite Hf. cbn [py_bind fst snd] in *.
  replace (Nat.ltb 0 m) with true by (symmetry; apply Nat.ltb_lt; lia).
  do 3 py_access.
  destruct (LogRebinFacts.fold_py_inv (fun y2 : list Q => length y2 = length xknot)
              (back_step C u z) (zrange_down (Z.of_nat m - 2)) l1)
    as [y2 [Hb Hy2]].
  { intros y2 i Hi Hy2. apply zrange_down_in in Hi. unfold back_step. cbn [py_bind].
    repeat py_access. eexists. split; [reflexivity|lia]. }
  { rewrite Hlen1, repeat_length. reflexivity. }
  rewrite Hb. cbn [py_bind].
  destruct (py_mapM_ok (eval_at pow10 xknot yknot y2 (Z.of_nat (length xknot)))
              (zrange 0 (Z.of_nat (length flux) - 1))) as [cont [Hc Hcl]].
  { intros j _. apply eval_at_ok; lia. }
  rewrite Hc. cbn [py_bind]. eexists _, cont. split; [reflexivity|].
  rewrite zrange_length in Hcl. rewrite length_map, length_combine. lia.
Qed.

End SplineFacts.

Module SplineClaims.
Import Spline SplineFacts.
Local Open Scope Z_scope.

(** C10: [fit_continuum_spline] never raises: for every flux array, knot
    number and offset (and any [log10] and [10 ** x]) it returns a pair
    [(flat, cont)] of arrays of the length of [flux]. When [flux.size < 10],
    or [knotnum < 3], or the chopped range [l2 - l1] is shorter than
    [3 * knotnum], or fewer than 3 knots are placed, the pair is
    [(zeros, ones)]. *)
Theorem fit_continuum_spline_never_raises :
  (forall (log10 pow10 : Q -> Q) (flux : list Q) (knotnum izoff : Z),
     exists flat cont,
       fit_continuum_spline log10 pow10 flux knotnum izoff = Ok (flat, cont) /\
       length flat = length flux /\ length cont = length flux) /\
  (forall (log10 pow10 : Q -> Q) (flux : list Q) (knotnum izoff : Z),
     (Z.of_nat (length flux) < 10 \/ knotnum < 3 \/
      (exists l1 l2, chop_ends flux = Ok (l1, l2) /\ l2 - l1 < 3 * knotnum) \/
      (exists l1 l2 ks, chop_ends flux = Ok (l1, l2) /\
         place_knots log10 flux knotnum izoff l1 l2 = Ok ks /\
         (length (ks_x ks) < 3)%nat)) ->
     fit_continuum_spline log10 pow10 flux knotnum izoff =
       Ok (zeros (length flux), ones (length flux))).
Proof.
  split.
  - intros log10 pow10 flux knotnum izoff. unfold fit_continuum_spline.
    destruct ((Z.of_nat (length flux) <? 10) || (knotnum <? 3)) eqn:E0.
    { eexists _, _. split; [reflexivity|]. unfold zeros, ones.
      rewrite !repeat_length. split; reflexivity. }
    apply orb_false_iff in E0 as [E0 E0']. apply Z.ltb_ge in E0, E0'.
    destruct (chop_ends_ok flux) as [l1 [l2 [Hc [H1 H2]]]]. rewrite Hc. cbn [py_bind].
    destruct (l2 - l1 <? 3 * knotnum) eqn:E1.
    { eexists _, _. split; [reflexivity|]. unfold zeros, ones.
      rewrite !repeat_length. split; reflexivity. }
    apply Z.ltb_ge in E1.
    destruct (place_knots_ok log10 flux knotnum izoff l1 l2) as [ks [Hk Hlen]];
      [lia|apply Z.div_str_pos; lia|].
    rewrite Hk. cbn [py_bind].
    destruct (Nat.ltb (length (ks_x ks)) 3) eqn:E2.
    { eexists _, _. split; [reflexivity|]. unfold zeros, ones.
      rewrite !repeat_length. split; reflexivity. }
    apply Nat.ltb_ge in E2.
    destruct (spline_continuum_ok pow10 flux (ks_x ks) (ks_y ks)) as [flat [cont [Hs [Hf Hcl]]]];
      [exact E2|symmetry; exact Hlen|].
    exists flat, cont. split; [exact Hs|split; assumption].
  - intros log10 pow10 flux knotnum izoff Hcase. unfold fit_continuum_spline.
    destruct Hcase as [Hn|[Hk|[[l1 [l2 [Hc Hlt]]]|[l1 [l2 [ks [Hc [Hk Hlt]]]]]]]].
    + replace (Z.of_nat (length flux) <? 10) with true by (symmetry; apply Z.ltb_lt; exact Hn).
      reflexivity.
    + replace (knotnum <? 3) with true by (symmetry; apply Z.ltb_lt; exact Hk).
      rewrite orb_true_r. reflexivity.
    + destruct (_ || _); [reflexivity|]. rewrite Hc. cbn [py_bind].
      replace (l2 - l1 <? 3 * knotnum) with true by (symmetry; apply Z.ltb_lt; exact Hlt).
      reflexivity.
    + destruct (_ || _); [reflexivity|]. rewrite Hc. cbn [py_bind].
      destruct (l2 - l1 <? 3 * knotnum); [reflexivity|].
      rewrite Hk. cbn [py_bind].
      replace (Nat.ltb (length (ks_x ks)) 3) with true by (symmetry; apply Nat.ltb_lt; exact Hlt).
      reflexivity.
Qed.

(** Twelve unit fluxes with [knotnum = 3]: the chopped range [1 .. 10] is
    wide enough, but only two knots are placed, so the result is
    [(zeros, ones)]. *)
Lemma fit_continuum_spline_never_raises_witness :
  fit_continuum_spline (fun x => x) (fun x => x) flux12 3 0 =
    Ok (zeros (length flux12), ones (length flux12)).
Proof.
  apply (proj2 fit_continuum_spline_never_raises (fun x => x) (fun x => x) flux12 3 0).
  right. right. right.
  exists 1, 10,
    (match place_knots (fun x => x) flux12 3 0 1 10 with
     | Ok ks => ks | Raise _ => knot_init end).
  split; [vm_compute; reflexivity|]. split; vm_compute; reflexivity.
Defined.

End SplineClaims.

Module CliFacts.
Import Cli.
Local Open Scope string_scope.

(** The exit code of [main] is 0 or 1, and it is 0 exactly when the
    spectrum exists, the templates directory validates, preprocessing and
    the analysis run, the analysis succeeds, and writing the outputs and
    the summary raise nothing. *)
Lemma main_exit_code (a : cli_args) (env : cli_env) :
  (snd (main a env) = 0%Z \/ snd (main a env) = 1%Z) /\
  (snd (main a env) = 0%Z <-> main_succeeds env).
Proof.
  unfold main, main_try, main_succeeds.
  destruct (path_exists env) eqn:Ep; cbn -[String.append].
  2:{ split; [right; reflexivity|split; [discriminate|intros [H _]; congruence]]. }
  destruct (templates env) as [t|[k msg]] eqn:Et; cbn -[String.append].
  2:{ destruct k; cbn -[String.append];
      (split; [right; reflexivity|split; [discriminate|intros [_ [[? H] _]]; congruence]]). }
  destruct (preprocess env) as [[]|[k msg]] eqn:Epp; cbn -[String.append].
  2:{ destruct k; cbn -[String.append];
      (split; [right; reflexivity|split; [discriminate|intros [_ [_ [H _]]]; congruence]]). }
  destruct (verbose a); cbn -[String.append];
  (destruct (analysis env) as [[[s m]|]|[k msg]] eqn:Ea; cbn -[String.append];
  [|split; [right; reflexivity|split; [discriminate|intros [_ [_ [_ [[r [Hr _]] _]]]]; congruence]]
   |destruct k; cbn -[String.append];
      (split; [right; reflexivity|split; [discriminate|intros [_ [_ [_ [[r [Hr _]] _]]]]; congruence]])]);
  (destruct s; cbn -[String.append];
   [|destruct m; cbn -[String.append];
     (split; [right; reflexivity|split; [discriminate|intros [_ [_ [_ [[r [Hr Hs]] _]]]]; injection Hr as <-; cbn in Hs; discriminate Hs]])]);
  (destruct (save_outputs env) as [[]|[k msg]] eqn:Es; cbn -[String.append];
   [|destruct k; cbn -[String.append];
      (split; [right; reflexivity|split; [discriminate|intros [_ [_ [_ [_ [H _]]]]]; congruence]])]);
  (destruct (summary env) as [[]|[k msg]] eqn:Esu; cbn -[String.append];
   [|destruct k; cbn -[String.append];
      (split; [right; reflexivity|split; [discriminate|intros [_ [_ [_ [_ [_ H]]]]]; congruence]])]);
  destruct (minimal a); try destruct (complete a); cbn -[String.append];
  (split; [left; reflexivity|split; [intros _|reflexivity]]);
  (split; [reflexivity|split; [eauto|split; [reflexivity|split; [eauto|split; reflexivity]]]]).
Qed.

End CliFacts.

Module CliClaims.
Import Cli.
Local Open Scope string_scope.

(** C5: when the spectrum file exists, the templates directory validates
    and preprocessing runs, but [run_snid_analysis] returns [None] or a
    result with [success = False], [main] returns 1 and prints
    "[ERROR] SNID analysis failed for <name>" to standard output, and
    writes nothing at all to standard error. *)
Theorem main_analysis_failure_on_stdout (a : cli_args) (env : cli_env) t r :
  path_exists env = true -> templates env = inl t -> preprocess env = inl tt ->
  analysis env = inl r -> result_ok r = false ->
  snd (main a env) = 1%Z /\
  In (Stdout, nl ++ "[ERROR] SNID analysis failed for " ++ spectrum_name env) (fst (main a env)) /\
  (forall m, ~ In (Stderr, m) (fst (main a env))).
Proof.
  intros H1 H2 H3 H4 H5. unfold main, main_try. rewrite H1, H2, H3, H4.
  destruct r as [[s [m|]]|]; cbn in H5; try subst s; destruct (verbose a); cbn -[String.append];
    (split; [reflexivity|split; [|intros m' Hin]]);
    repeat (destruct Hin as [Hin|Hin]; [discriminate Hin|]); try exact Hin;
    repeat (first [left; reflexivity|right]).
Qed.

(** The analysis of [sn.dat] returns a failed result with an error
    message. *)
Lemma main_analysis_failure_on_stdout_witness :
  snd (main demo_args (demo_env demo_failed)) = 1%Z /\
  In (Stdout, nl ++ "[ERROR] SNID analysis failed for sn")
     (fst (main demo_args (demo_env demo_failed))) /\
  (forall m, ~ In (Stderr, m) (fst (main demo_args (demo_env demo_failed)))).
Proof.
  apply (main_analysis_failure_on_stdout demo_args (demo_env demo_failed) "templates" demo_failed);
    reflexivity.
Defined.

End CliClaims.

Module MasksFacts.
Import Masks.
Local Open Scope Q_scope.

Lemma combine_map_self (p : Q -> bool) (w : list Q) :
  combine (map p w) w = map (fun x => (p x, x)) w.
Proof. induction w as [|x w IH]; cbn; [reflexivity|rewrite IH; reflexivity]. Qed.

Lemma mask_out_map (p : Q -> bool) (w : list Q) a b :
  mask_out (map p w) w a b = map (fun x => p x && negb (in_band a b x)) w.
Proof.
  unfold mask_out. rewrite combine_map_self, map_map. reflexivity.
Qed.

Lemma ones_keep_map (w : list Q) : ones_keep w = map (fun _ => true) w.
Proof. unfold ones_keep. induction w as [|x w IH]; cbn; [reflexivity|rewrite IH; reflexivity]. Qed.

Lemma map_ext_eq {A B} (f g : A -> B) (l : list A) :
  (forall x, f x = g x) -> map f l = map g l.
Proof. intro H. induction l as [|x l IH]; cbn; [reflexivity|rewrite H, IH; reflexivity]. Qed.

(** Masking out a list of windows [(lo l, hi l)] one after the other. *)
Lemma fold_mask_windows {A} (lo hi : A -> Q) (ls : list A) (p : Q -> bool) (w : list Q) :
  fold_left (fun keep l => mask_out keep w (lo l) (hi l)) ls (map p w) =
  map (fun x => p x && forallb (fun l => negb (in_band (lo l) (hi l) x)) ls) w.
Proof.
  revert p. induction ls as [|l ls IH]; intro p; cbn [fold_left forallb].
  - apply map_ext_eq. intro x. rewrite andb_true_r. reflexivity.
  - rewrite mask_out_map, IH. apply map_ext_eq. intro x. rewrite andb_assoc. reflexivity.
Qed.

Lemma fold_mask_range_raise (w : list Q) rs e :
  fold_left (mask_range w) rs (Raise e) = Raise e.
Proof. induction rs as [|r rs IH]; cbn; [reflexivity|exact IH]. Qed.

Lemma fold_mask_range (w : list Q) rs (p : Q -> bool) :
  fold_left (mask_range w) rs (Ok (map p w)) =
  if has_bad_range rs then Raise ValueError
  else Ok (map (fun x => p x && outside_all rs x) w).
Proof.
  revert p. induction rs as [|[a b] rs IH]; intro p.
  - cbn. f_equal. apply map_ext_eq. intro x. rewrite andb_true_r. reflexivity.
  - change (has_bad_range ((a, b) :: rs))
      with ((if Qlt_le_dec b a then true else false) || has_bad_range rs).
    change (outside_all ((a, b) :: rs)) with (fun x => negb (in_band a b x) && outside_all rs x).
    cbn [fold_left]. unfold mask_range at 2. cbn [py_bind].
    destruct (Qlt_le_dec b a); cbn [orb].
    + apply fold_mask_range_raise.
    + rewrite mask_out_map, IH. destruct (has_bad_range rs); [reflexivity|].
      f_equal. apply map_ext_eq. intro x. rewrite andb_assoc. reflexivity.
Qed.

Lemma filter_keep_fst (w f : list Q) (q : Q -> bool) :
  length w = length f ->
  map fst (filter snd (combine w (map q w))) = map fst (filter (fun p => q (fst p)) (combine w f)).
Proof.
  revert f. induction w as [|x w IH]; intros [|y f] E; cbn in E |- *; try discriminate; [reflexivity|].
  destruct (q x); cbn; rewrite (IH f); congruence.
Qed.

Lemma filter_keep_snd (w f : list Q) (q : Q -> bool) :
  length w = length f ->
  map fst (filter snd (combine f (map q w))) = map snd (filter (fun p => q (fst p)) (combine w f)).
Proof.
  revert f. induction w as [|x w IH]; intros [|y f] E; cbn in E |- *; try discriminate; [reflexivity|].
  destruct (q x); cbn; rewrite (IH f); congruence.
Qed.

Lemma select_map (w f : list Q) (q : Q -> bool) :
  select w f (map q w) =
  if Nat.eqb (length w) (length f)
  then Ok (map fst (filter (fun p => q (fst p)) (combine w f)),
           map snd (filter (fun p => q (fst p)) (combine w f)))
  else Raise IndexError.
Proof.
  unfold select, bool_index. rewrite length_map, Nat.eqb_refl. cbn [py_bind].
  rewrite (Nat.eqb_sym (length f) (length w)).
  destruct (Nat.eqb_spec (length w) (length f)) as [E|E]; [|reflexivity].
  cbn [py_bind]. rewrite (filter_keep_fst w f q E), (filter_keep_snd w f q E). reflexivity.
Qed.

Lemma filter_ext_eq {A} (g h : A -> bool) (l : list A) :
  (forall x, g x = h x) -> filter g l = filter h l.
Proof. intro H. induction l as [|x l IH]; cbn; [reflexivity|rewrite H, IH; reflexivity]. Qed.

Lemma filter_filter_and {A} (g h : A -> bool) (l : list A) :
  filter h (filter g l) = filter (fun x => g x && h x) l.
Proof.
  induction l as [|x l IH]; cbn; [reflexivity|].
  destruct (g x); cbn; [destruct (h x); cbn; rewrite IH; reflexivity|exact IH].
Qed.

Lemma combine_fst_snd (ps : list (Q * Q)) : combine (map fst ps) (map snd ps) = ps.
Proof. induction ps as [|[x y] ps IH]; cbn; [reflexivity|rewrite IH; reflexivity]. Qed.

Lemma map_fst_combine (w f : list Q) : length w = length f -> map fst (combine w f) = w.
Proof.
  revert f. induction w as [|x w IH]; intros [|y f] E; cbn in E |- *; try discriminate; [reflexivity|].
  rewrite IH; congruence.
Qed.

Lemma map_snd_combine (w f : list Q) : length w = length f -> map snd (combine w f) = f.
Proof.
  revert f. induction w as [|x w IH]; intros [|y f] E; cbn in E |- *; try discriminate; [reflexivity|].
  rewrite IH; congruence.
Qed.

Lemma outside_all_app r1 r2 x : outside_all (r1 ++ r2) x = outside_all r1 x && outside_all r2 x.
Proof. unfold outside_all. apply forallb_app. Qed.

Lemma has_bad_range_app r1 r2 : has_bad_range (r1 ++ r2) = has_bad_range r1 || has_bad_range r2.
Proof. unfold has_bad_range. apply existsb_app. Qed.

Lemma kept_pairs_length ranges (w f : list Q) :
  length (fst (kept_pairs ranges w f)) = length (snd (kept_pairs ranges w f)).
Proof. unfold kept_pairs. cbn [fst snd]. rewrite !length_map. reflexivity. Qed.

Lemma kept_pairs_app r1 r2 (w f : list Q) :
  kept_pairs r2 (fst (kept_pairs r1 w f)) (snd (kept_pairs r1 w f)) = kept_pairs (r1 ++ r2) w f.
Proof.
  unfold kept_pairs. cbv zeta. cbn [fst snd]. rewrite combine_fst_snd, filter_filter_and.
  rewrite (filter_ext_eq _ (fun p => outside_all (r1 ++ r2) (fst p))); [reflexivity|].
  intro p. rewrite outside_all_app. reflexivity.
Qed.

Lemma apply_wavelength_mask_eq (w f : list Q) ranges :
  apply_wavelength_mask w f ranges =
    if has_bad_range ranges then Raise ValueError
    else or_index_error w f (kept_pairs ranges w f).
Proof.
  unfold apply_wavelength_mask. rewrite ones_keep_map, fold_mask_range.
  destruct (has_bad_range ranges); [reflexivity|]. cbn [py_bind].
  rewrite (map_ext_eq _ (outside_all ranges)) by reflexivity.
  rewrite select_map. reflexivity.
Qed.

Lemma outside_all_windows {A} (lo hi : A -> Q) (ls : list A) x :
  outside_all (map (fun l => (lo l, hi l)) ls) x =
  forallb (fun l => negb (in_band (lo l) (hi l) x)) ls.
Proof. induction ls as [|l ls IH]; cbn; [reflexivity|]. unfold outside_all in IH. rewrite IH. reflexivity. Qed.

(** A mask over windows, written as [kept_pairs]. *)
Lemma select_windows {A} (lo hi : A -> Q) (ls : list A) (w f : list Q) :
  select w f (fold_left (fun keep l => mask_out keep w (lo l) (hi l)) ls (ones_keep w)) =
  or_index_error w f (kept_pairs (map (fun l => (lo l, hi l)) ls) w f).
Proof.
  rewrite ones_keep_map, fold_mask_windows, select_map. unfold or_index_error, kept_pairs.
  rewrite (filter_ext_eq (fun p => true && forallb (fun l => negb (in_band (lo l) (hi l) (fst p))) ls)
                         (fun p => outside_all (map (fun l => (lo l, hi l)) ls) (fst p))).
  - reflexivity.
  - intro p. rewrite outside_all_windows. reflexivity.
Qed.

Lemma skipn_repeat_Q k n (x : Q) : skipn k (repeat x n) = repeat x (n - k).
Proof.
  revert n. induction k as [|k IH]; intros [|n]; cbn; try reflexivity. apply IH.
Qed.

End MasksFacts.

Module MasksProps.
Import Masks MasksFacts.
Local Open Scope Q_scope.

(** [apply_wavelength_mask] raises ValueError exactly when one of its
    ranges has [b < a]; otherwise it keeps, in order, the pairs
    [(w[i], f[i])] whose wavelength lies in none of the closed ranges,
    and raises IndexError when [w] and [f] differ in length. *)
Theorem apply_wavelength_mask_spec (w f : list Q) ranges :
  apply_wavelength_mask w f ranges =
    if has_bad_range ranges then Raise ValueError
    else if Nat.eqb (length w) (length f) then Ok (kept_pairs ranges w f)
    else Raise IndexError.
Proof. apply apply_wavelength_mask_eq. Qed.

(** For arrays of equal length, masking with [r1 ++ r2] is masking with
    [r1] and then masking the result with [r2]; masking a result again
    with the same ranges changes nothing. *)
Theorem apply_wavelength_mask_compose (w f : list Q) r1 r2 :
  length w = length f ->
  apply_wavelength_mask w f (r1 ++ r2) =
    (let* wf := apply_wavelength_mask w f r1 in apply_wavelength_mask (fst wf) (snd wf) r2) /\
  (forall w' f', apply_wavelength_mask w f r1 = Ok (w', f') ->
                 apply_wavelength_mask w' f' r1 = Ok (w', f')).
Proof.
  intro E. rewrite !apply_wavelength_mask_eq, has_bad_range_app. unfold or_index_error.
  rewrite E, Nat.eqb_refl. split.
  - destruct (has_bad_range r1); cbn [orb py_bind]; [reflexivity|].
    rewrite apply_wavelength_mask_eq. unfold or_index_error.
    rewrite kept_pairs_length, Nat.eqb_refl, kept_pairs_app.
    reflexivity.
  - intros w' f' H. destruct (has_bad_range r1) eqn:B; [discriminate|].
    assert (K : kept_pairs r1 w f = (w', f')) by congruence.
    assert (Hw : w' = fst (kept_pairs r1 w f)) by (rewrite K; reflexivity).
    assert (Hf : f' = snd (kept_pairs r1 w f)) by (rewrite K; reflexivity).
    subst w' f'. clear H K. rewrite apply_wavelength_mask_eq, B. unfold or_index_error.
    rewrite kept_pairs_length, Nat.eqb_refl, kept_pairs_app.
    assert (D : kept_pairs (r1 ++ r1) w f = kept_pairs r1 w f).
    { unfold kept_pairs.
      rewrite (filter_ext_eq (fun p => outside_all (r1 ++ r1) (fst p)) (fun p => outside_all r1 (fst p))).
      - reflexivity.
      - intro p. rewrite outside_all_app, andb_diag. reflexivity. }
    rewrite D. destruct (kept_pairs r1 w f). reflexivity.
Qed.

Lemma apply_wavelength_mask_compose_witness :
  apply_wavelength_mask [1; 2; 3] [4; 5; 6] ([(0, 1)] ++ [(3, 4)]) =
    (let* wf := apply_wavelength_mask [1; 2; 3] [4; 5; 6] [(0, 1)] in
     apply_wavelength_mask (fst wf) (snd wf) [(3, 4)]).
Proof. apply (apply_wavelength_mask_compose [1; 2; 3] [4; 5; 6] [(0, 1)] [(3, 4)]). reflexivity. Defined.

(** Each clipping helper keeps, in order, the pairs whose wavelength lies
    outside all its windows ([band]; [l +- width] for the sky lines;
    [l (1 + z) +- width] for the host lines), and raises IndexError on
    arrays of different lengths.  An A-band with [b < a] removes nothing
    (where [apply_wavelength_mask] would raise); a negative redshift makes
    [clip_host_emission_lines] return its inputs unchecked. *)
Theorem clip_helpers_kept_pairs (w f : list Q) :
  (forall a b, clip_aband w f (a, b) = or_index_error w f (kept_pairs [(a, b)] w f)) /\
  (forall a b, b < a -> clip_aband w f (a, b) = or_index_error w f (w, f)) /\
  (forall width lines, clip_sky_lines w f width lines =
     or_index_error w f (kept_pairs (map (fun l => (l - width, l + width)) lines) w f)) /\
  (forall z width, 0 <= z -> clip_host_emission_lines w f z width =
     or_index_error w f
       (kept_pairs (map (fun l => (l * (1 + z) - width, l * (1 + z) + width)) host_rest_lines) w f)) /\
  (forall z width, z < 0 -> clip_host_emission_lines w f z width = Ok (w, f)).
Proof.
  assert (Hab : forall a b, clip_aband w f (a, b) = or_index_error w f (kept_pairs [(a, b)] w f)).
  { intros a b. unfold clip_aband. rewrite select_map. unfold or_index_error, kept_pairs.
    rewrite (filter_ext_eq (fun p => negb (in_band a b (fst p))) (fun p => outside_all [(a, b)] (fst p))).
    - reflexivity.
    - intro p. unfold outside_all. cbn. rewrite andb_true_r. reflexivity. }
  split; [exact Hab|]. split; [|split; [|split]].
  - intros a b Hba. rewrite Hab. unfold or_index_error.
    destruct (Nat.eqb_spec (length w) (length f)) as [E|E]; [|reflexivity].
    unfold kept_pairs. rewrite (filter_ext_eq _ (fun _ => true)).
    + rewrite filter_true, map_fst_combine, map_snd_combine by exact E. reflexivity.
    + intros [x y]. unfold outside_all, in_band. cbn [forallb fst snd].
      destruct (Qle_bool a x) eqn:A; destruct (Qle_bool x b) eqn:B; try reflexivity.
      apply Qle_bool_iff in A, B. exfalso. apply (Qlt_irrefl b).
      apply Qlt_le_trans with a; [exact Hba|]. apply Qle_trans with x; assumption.
  - intros width lines. unfold clip_sky_lines.
    apply (select_windows (fun l => l - width) (fun l => l + width)).
  - intros z width Hz. unfold clip_host_emission_lines.
    destruct (Qlt_le_dec z 0) as [Hlt|_]; [exfalso; apply (Qlt_not_le z 0); assumption|].
    apply (select_windows (fun l => l * (1 + z) - width) (fun l => l * (1 + z) + width)).
  - intros z width Hz. unfold clip_host_emission_lines.
    destruct (Qlt_le_dec z 0) as [_|Hle]; [reflexivity|].
    exfalso. apply (Qlt_not_le z 0); assumption.
Qed.

Lemma clip_helpers_kept_pairs_witness :
  clip_aband [7600; 7700] [1; 2] (7675, 7575) = or_index_error [7600; 7700] [1; 2] ([7600; 7700], [1; 2]) /\
  clip_host_emission_lines [6563] [1; 2] (-1 # 10) 10 = Ok ([6563], [1; 2]).
Proof.
  split.
  - apply (proj1 (proj2 (clip_helpers_kept_pairs [7600; 7700] [1; 2])) 7675 7575). vm_compute. reflexivity.
  - apply (proj2 (proj2 (proj2 (proj2 (clip_helpers_kept_pairs [6563] [1; 2]))))). vm_compute. reflexivity.
Defined.

(** [pad_to_NW] returns [arr] followed by zeros up to length [NW] when
    [arr] is not longer than [NW]; an array longer than a non-negative
    [NW] raises ValueError, except a single sample with [NW = 0], which
    numpy broadcasts into the empty slice; a negative [NW] raises
    ValueError. *)
Theorem pad_to_NW_spec (arr : list Q) (NW : Z) :
  ((Z.of_nat (length arr) <= NW)%Z ->
     pad_to_NW arr NW = Ok (arr ++ repeat 0 (Z.to_nat NW - length arr))) /\
  ((0 <= NW < Z.of_nat (length arr))%Z ->
     pad_to_NW arr NW = if Nat.eqb (length arr) 1 then Ok [] else Raise ValueError) /\
  ((NW < 0)%Z -> pad_to_NW arr NW = Raise ValueError).
Proof.
  unfold pad_to_NW. split; [|split]; intro H.
  - destruct (Z.eqb_spec (Z.of_nat (length arr)) NW) as [E|E].
    + replace (Z.to_nat NW - length arr)%nat with 0%nat by lia. rewrite app_nil_r. reflexivity.
    + replace (NW <? 0)%Z with false by (symmetry; apply Z.ltb_ge; lia).
      replace (Nat.min (length arr) (Z.to_nat NW)) with (length arr) by lia.
      rewrite Nat.eqb_refl, skipn_repeat_Q. reflexivity.
  - replace (Z.of_nat (length arr) =? NW)%Z with false by (symmetry; apply Z.eqb_neq; lia).
    replace (NW <? 0)%Z with false by (symmetry; apply Z.ltb_ge; lia).
    replace (Nat.min (length arr) (Z.to_nat NW)) with (Z.to_nat NW) by lia.
    replace (Nat.eqb (length arr) (Z.to_nat NW)) with false by (symmetry; apply Nat.eqb_neq; lia).
    destruct (Nat.eqb_spec (length arr) 1) as [E|E]; [|reflexivity].
    replace (Z.to_nat NW) with 0%nat by lia. reflexivity.
  - replace (Z.of_nat (length arr) =? NW)%Z with false by (symmetry; apply Z.eqb_neq; lia).
    replace (NW <? 0)%Z with true by (symmetry; apply Z.ltb_lt; lia). reflexivity.
Qed.

Lemma pad_to_NW_spec_witness :
  pad_to_NW [1; 2] 4 = Ok ([1; 2] ++ repeat 0 2) /\
  pad_to_NW [1; 2; 3] 2 = Raise ValueError /\
  pad_to_NW [5] 0 = Ok [] /\
  pad_to_NW [1] (-1) = Raise ValueError.
Proof.
  split; [|split; [|split]].
  - apply (proj1 (pad_to_NW_spec [1; 2] 4)). cbn. lia.
  - apply (proj1 (proj2 (pad_to_NW_spec [1; 2; 3] 2))). cbn. lia.
  - apply (proj1 (proj2 (pad_to_NW_spec [5] 0))). cbn. lia.
  - apply (proj2 (proj2 (pad_to_NW_spec [1] (-1)))). lia.
Defined.

End MasksProps.

Module ApodizeFacts.
Import Apodize.
Local Open Scope R_scope.

Lemma mul_slice_keeps_length out s ramp : length (mul_slice out s ramp) = length out.
Proof. unfold mul_slice. rewrite length_map, length_combine, length_seq. lia. Qed.

Lemma mul_slice_nth out s ramp i :
  nth i (mul_slice out s ramp) 0 =
    if ((0 <=? Z.of_nat i - s) && (Z.of_nat i - s <? Z.of_nat (length ramp)))%Z
    then nth i out 0 * nth (Z.to_nat (Z.of_nat i - s)) ramp 0
    else nth i out 0.
Proof.
  destruct (Nat.lt_ge_cases i (length out)) as [Hi|Hi].
  - unfold mul_slice.
    set (g := fun jx : nat * R =>
           let k := (Z.of_nat (fst jx) - s)%Z in
           if ((0 <=? k) && (k <? Z.of_nat (length ramp)))%Z
           then snd jx * nth (Z.to_nat k) ramp 0 else snd jx).
    rewrite (nth_indep _ 0 (g (0%nat, 0))) by (rewrite length_map, length_combine, length_seq; lia).
    rewrite map_nth, combine_nth by (rewrite length_seq; reflexivity).
    rewrite seq_nth by exact Hi. reflexivity.
  - rewrite !nth_overflow by (rewrite ?mul_slice_keeps_length; lia).
    destruct (_ && _)%Z; ring.
Qed.

Lemma mul_slice_out out s ramp i :
  (Z.of_nat i < s \/ s + Z.of_nat (length ramp) <= Z.of_nat i)%Z ->
  nth i (mul_slice out s ramp) 0 = nth i out 0.
Proof.
  intro H. rewrite mul_slice_nth.
  replace ((0 <=? Z.of_nat i - s) && (Z.of_nat i - s <? Z.of_nat (length ramp)))%Z with false
    by (symmetry; apply andb_false_iff; destruct H; [left; apply Z.leb_gt | right; apply Z.ltb_ge]; lia).
  reflexivity.
Qed.

Lemma mul_slice_attenuates out s ramp i :
  Forall (fun x => 0 <= x <= 1) ramp ->
  exists c, 0 <= c <= 1 /\ nth i (mul_slice out s ramp) 0 = c * nth i out 0.
Proof.
  intro HF. rewrite mul_slice_nth.
  destruct ((0 <=? Z.of_nat i - s) && (Z.of_nat i - s <? Z.of_nat (length ramp)))%Z eqn:E.
  - apply andb_true_iff in E as [E0 E]. apply Z.leb_le in E0. apply Z.ltb_lt in E.
    exists (nth (Z.to_nat (Z.of_nat i - s)) ramp 0). split; [|ring].
    rewrite Forall_forall in HF. apply HF, nth_In. lia.
  - exists 1. split; [lra|ring].
Qed.

(** The tapering branch of [apodize], with the facts on its ramp. *)
Lemma apodize_cases arr n1 n2 p :
  apodize arr n1 n2 p = arr \/
  exists ns ramp,
    (0 <= n1 /\ n1 <= n2 /\ n2 < Z.of_nat (length arr))%Z /\
    (1 <= ns <= n2 - n1 + 1)%Z /\ length ramp = Z.to_nat ns /\
    Forall (fun x => 0 <= x <= 1) ramp /\ nth 0 ramp 0 = 0 /\
    apodize arr n1 n2 p = mul_slice (mul_slice arr n1 ramp) (n2 - ns + 1) (rev ramp).
Proof.
  unfold apodize.
  destruct (negb _) eqn:Hv; [left; reflexivity|].
  apply negb_false_iff in Hv. rewrite !andb_true_iff, Z.leb_le, Z.leb_le, Z.ltb_lt in Hv.
  destruct p as [percent|]; [|left; reflexivity].
  destruct (Rle_dec percent 0); [left; reflexivity|].
  destruct (n2 - n1 + 1 <=? 0)%Z eqn:Hl; [left; reflexivity|].
  set (ns := Z.min _ _).
  assert (Hns : (ns <= n2 - n1 + 1)%Z).
  { assert (Hint : (py_int_R (IZR (n2 - n1 + 1) / 2) <= n2 - n1 + 1)%Z).
    { unfold py_int_R. destruct (Rle_dec 0 (IZR (n2 - n1 + 1) / 2)) as [H0|H0].
      - destruct (base_Int_part (IZR (n2 - n1 + 1) / 2)) as [Hb _].
        apply le_IZR. apply Rle_trans with (IZR (n2 - n1 + 1) / 2); [exact Hb|].
        assert (0 <= IZR (n2 - n1 + 1)) by (apply IZR_le; lia). lra.
      - exfalso. apply H0. assert (0 <= IZR (n2 - n1 + 1)) by (apply IZR_le; lia). lra. }
    unfold ns. lia. }
  destruct (ns <? 1)%Z eqn:H1; [left; reflexivity|]. apply Z.ltb_ge in H1.
  set (ramp := if (ns =? 1)%Z then _ else _).
  assert (Hr : length ramp = Z.to_nat ns /\ Forall (fun x => 0 <= x <= 1) ramp /\ nth 0 ramp 0 = 0).
  { unfold ramp. destruct (Z.eqb_spec ns 1) as [E|E].
    - rewrite E. split; [reflexivity|]. split; [|reflexivity].
      constructor; [lra|constructor].
    - rewrite length_map, length_seq. split; [reflexivity|]. split.
      + apply Forall_forall. intros x Hx. apply in_map_iff in Hx as [k [<- _]].
        pose proof (COS_bound (PI * INR k / (IZR ns - 1))). lra.
      + replace (Z.to_nat ns) with (S (Z.to_nat ns - 1)) by lia. cbn [seq map nth].
        rewrite Rmult_0_r. unfold Rdiv. rewrite Rmult_0_l, cos_0. lra. }
  destruct ((n1 + ns >? Z.of_nat (length arr)) || (n2 - ns + 1 <? 0))%Z eqn:Hg;
    [left; reflexivity|].
  right. exists ns, ramp. destruct Hr as (Hr1 & Hr2 & Hr3).
  repeat split; try lia; assumption.
Qed.

End ApodizeFacts.

Module ApodizeProps.
Import Apodize ApodizeFacts.
Local Open Scope R_scope.

(** [apodize] keeps the length of its input, leaves every sample outside
    [n1, n2] unchanged, and only scales each sample by a factor in
    [0, 1] (the raised-cosine weights).  When it tapers at all, the two
    edge samples [n1] and [n2] become 0. *)
Theorem apodize_taper_shape arr n1 n2 p :
  length (apodize arr n1 n2 p) = length arr /\
  (forall i, (Z.of_nat i < n1 \/ n2 < Z.of_nat i)%Z ->
     nth i (apodize arr n1 n2 p) 0 = nth i arr 0) /\
  (forall i, exists c, 0 <= c <= 1 /\ nth i (apodize arr n1 n2 p) 0 = c * nth i arr 0) /\
  (apodize arr n1 n2 p = arr \/
   (nth (Z.to_nat n1) (apodize arr n1 n2 p) 0 = 0 /\ nth (Z.to_nat n2) (apodize arr n1 n2 p) 0 = 0)).
Proof.
  destruct (apodize_cases arr n1 n2 p) as [E|(ns & ramp & Hv & Hns & Hl & HF & H0 & E)];
    rewrite E.
  - split; [reflexivity|]. split; [reflexivity|]. split; [|left; reflexivity].
    intro i. exists 1. split; [lra|ring].
  - assert (HFr : Forall (fun x => 0 <= x <= 1) (rev ramp))
      by (apply Forall_forall; intros x Hx; apply in_rev in Hx; rewrite Forall_forall in HF; auto).
    split; [rewrite !mul_slice_keeps_length; reflexivity|]. split; [|split].
    + intros i Hi. rewrite mul_slice_out by (rewrite length_rev; lia).
      apply mul_slice_out. lia.
    + intro i. destruct (mul_slice_attenuates (mul_slice arr n1 ramp) (n2 - ns + 1) (rev ramp) i HFr)
        as [c2 [Hc2 ->]].
      destruct (mul_slice_attenuates arr n1 ramp i HF) as [c1 [Hc1 ->]].
      exists (c2 * c1). split; [|ring]. split.
      * apply Rmult_le_pos; lra.
      * rewrite <- (Rmult_1_l 1). apply Rmult_le_compat; lra.
    + right. split.
      * assert (I : nth (Z.to_nat n1) (mul_slice arr n1 ramp) 0 = 0).
        { rewrite mul_slice_nth. replace (Z.of_nat (Z.to_nat n1) - n1)%Z with 0%Z by lia.
          rewrite Hl.
          replace ((0 <=? 0) && (0 <? Z.of_nat (Z.to_nat ns)))%Z with true
            by (symmetry; apply andb_true_iff; split; [apply Z.leb_refl|apply Z.ltb_lt; lia]).
          cbn [Z.to_nat]. rewrite H0. ring. }
        rewrite mul_slice_nth, I. destruct (_ && _)%Z; ring.
      * rewrite mul_slice_nth, length_rev, Hl.
        replace (Z.of_nat (Z.to_nat n2) - (n2 - ns + 1))%Z with (ns - 1)%Z by lia.
        replace ((0 <=? ns - 1) && (ns - 1 <? Z.of_nat (Z.to_nat ns)))%Z with true
          by (symmetry; apply andb_true_iff; split; [apply Z.leb_le|apply Z.ltb_lt]; lia).
        rewrite rev_nth by lia. rewrite Hl.
        replace (Z.to_nat ns - S (Z.to_nat (ns - 1)))%nat with 0%nat by lia.
        rewrite H0. ring.
Qed.

Lemma apodize_taper_shape_witness :
  nth 0 (apodize [1; 1; 1; 1; 1] 1 3 (Some 50)) 0 = nth 0 [1; 1; 1; 1; 1] 0.
Proof. apply (proj1 (proj2 (apodize_taper_shape [1; 1; 1; 1; 1] 1 3 (Some 50))) 0%nat). lia. Defined.

End ApodizeProps.

Module SavgolProps.
Import Savgol SavgolFacts.
Local Open Scope Q_scope.

Lemma savgol_filter_ok_length (data : list Q) w p r :
  savgol_filter data w p = Ok r -> length r = length data.
Proof.
  unfold savgol_filter. destruct (Nat.leb w p); [discriminate|].
  destruct (Nat.ltb _ _); [discriminate|].
  intro E. injection E as <-. unfold savgol_core. rewrite length_map, length_seq. reflexivity.
Qed.

Lemma np_diff_length (l : list Q) : length (np_diff l) = pred (length l).
Proof.
  unfold np_diff. rewrite length_map, length_combine.
  destruct l; cbn [length tl pred]; lia.
Qed.

Lemma wavelength_window_short int_window (wave : list Q) fwhm :
  (length wave < 2)%nat -> wavelength_window int_window wave fwhm = Raise ValueError.
Proof.
  intro H. unfold wavelength_window.
  destruct (np_diff wave) eqn:E; [reflexivity|].
  apply (f_equal (@length Q)) in E. rewrite np_diff_length in E. cbn in E. lia.
Qed.

Lemma wavelength_window_long int_window (wave : list Q) fwhm :
  (2 <= length wave)%nat ->
  wavelength_window int_window wave fwhm =
  let* w := int_window wave fwhm in
  Ok (if Z.even (Z.max 3 w) then Z.max 3 w + 1 else Z.max 3 w)%Z.
Proof.
  intro H. unfold wavelength_window.
  destruct (np_diff wave) eqn:E; [|reflexivity].
  apply (f_equal (@length Q)) in E. rewrite np_diff_length in E. cbn in E. lia.
Qed.

(** The tail of [savgol_filter_wavelength] once a window is known. *)
Lemma savgol_tail_length (data : list Q) w polyorder r :
  (if (Z.min w (Z.of_nat (length data)) <? 3)%Z then Ok data else
   Ok (match savgol_filter data (Z.to_nat (Z.min w (Z.of_nat (length data))))
               (Nat.min polyorder (Z.to_nat (Z.min w (Z.of_nat (length data))) - 1)) with
       | Ok r => r
       | Raise _ => data
       end)) = Ok r ->
  length r = length data.
Proof.
  destruct (_ <? 3)%Z; intro H; injection H as <-; [reflexivity|].
  destruct (savgol_filter data _ _) eqn:Es; [|reflexivity].
  exact (savgol_filter_ok_length _ _ _ _ Es).
Qed.

(** [savgol_filter_wavelength] raises ValueError for arrays of different
    lengths and returns the data for a FWHM [<= 0].  Otherwise it raises
    ValueError for fewer than two wavelengths, and else its outcome is that
    of the float64 step [int(2 * sigma / avg_dwl)]: an error of that step is
    raised as is, and a window gives an array of the data's length.  Every
    result has the data's length, and it raises nothing but ValueError and
    OverflowError as long as that step raises nothing else. *)
Theorem savgol_filter_wavelength_outcomes int_window (wave data : list Q) fwhm_angstrom polyorder :
  (length data <> length wave ->
     savgol_filter_wavelength int_window wave data fwhm_angstrom polyorder = Raise ValueError) /\
  (length data = length wave -> fwhm_angstrom <= 0 ->
     savgol_filter_wavelength int_window wave data fwhm_angstrom polyorder = Ok data) /\
  (length data = length wave -> 0 < fwhm_angstrom ->
     ((length wave < 2)%nat ->
        savgol_filter_wavelength int_window wave data fwhm_angstrom polyorder = Raise ValueError) /\
     ((2 <= length wave)%nat -> forall e, int_window wave fwhm_angstrom = Raise e ->
        savgol_filter_wavelength int_window wave data fwhm_angstrom polyorder = Raise e) /\
     ((2 <= length wave)%nat -> forall k, int_window wave fwhm_angstrom = Ok k ->
        exists r, savgol_filter_wavelength int_window wave data fwhm_angstrom polyorder = Ok r /\
                  length r = length data)) /\
  (forall r, savgol_filter_wavelength int_window wave data fwhm_angstrom polyorder = Ok r ->
     length r = length data) /\
  ((forall e, int_window wave fwhm_angstrom = Raise e -> e = ValueError \/ e = OverflowError) ->
   forall e, savgol_filter_wavelength int_window wave data fwhm_angstrom polyorder = Raise e ->
     e = ValueError \/ e = OverflowError).
Proof.
  unfold savgol_filter_wavelength.
  split; [|split; [|split; [|split]]].
  - intro Hne. apply Nat.eqb_neq in Hne. rewrite Hne. reflexivity.
  - intros E Hf. rewrite E, Nat.eqb_refl. cbn [negb fleb f0 Q_PyFloat].
    replace (Qle_bool fwhm_angstrom 0) with true by (symmetry; apply Qle_bool_iff; exact Hf).
    reflexivity.
  - intros E Hf. rewrite E, Nat.eqb_refl. cbn [negb fleb f0 Q_PyFloat].
    replace (Qle_bool fwhm_angstrom 0) with false
      by (symmetry; apply not_true_iff_false; intro T; apply Qle_bool_iff in T;
          apply (Qlt_not_le _ _ Hf T)).
    split; [|split].
    + intro H2. rewrite wavelength_window_short by exact H2. reflexivity.
    + intros H2 e He. rewrite wavelength_window_long by exact H2. rewrite He. reflexivity.
    + intros H2 k Hk. rewrite wavelength_window_long by exact H2. rewrite Hk. cbn [py_bind].
      destruct (_ <? 3)%Z; (eexists; split; [reflexivity|]); [exact E|].
      destruct (savgol_filter data _ _) eqn:Es; [|exact E].
      rewrite <- E. exact (savgol_filter_ok_length _ _ _ _ Es).
  - intros r. destruct (negb _) eqn:Hn; [discriminate|].
    apply negb_false_iff, Nat.eqb_eq in Hn.
    destruct (fleb fwhm_angstrom f0); [intro H; injection H as <-; reflexivity|].
    destruct (wavelength_window int_window wave fwhm_angstrom) as [w|e]; [|discriminate].
    cbn [py_bind]. apply savgol_tail_length.
  - intros Hiw e. destruct (negb _); [intro H; injection H as <-; now left|].
    destruct (fleb fwhm_angstrom f0); [discriminate|].
    unfold wavelength_window.
    destruct (np_diff wave); [intro H; injection H as <-; now left|].
    destruct (int_window wave fwhm_angstrom) as [k|e'] eqn:Hk.
    + cbn [py_bind]. destruct (_ <? 3)%Z; discriminate.
    + cbn [py_bind]. intro H. injection H as <-. now apply Hiw.
Qed.

Lemma savgol_filter_wavelength_outcomes_witness :
  (exists r, savgol_filter_wavelength exact_int_window [1; 2] [3; 4] 10 3 = Ok r /\
             length r = 2%nat) /\
  savgol_filter_wavelength exact_int_window [5] [3] 10 3 = Raise ValueError /\
  savgol_filter_wavelength exact_int_window [5; 7; 5] [3; 4; 6] 10 3 = Raise OverflowError /\
  (forall e, savgol_filter_wavelength exact_int_window [5; 7; 5] [3; 4; 6] 10 3 = Raise e ->
     e = ValueError \/ e = OverflowError).
Proof.
  split; [|split; [|split]].
  - destruct (savgol_filter_wavelength_outcomes exact_int_window [1; 2] [3; 4] 10 3%nat)
      as (_ & _ & H & _).
    destruct (H eq_refl) as (_ & _ & H3); [vm_compute; reflexivity|].
    apply (H3 ltac:(cbn; lia) 8%Z). vm_compute. reflexivity.
  - destruct (savgol_filter_wavelength_outcomes exact_int_window [5] [3] 10 3%nat)
      as (_ & _ & H & _).
    destruct (H eq_refl) as (H1 & _ & _); [vm_compute; reflexivity|].
    apply H1. cbn. lia.
  - destruct (savgol_filter_wavelength_outcomes exact_int_window [5; 7; 5] [3; 4; 6] 10 3%nat)
      as (_ & _ & H & _).
    destruct (H eq_refl) as (_ & H2 & _); [vm_compute; reflexivity|].
    apply H2; [cbn; lia|vm_compute; reflexivity].
  - apply (proj2 (proj2 (proj2 (proj2
      (savgol_filter_wavelength_outcomes exact_int_window [5; 7; 5] [3; 4; 6] 10 3%nat))))).
    intros e H. vm_compute in H. injection H as <-. now right.
Defined.

End SavgolProps.

Module ContinuumFitFacts.
Import Spline SplineFacts ContinuumFit.
Local Open Scope Q_scope.

Lemma bind_ok {A B} (r : py_result A) (k : A -> py_result B) x :
  py_bind r k = Ok x -> exists a, r = Ok a /\ k a = Ok x.
Proof. destruct r as [a|e]; cbn; [eauto|discriminate]. Qed.

Ltac bind_inv H :=
  let a := fresh "a" in let Ha := fresh "Ha" in
  apply bind_ok in H; destruct H as [a [Ha H]].

Lemma py_mapM_length {A B : Type} (f : A -> py_result B) (l : list A) ys :
  py_mapM f l = Ok ys -> length ys = length l.
Proof.
  revert ys. induction l as [|x l IH]; intros ys H; cbn [py_mapM] in H.
  - injection H as <-. reflexivity.
  - bind_inv H. bind_inv H. injection H as <-. cbn. rewrite (IH _ Ha0). reflexivity.
Qed.

Lemma spline_continuum_shape pow10 (flux xknot yknot : list Q) flat cont :
  spline_continuum pow10 flux xknot yknot = Ok (flat, cont) ->
  flat = flat_of flux cont /\ length cont = length flux.
Proof.
  unfold spline_continuum. cbv zeta. intro H.
  do 11 bind_inv H.
  destruct a9 as [u z].
  do 2 bind_inv H. injection H as <- <-.
  split; [reflexivity|].
  apply py_mapM_length in Ha11. rewrite Ha11, zrange_length. lia.
Qed.

Lemma map_idx_length f l : length (map_idx f l) = length l.
Proof. unfold map_idx. rewrite length_map, length_combine, length_seq. lia. Qed.

Lemma map_idx_nth f l i :
  (i < length l)%nat -> nth i (map_idx f l) 0 = f (Z.of_nat i) (nth i l 0).
Proof.
  intro Hi. unfold map_idx.
  set (g := fun p : nat * Q => f (Z.of_nat (fst p)) (snd p)).
  rewrite (nth_indep _ 0 (g (0%nat, 0))) by (rewrite length_map, length_combine, length_seq; lia).
  rewrite map_nth, combine_nth by (rewrite length_seq; reflexivity).
  rewrite seq_nth by exact Hi. reflexivity.
Qed.

Lemma flat_of_length flux cont :
  length cont = length flux -> length (flat_of flux cont) = length flux.
Proof. intro E. unfold flat_of. rewrite length_map, length_combine. lia. Qed.

Lemma flat_of_rel flux cont i :
  length cont = length flux -> flat_rel flux (flat_of flux cont) cont i.
Proof.
  intro E. unfold flat_rel.
  destruct (Nat.lt_ge_cases i (length flux)) as [Hi|Hi].
  - unfold flat_of.
    set (g := fun fc : Q * Q => if negb (Qle_bool (fst fc) 0) && negb (Qle_bool (snd fc) 0)
                 then fst fc / snd fc - 1 else 0).
    rewrite (nth_indep _ 0 (g (0, 0))) by (rewrite length_map, length_combine; lia).
    rewrite map_nth, combine_nth by lia. unfold g. cbn [fst snd].
    destruct (Qle_bool (nth i flux 0) 0) eqn:A; [left; reflexivity|].
    destruct (Qle_bool (nth i cont 0) 0) eqn:B; [left; reflexivity|].
    right. cbn [negb andb].
    apply not_true_iff_false in A, B. rewrite Qle_bool_iff in A, B.
    split; [apply Qnot_le_lt; exact A|]. split; [apply Qnot_le_lt; exact B|reflexivity].
  - left. apply nth_overflow. rewrite flat_of_length by exact E. exact Hi.
Qed.

Lemma zeros_ones_rel flux n i : flat_rel flux (zeros n) (ones n) i.
Proof.
  left. unfold zeros. destruct (Nat.lt_ge_cases i n).
  - apply nth_repeat_lt. exact H.
  - apply nth_overflow. rewrite repeat_length. exact H.
Qed.

Lemma fit_continuum_spline_shape log10 pow10 flux knotnum izoff flat cont :
  fit_continuum_spline log10 pow10 flux knotnum izoff = Ok (flat, cont) ->
  length flat = length flux /\ length cont = length flux /\ forall i, flat_rel flux flat cont i.
Proof.
  unfold fit_continuum_spline. cbv zeta.
  assert (T : Ok (zeros (length flux), ones (length flux)) = Ok (flat, cont) ->
              length flat = length flux /\ length cont = length flux /\ forall i, flat_rel flux flat cont i).
  { intro H. injection H as <- <-. unfold zeros, ones. rewrite !repeat_length.
    split; [reflexivity|]. split; [reflexivity|]. intro i. apply zeros_ones_rel. }
  destruct (_ || _)%Z; [exact T|].
  intro H. bind_inv H. destruct a as [l1 l2].
  destruct (l2 - l1 <? 3 * knotnum)%Z; [exact (T H)|].
  bind_inv H. destruct (Nat.ltb _ 3); [exact (T H)|].
  apply spline_continuum_shape in H as [-> Hc].
  split; [apply flat_of_length, Hc|]. split; [exact Hc|]. intro i. apply flat_of_rel, Hc.
Qed.

Lemma positive_indices_in flux k :
  In k (positive_indices flux) ->
  (0 <= k < Z.of_nat (length flux))%Z /\ 0 < nth (Z.to_nat k) flux 0.
Proof.
  unfold positive_indices. intro H. apply in_map_iff in H as [i [<- Hi]].
  apply filter_In in Hi as [Hi Hp]. apply in_seq in Hi.
  split; [lia|]. rewrite Nat2Z.id. apply negb_true_iff, not_true_iff_false in Hp.
  rewrite Qle_bool_iff in Hp. apply Qnot_le_lt, Hp.
Qed.

Lemma positive_indices_nil flux :
  positive_indices flux = [] <-> forall i, nth i flux 0 <= 0.
Proof.
  unfold positive_indices. split.
  - intros H i. destruct (Nat.lt_ge_cases i (length flux)) as [Hi|Hi].
    + destruct (Qle_bool (nth i flux 0) 0) eqn:E; [apply Qle_bool_iff, E|].
      exfalso. assert (In i (filter (fun i => negb (Qle_bool (nth i flux 0) 0)) (seq 0 (length flux)))).
      { apply filter_In. split; [apply in_seq; lia|rewrite E; reflexivity]. }
      destruct (filter _ _); [contradiction|discriminate].
    + rewrite nth_overflow by exact Hi. apply Qle_refl.
  - intro H. destruct (filter _ _) as [|i l] eqn:E; [reflexivity|].
    exfalso. assert (Hi : In i (filter (fun i => negb (Qle_bool (nth i flux 0) 0)) (seq 0 (length flux))))
      by (rewrite E; left; reflexivity).
    apply filter_In in Hi as [_ Hp]. rewrite (proj2 (Qle_bool_iff _ _) (H i)) in Hp. discriminate.
Qed.

Lemma last_in {A} (l : list A) d : l <> [] -> In (last l d) l.
Proof.
  induction l as [|x l IH]; intro H; [contradiction|].
  destruct l as [|y l]; [left; reflexivity|]. right. apply IH. discriminate.
Qed.

Lemma zero_outside_shape flux flat cont :
  length flat = length flux -> length cont = length flux ->
  (forall i, flat_rel flux flat cont i) ->
  length (fst (zero_outside flux flat cont)) = length flux /\
  length (snd (zero_outside flux flat cont)) = length flux /\
  (forall i, flat_rel flux (fst (zero_outside flux flat cont)) (snd (zero_outside flux flat cont)) i) /\
  (forall i, (exists j, 0 < nth j flux 0) ->
     ((forall j, (j <= i)%nat -> nth j flux 0 <= 0) \/ (forall j, (i <= j)%nat -> nth j flux 0 <= 0)) ->
     nth i (fst (zero_outside flux flat cont)) 0 = 0 /\ nth i (snd (zero_outside flux flat cont)) 0 = 0).
Proof.
  intros Hf Hc Hr. unfold zero_outside.
  destruct (positive_indices flux) as [|k ks] eqn:P.
  - cbn [fst snd]. split; [exact Hf|]. split; [exact Hc|]. split; [exact Hr|].
    intros i [j Hj]. apply positive_indices_nil with (i := j) in P.
    exfalso. apply (Qlt_not_le _ _ Hj P).
  - set (i0 := hd 0%Z (k :: ks)). set (i1 := last (k :: ks) 0%Z).
    set (z := fun idx x => if ((idx <? i0) || (i1 <? idx))%Z then 0 else x).
    cbn [fst snd]. rewrite !map_idx_length.
    split; [exact Hf|]. split; [exact Hc|]. split.
    + intro i. destruct (Nat.lt_ge_cases i (length flux)) as [Hi|Hi].
      * unfold flat_rel. rewrite !map_idx_nth by lia. unfold z.
        destruct (_ || _)%Z; [left; reflexivity|apply Hr].
      * left. apply nth_overflow. rewrite map_idx_length. lia.
    + intros i _ Hout.
      destruct (Nat.lt_ge_cases i (length flux)) as [Hi|Hi].
      * rewrite !map_idx_nth by lia. unfold z.
        replace ((Z.of_nat i <? i0) || (i1 <? Z.of_nat i))%Z with true; [split; reflexivity|].
        assert (H0 : In i0 (positive_indices flux)) by (rewrite P; left; reflexivity).
        assert (H1 : In i1 (positive_indices flux)) by (rewrite P; apply last_in; discriminate).
        apply positive_indices_in in H0 as [B0 F0]. apply positive_indices_in in H1 as [B1 F1].
        symmetry. apply orb_true_iff. destruct Hout as [Hl|Hr'].
        -- left. apply Z.ltb_lt. destruct (Z_lt_le_dec (Z.of_nat i) i0) as [L|L]; [exact L|].
           exfalso. apply (Qlt_not_le _ _ F0). apply Hl. lia.
        -- right. apply Z.ltb_lt. destruct (Z_lt_le_dec i1 (Z.of_nat i)) as [L|L]; [exact L|].
           exfalso. apply (Qlt_not_le _ _ F1). apply Hr'. lia.
      * split; apply nth_overflow; rewrite map_idx_length; lia.
Qed.

Lemma slice_assign_length l a b v l' :
  slice_assign l a b v = Ok l' -> length l' = length l.
Proof.
  unfold slice_assign. cbv zeta.
  set (m := (Nat.min (Z.to_nat b) (length l) - Z.to_nat a)%nat).
  destruct (if Nat.eqb (length v) m then _ else _) as [v'|] eqn:E; [|discriminate].
  intro H. injection H as <-.
  assert (Ev : length v' = m).
  { revert E. destruct (Nat.eqb_spec (length v) m) as [Em|_].
    - intro E. injection E as <-. exact Em.
    - destruct (Nat.eqb (length v) 1); [|discriminate]. intro E. injection E as <-. apply repeat_length. }
  rewrite !length_app, length_firstn, length_skipn, Ev. unfold m. lia.
Qed.

Ltac ok_len H :=
  repeat match type of H with
  | (if ?c then _ else _) = Ok _ => destruct c
  | py_bind _ _ = Ok _ => bind_inv H
  | Ok _ = Ok _ => injection H as <-
  end.

Lemma gaussian_fit_shape gf med flux sigma flat cont :
  gaussian_fit gf med flux sigma = Ok (flat, cont) ->
  flat = flat_of flux cont /\ length cont = length flux.
Proof.
  unfold gaussian_fit. cbv zeta. intro H.
  destruct (if (2 * _ <? _)%Z then _ else _) as [i0 i1].
  destruct (if (i1 - i0 <? 10)%Z then _ else _) as [j0 j1].
  bind_inv H. bind_inv H. bind_inv H. injection H as <- <-. split; [reflexivity|].
  apply slice_assign_length in Ha. unfold ones in Ha. rewrite repeat_length in Ha.
  ok_len Ha0; ok_len Ha1; rewrite ?map_idx_length; congruence.
Qed.

Lemma py_get_in (l : list Q) k :
  (0 <= k < Z.of_nat (length l))%Z -> py_get l k = Ok (nth (Z.to_nat k) l 0).
Proof. intro H. unfold py_get. rewrite py_norm_index_in by exact H. reflexivity. Qed.

Lemma chop_l1_nonpos (flux : list Q) fuel l1 nuked :
  (forall i, nth i flux 0 <= 0) ->
  (0 <= l1 <= Z.of_nat (length flux) - 1)%Z -> (Z.of_nat (length flux) - 1 - l1 <= Z.of_nat fuel)%Z ->
  chop_l1 fuel flux (Z.of_nat (length flux)) l1 nuked = Ok (Z.of_nat (length flux) - 1)%Z.
Proof.
  intro Hn. revert l1 nuked. induction fuel as [|fuel IH]; intros l1 nuked Hl Hf; cbn [chop_l1].
  - f_equal. lia.
  - destruct (Z.ltb_spec l1 (Z.of_nat (length flux) - 1)) as [L|L]; [|f_equal; lia].
    rewrite py_get_in by lia. cbn [py_bind].
    rewrite (proj2 (Qle_bool_iff _ _) (Hn _)). cbn [orb].
    apply IH; lia.
Qed.

Lemma chop_l2_nonpos (flux : list Q) fuel l2 nuked :
  (forall i, nth i flux 0 <= 0) ->
  (1 <= l2 <= Z.of_nat (length flux) - 1)%Z -> (l2 - 1 <= Z.of_nat fuel)%Z ->
  chop_l2 fuel flux l2 nuked = Ok 1%Z.
Proof.
  intro Hn. revert l2 nuked. induction fuel as [|fuel IH]; intros l2 nuked Hl Hf; cbn [chop_l2].
  - f_equal. lia.
  - destruct (Z.ltb_spec 1 l2) as [L|L]; [|f_equal; lia].
    rewrite py_get_in by lia. cbn [py_bind].
    rewrite (proj2 (Qle_bool_iff _ _) (Hn _)). cbn [orb].
    apply IH; lia.
Qed.

Lemma fit_continuum_spline_nonpos log10 pow10 (flux : list Q) knotnum izoff :
  (forall i, nth i flux 0 <= 0) ->
  fit_continuum_spline log10 pow10 flux knotnum izoff = Ok (zeros (length flux), ones (length flux)).
Proof.
  intro Hn. unfold fit_continuum_spline. cbv zeta.
  destruct ((Z.of_nat (length flux) <? 10) || (knotnum <? 3))%Z eqn:E; [reflexivity|].
  apply orb_false_iff in E as [E1 E2]. apply Z.ltb_ge in E1, E2.
  unfold chop_ends. rewrite chop_l1_nonpos by (auto; lia). cbn [py_bind].
  rewrite chop_l2_nonpos by (auto; lia). cbn [py_bind].
  replace (1 - (Z.of_nat (length flux) - 1) <? 3 * knotnum)%Z with true
    by (symmetry; apply Z.ltb_lt; lia).
  reflexivity.
Qed.

Lemma filter_none {A} (f : A -> bool) l : (forall x, In x l -> f x = false) -> filter f l = [].
Proof.
  induction l as [|x l IH]; intro H; cbn; [reflexivity|].
  rewrite H by (left; reflexivity). apply IH. intros y Hy. apply H. right. exact Hy.
Qed.

Lemma positive_indices_single (flux : list Q) p :
  (p < length flux)%nat -> 0 < nth p flux 0 -> (forall i, i <> p -> nth i flux 0 <= 0) ->
  positive_indices flux = [Z.of_nat p].
Proof.
  intros Hp Hpos Hn. unfold positive_indices.
  replace (length flux) with (p + (1 + (length flux - S p)))%nat by lia.
  rewrite !seq_app, !filter_app. cbn [seq plus].
  rewrite (filter_none _ (seq 0 p)), (filter_none _ (seq _ (length flux - S p))).
  - cbn. replace (Qle_bool (nth p flux 0) 0) with false; [reflexivity|].
    symmetry. apply not_true_iff_false. rewrite Qle_bool_iff. apply Qlt_not_le, Hpos.
  - intros x Hx. apply in_seq in Hx. rewrite (proj2 (Qle_bool_iff _ _) (Hn x ltac:(lia))). reflexivity.
  - intros x Hx. apply in_seq in Hx. rewrite (proj2 (Qle_bool_iff _ _) (Hn x ltac:(lia))). reflexivity.
Qed.

Lemma py_slice_one (l : list Q) p :
  (p < length l)%nat -> py_slice l (Z.of_nat p) (Z.of_nat p + 1) = [nth p l 0].
Proof.
  intro Hp. unfold py_slice. rewrite Nat2Z.id. replace (Z.to_nat (Z.of_nat p + 1) - p)%nat with 1%nat by lia.
  revert l Hp. induction p as [|p IH]; intros [|x l] Hp; cbn in Hp |- *; try lia.
  - reflexivity.
  - apply IH. lia.
Qed.

Lemma gaussian_fit_single gf med (flux : list Q) sigma p :
  (0 < p)%nat -> (S p < length flux)%nat -> 0 < nth p flux 0 -> (forall i, i <> p -> nth i flux 0 <= 0) ->
  gaussian_fit gf med flux sigma =
    Raise (if Nat.eqb (length (gf [nth p flux 0] sigma)) 1 then IndexError else ValueError).
Proof.
  intros H0 Hp Hpos Hn. unfold gaussian_fit.
  rewrite (positive_indices_single flux p) by (auto; lia).
  cbn [hd last length].
  replace (Z.min 3 (Z.of_nat 1 / 10))%Z with 0%Z by reflexivity.
  cbn [zrange]. 
  replace (2 * 0 <? Z.of_nat 1)%Z with true by reflexivity.
  cbv zeta. cbn [skip_start skip_end zrange seq map Z.to_nat].
  rewrite Z.sub_diag. cbn [Z.ltb Z.compare].
  rewrite py_slice_one by lia.
  unfold slice_assign at 1.
  unfold ones. rewrite repeat_length, Nat2Z.id.
  replace (Nat.min (Z.to_nat (Z.of_nat p + 1)) (length flux) - p)%nat with 1%nat by lia.
  destruct (gf [nth p flux 0] sigma) as [|x [|y c]]; cbn [length Nat.eqb py_bind]; try reflexivity.
  replace (0 <? Z.of_nat p)%Z with true by (symmetry; apply Z.ltb_lt; lia).
  rewrite !length_app, length_firstn, length_skipn, repeat_length. cbn [length].
  replace (Z.of_nat p + 1 <? Z.of_nat (Nat.min p (length flux) + (1 + (length flux - (p + 1)))))%Z
    with true by (symmetry; apply Z.ltb_lt; lia).
  reflexivity.
Qed.

Lemma zero_outside_final (flux fl co flat cont : list Q) :
  length fl = length flux -> length co = length flux -> (forall i, flat_rel flux fl co i) ->
  zero_outside flux fl co = (flat, cont) ->
  length flat = length flux /\ length cont = length flux /\ (forall i, flat_rel flux flat cont i) /\
  (forall i, (exists j, 0 < nth j flux 0) ->
     ((forall j, (j <= i)%nat -> nth j flux 0 <= 0) \/ (forall j, (i <= j)%nat -> nth j flux 0 <= 0)) ->
     nth i flat 0 = 0 /\ nth i cont 0 = 0).
Proof.
  intros Hf Hc Hr E. pose proof (zero_outside_shape flux fl co Hf Hc Hr) as Z. rewrite E in Z. exact Z.
Qed.

Lemma fit_continuum_inv log10 pow10 gf med auto (flux : list Q) method knotnum izoff sigma flat cont :
  fit_continuum log10 pow10 gf med auto flux method knotnum izoff sigma = Ok (flat, cont) ->
  length flat = length flux /\ length cont = length flux /\ (forall i, flat_rel flux flat cont i) /\
  (forall i, (exists j, 0 < nth j flux 0) ->
     ((forall j, (j <= i)%nat -> nth j flux 0 <= 0) \/ (forall j, (i <= j)%nat -> nth j flux 0 <= 0)) ->
     nth i flat 0 = 0 /\ nth i cont 0 = 0).
Proof.
  unfold fit_continuum. intro H.
  destruct (String.eqb method "spline").
  - bind_inv H. destruct a as [fl co]. injection H as H.
    apply fit_continuum_spline_shape in Ha as (Hf & Hc & Hr).
    exact (zero_outside_final flux fl co flat cont Hf Hc Hr H).
  - destruct (String.eqb method "gaussian"); [|discriminate].
    destruct (positive_indices flux) as [|k ks] eqn:P.
    + injection H as <- <-. unfold zeros, ones. rewrite !repeat_length.
      split; [reflexivity|]. split; [reflexivity|]. split; [intro i; apply zeros_ones_rel|].
      intros i [j Hj]. exfalso. apply positive_indices_nil with (i := j) in P.
      apply (Qlt_not_le _ _ Hj P).
    + bind_inv H. destruct a as [fl co]. injection H as H.
      apply gaussian_fit_shape in Ha as [-> Hc].
      apply (zero_outside_final flux (flat_of flux co) co); auto.
      * apply flat_of_length, Hc.
      * intro i. apply flat_of_rel, Hc.
Qed.

End ContinuumFitFacts.

Module ContinuumFitProps.
Import Spline SplineFacts ContinuumFit ContinuumFitFacts.
Local Open Scope Q_scope.

(** Whatever the method, a result [(flat, cont)] of [fit_continuum] has
    the length of [flux]; [flat] is 0 at every pixel whose flux is not
    positive; and when some flux is positive, both [flat] and [cont] are 0
    before the first and after the last positive pixel. *)
Theorem fit_continuum_shape log10 pow10 gf med auto (flux : list Q) method knotnum izoff sigma flat cont :
  fit_continuum log10 pow10 gf med auto flux method knotnum izoff sigma = Ok (flat, cont) ->
  length flat = length flux /\ length cont = length flux /\
  (forall i, nth i flux 0 <= 0 -> nth i flat 0 = 0) /\
  (forall i, (exists j, 0 < nth j flux 0) ->
     ((forall j, (j <= i)%nat -> nth j flux 0 <= 0) \/ (forall j, (i <= j)%nat -> nth j flux 0 <= 0)) ->
     nth i flat 0 = 0 /\ nth i cont 0 = 0).
Proof.
  intro H. apply fit_continuum_inv in H as (Hf & Hc & Hr & Ho).
  split; [exact Hf|]. split; [exact Hc|]. split; [|exact Ho].
  intros i Hi. destruct (Hr i) as [E|(P & _)]; [exact E|].
  exfalso. apply (Qlt_not_le _ _ P Hi).
Qed.

(** [unflatten_on_loggrid] on the output of [fit_continuum] returns an
    array of the flux's length that equals the continuum at every pixel
    whose flux is not positive (there [flat] is exactly 0, and
    [(0 + 1) * cont] is [cont] in float64 too), and is 0 before the first
    and after the last positive pixel. *)
Theorem fit_continuum_unflatten log10 pow10 gf med auto (flux : list Q) method knotnum izoff sigma flat cont :
  fit_continuum log10 pow10 gf med auto flux method knotnum izoff sigma = Ok (flat, cont) ->
  exists r, unflatten_on_loggrid flat cont = Ok r /\ length r = length flux /\
    (forall i, nth i flux 0 <= 0 -> nth i r 0 == nth i cont 0) /\
    (forall i, (exists j, 0 < nth j flux 0) ->
       ((forall j, (j <= i)%nat -> nth j flux 0 <= 0) \/ (forall j, (i <= j)%nat -> nth j flux 0 <= 0)) ->
       nth i r 0 == 0).
Proof.
  intro H. apply fit_continuum_inv in H as (Hf & Hc & Hr & Ho).
  unfold unflatten_on_loggrid, np_broadcast. rewrite length_map, Hf, Hc, Nat.eqb_refl.
  eexists. split; [reflexivity|].
  set (g := fun p : Q * Q => fst p * snd p).
  set (h := fun x : Q => x + 1).
  assert (Hlen : length (map g (combine (map h flat) cont)) = length flux)
    by (rewrite length_map, length_combine, length_map; lia).
  assert (Hz : forall i, nth i flat 0 = 0 ->
            nth i (map g (combine (map h flat) cont)) 0 == nth i cont 0).
  { intros i Ei. destruct (Nat.lt_ge_cases i (length flux)) as [Hi|Hi].
    - rewrite (nth_indep (map g _) 0 (g (0, 0))) by lia.
      rewrite map_nth, combine_nth by (rewrite length_map; lia).
      rewrite (nth_indep (map h flat) 0 (h 0)) by (rewrite length_map; lia).
      rewrite map_nth. unfold g, h. cbn [fst snd]. rewrite Ei. ring.
    - rewrite !nth_overflow by lia. reflexivity. }
  split; [exact Hlen|]. split.
  - intros i Hi. apply Hz. destruct (Hr i) as [E|(P & _)]; [exact E|].
    exfalso. apply (Qlt_not_le _ _ P Hi).
  - intros i Hex Hout. destruct (Ho i Hex Hout) as [E1 E2].
    rewrite (Hz i E1), E2. reflexivity.
Qed.

(** A spectrum without positive flux gives [flat = 0] and [cont = 1] under
    both methods; any method other than "spline" and "gaussian" raises
    ValueError. *)
Theorem fit_continuum_methods log10 pow10 gf med auto (flux : list Q) method knotnum izoff sigma :
  ((forall i, nth i flux 0 <= 0) -> method = "spline"%string \/ method = "gaussian"%string ->
     fit_continuum log10 pow10 gf med auto flux method knotnum izoff sigma =
       Ok (zeros (length flux), ones (length flux))) /\
  (method <> "spline"%string -> method <> "gaussian"%string ->
     fit_continuum log10 pow10 gf med auto flux method knotnum izoff sigma = Raise ValueError).
Proof.
  unfold fit_continuum. split.
  - intros Hn [-> | ->]; cbn [String.eqb Ascii.eqb Bool.eqb andb].
    + rewrite fit_continuum_spline_nonpos by exact Hn. cbn [py_bind fst snd].
      unfold zero_outside. rewrite (proj2 (positive_indices_nil flux) Hn). reflexivity.
    + rewrite (proj2 (positive_indices_nil flux) Hn). reflexivity.
  - intros H1 H2. apply String.eqb_neq in H1, H2. rewrite H1, H2. reflexivity.
Qed.

(** The Gaussian method fails on a spectrum whose only positive pixel is
    strictly inside the array: the one-sample core is smoothed into one
    value (scipy's [gaussian_filter1d] keeps the length, and with a
    positive sigma, as the automatic one always is, it does not raise),
    and reading [core_continuum[1]] for the slope raises IndexError. *)
Theorem fit_continuum_gaussian_single_pixel log10 pow10 gf med auto (flux : list Q) knotnum izoff sigma p :
  (forall l s, 0 < s -> length (gf l s) = length l) ->
  0 < (match sigma with None => auto flux | Some s => s end) ->
  (0 < p)%nat -> (S p < length flux)%nat -> 0 < nth p flux 0 ->
  (forall i, i <> p -> nth i flux 0 <= 0) ->
  fit_continuum log10 pow10 gf med auto flux "gaussian" knotnum izoff sigma = Raise IndexError.
Proof.
  intros Hgf Hs H0 Hp Hpos Hn. unfold fit_continuum. cbn [String.eqb Ascii.eqb Bool.eqb andb].
  rewrite (positive_indices_single flux p) by (auto; lia).
  rewrite (gaussian_fit_single gf med flux _ p) by auto.
  rewrite (Hgf _ _ Hs). reflexivity.
Qed.


Lemma fit_continuum_shape_witness :
  fit_continuum (fun x => x) (fun x => x) (fun l _ => l) (fun _ => 0) (fun _ => 1)
    [0; 1; 2; 0] "gaussian" 13 0 None = Ok ([0; 0; 0 # 2; 0], [0; 1; 2; 0]) /\
  (length [0; 0; 0 # 2; 0] = length [0; 1; 2; 0] /\ length [0; 1; 2; 0] = length [0; 1; 2; 0] /\
   (forall i, nth i [0; 1; 2; 0] 0 <= 0 -> nth i [0; 0; 0 # 2; 0] 0 = 0) /\
   (forall i, (exists j, 0 < nth j [0; 1; 2; 0] 0) ->
      ((forall j, (j <= i)%nat -> nth j [0; 1; 2; 0] 0 <= 0) \/
       (forall j, (i <= j)%nat -> nth j [0; 1; 2; 0] 0 <= 0)) ->
      nth i [0; 0; 0 # 2; 0] 0 = 0 /\ nth i [0; 1; 2; 0] 0 = 0)).
Proof.
  assert (Hv : fit_continuum (fun x => x) (fun x => x) (fun l _ => l) (fun _ => 0) (fun _ => 1)
    [0; 1; 2; 0] "gaussian" 13 0 None = Ok ([0; 0; 0 # 2; 0], [0; 1; 2; 0]))
    by (vm_compute; reflexivity).
  split; [exact Hv|].
  exact (fit_continuum_shape (fun x => x) (fun x => x) (fun l _ => l) (fun _ => 0) (fun _ => 1)
           [0; 1; 2; 0] "gaussian" 13 0 None [0; 0; 0 # 2; 0] [0; 1; 2; 0] Hv).
Defined.

Lemma fit_continuum_unflatten_witness :
  fit_continuum (fun x => x) (fun x => x) (fun l _ => l) (fun _ => 0) (fun _ => 1)
    [0; 1; 2; 0] "gaussian" 13 0 None = Ok ([0; 0; 0 # 2; 0], [0; 1; 2; 0]) /\
  exists r, unflatten_on_loggrid [0; 0; 0 # 2; 0] [0; 1; 2; 0] = Ok r /\ length r = length [0; 1; 2; 0] /\
    (forall i, nth i [0; 1; 2; 0] 0 <= 0 -> nth i r 0 == nth i [0; 1; 2; 0] 0) /\
    (forall i, (exists j, 0 < nth j [0; 1; 2; 0] 0) ->
       ((forall j, (j <= i)%nat -> nth j [0; 1; 2; 0] 0 <= 0) \/
        (forall j, (i <= j)%nat -> nth j [0; 1; 2; 0] 0 <= 0)) ->
       nth i r 0 == 0).
Proof.
  assert (Hv : fit_continuum (fun x => x) (fun x => x) (fun l _ => l) (fun _ => 0) (fun _ => 1)
    [0; 1; 2; 0] "gaussian" 13 0 None = Ok ([0; 0; 0 # 2; 0], [0; 1; 2; 0]))
    by (vm_compute; reflexivity).
  split; [exact Hv|].
  exact (fit_continuum_unflatten (fun x => x) (fun x => x) (fun l _ => l) (fun _ => 0) (fun _ => 1)
           [0; 1; 2; 0] "gaussian" 13 0 None [0; 0; 0 # 2; 0] [0; 1; 2; 0] Hv).
Defined.

Lemma fit_continuum_methods_witness :
  fit_continuum (fun x => x) (fun x => x) (fun l _ => l) (fun _ => 0) (fun _ => 1)
    (repeat 0 12) "spline" 3 0 None = Ok (zeros 12, ones 12) /\
  fit_continuum (fun x => x) (fun x => x) (fun l _ => l) (fun _ => 0) (fun _ => 1)
    [1; 2] "median" 3 0 None = Raise ValueError.
Proof.
  split.
  - apply (proj1 (fit_continuum_methods (fun x => x) (fun x => x) (fun l _ => l) (fun _ => 0) (fun _ => 1)
             (repeat 0 12) "spline" 3 0 None)).
    + intro i. destruct (Nat.lt_ge_cases i 12) as [Hi|Hi].
      * rewrite nth_repeat_lt by exact Hi. vm_compute. discriminate.
      * rewrite nth_overflow by (rewrite repeat_length; exact Hi). vm_compute. discriminate.
    + left. reflexivity.
  - apply (proj2 (fit_continuum_methods (fun x => x) (fun x => x) (fun l _ => l) (fun _ => 0) (fun _ => 1)
             [1; 2] "median" 3 0 None)); discriminate.
Defined.

Lemma fit_continuum_gaussian_single_pixel_witness :
  fit_continuum (fun x => x) (fun x => x) (fun l _ => l) (fun _ => 0) (fun _ => 1)
    [0; 1; 0; 0] "gaussian" 13 0 None = Raise IndexError.
Proof.
  apply (fit_continuum_gaussian_single_pixel (fun x => x) (fun x => x) (fun l _ => l) (fun _ => 0)
           (fun _ => 1) [0; 1; 0; 0] 13 0 None 1).
  - intros l s' _. reflexivity.
  - reflexivity.
  - lia.
  - cbn. lia.
  - vm_compute. reflexivity.
  - intros [|[|[|[|i]]]] Hi; try (vm_compute; discriminate).
    + exfalso. apply Hi. reflexivity.
    + destruct i; vm_compute; discriminate.
Defined.

End ContinuumFitProps.

Module ClusteringProps.
Import Clustering ClusteringFacts ClusteringAssess.
Local Open Scope Q_scope.

Lemma penalty_factor_note n : Qltb (penalty_factor n) 1 = (n <? 5)%nat.
Proof.
  unfold penalty_factor. destruct (n <? 5)%nat eqn:E.
  - apply Nat.ltb_lt in E.
    destruct n as [|[|[|[|[|n]]]]]; try lia; vm_compute; reflexivity.
  - vm_compute. reflexivity.
Qed.

Lemma find_winning_winner use cands w scores :
  find_winning_cluster_top5_method use cands = Some (w, scores) ->
  exists ws rest, scores = ws :: rest /\ ws.(cs_cluster) = w /\
    In ws (cluster_scores use cands) /\ spec_top5_rule use ws /\
    (forall s, In s (cluster_scores use cands) -> s.(cs_penalized_score) <= ws.(cs_penalized_score)) /\
    (forall s, In s rest -> In s (cluster_scores use cands)) /\
    length (cluster_scores use cands) = S (length rest).
Proof.
  intro H. destruct (find_winning_cluster_sorted _ _ _ _ H) as [ws [rest [Hs [-> Hw]]]].
  destruct (sort_desc_head _ _ _ _ Hs) as [pre [post [_ [Hmax _]]]].
  assert (Hin : forall s, In s (ws :: rest) -> In s (cluster_scores use cands)).
  { intros s Hi. apply (in_sort_desc cs_penalized_score). now rewrite Hs. }
  exists ws, rest. split; [reflexivity|]. split; [exact Hw|].
  assert (Hws : In ws (cluster_scores use cands)) by (apply Hin; left; reflexivity).
  split; [exact Hws|]. split.
  { destruct (cluster_scores_in _ _ _ Hws) as [c [_ Hc]]. exact (score_cluster_rule _ _ _ Hc). }
  split; [exact Hmax|]. split; [intros s Hi; apply Hin; now right|].
  rewrite <- (sort_desc_length cs_penalized_score), Hs. reflexivity.
Qed.

(** When [find_winning_cluster_top5_method] selects a winner, its confidence
    assessment has a non-negative margin over the runner-up, or an infinite
    margin with level 'high' when only one cluster was scored; a finite
    relative margin is never negative. *)
Theorem find_winning_confidence_consistent use cands w ca qa :
  find_winning_with_assessment use cands = Some (w, ca, qa) ->
  ((exists m, ca.(ca_margin_vs_second) = QFin m /\ 0 <= m) \/
   (ca.(ca_margin_vs_second) = QInf /\ ca.(ca_confidence_level) = "high"%string /\
    length (cluster_scores use cands) = 1%nat)) /\
  (forall r, ca.(ca_relative_margin) = Some (QFin r) -> 0 <= r).
Proof.
  unfold find_winning_with_assessment.
  destruct (find_winning_cluster_top5_method use cands) as [[w' scores]|] eqn:Hf; [|discriminate].
  destruct (find_winning_winner _ _ _ _ Hf) as [ws [rest [-> [_ [_ [_ [Hmax [Hrest Hlen]]]]]]]].
  intro H. injection H as <- <- <-.
  destruct rest as [|s2 rest'].
  - split; [right; split; [reflexivity|split; [reflexivity|exact Hlen]]|].
    intros r Hr. discriminate.
  - cbn [calculate_cluster_confidence ca_margin_vs_second ca_relative_margin].
    assert (Hm : 0 <= cs_penalized_score ws - cs_penalized_score s2).
    { unfold Qminus. apply (proj1 (Qle_minus_iff _ _)). exact (Hmax s2 (Hrest s2 (or_introl eq_refl))). }
    split; [left; eexists; split; [reflexivity|exact Hm]|].
    intros r Hr. destruct (Qltb 0 (cs_penalized_score s2)) eqn:Hq; [|discriminate].
    injection Hr as <-. apply Qltb_true in Hq.
    apply Qmult_le_0_compat; [exact Hm|]. apply Qinv_le_0_compat. now apply Qlt_le_weak.
Qed.

(** The quality category of the winner is never below what any scored
    cluster's penalized score would give ('high' from 10, not 'low' from 5);
    the reported cluster size is the winner's match count, and the penalty
    note is added exactly when it has fewer than five matches. *)
Theorem find_winning_quality_consistent use cands w ca qa :
  find_winning_with_assessment use cands = Some (w, ca, qa) ->
  (forall s, In s (cluster_scores use cands) ->
     (10 <= s.(cs_penalized_score) -> qa.(qa_quality_category) = "high"%string) /\
     (5 <= s.(cs_penalized_score) -> qa.(qa_quality_category) <> "low"%string)) /\
  qa.(qa_cluster_size) = length w.(c_matches) /\
  (qa.(qa_penalty_note) = true <-> (length w.(c_matches) < 5)%nat).
Proof.
  unfold find_winning_with_assessment.
  destruct (find_winning_cluster_top5_method use cands) as [[w' scores]|] eqn:Hf; [|discriminate].
  destruct (find_winning_winner _ _ _ _ Hf) as [ws [rest [-> [Hw [_ [Hrule [Hmax _]]]]]]].
  intro H. injection H as <- <- <-.
  destruct Hrule as [Hsize [_ [_ [Hpf1 [Hpf2 _]]]]].
  unfold calculate_absolute_quality; cbn [qa_quality_category qa_cluster_size qa_penalty_note].
  rewrite <- Hw, <- Hsize.
  split; [|split; [reflexivity|]].
  - intros s Hs. pose proof (Hmax s Hs) as Hle. split.
    + intro H10. replace (Qle_bool 10 (cs_penalized_score ws)) with true; [reflexivity|].
      symmetry. apply Qle_bool_iff. eapply Qle_trans; eassumption.
    + intro H5. destruct (Qle_bool 10 (cs_penalized_score ws)); [discriminate|].
      replace (Qle_bool 5 (cs_penalized_score ws)) with true; [discriminate|].
      symmetry. apply Qle_bool_iff. eapply Qle_trans; eassumption.
  - assert (Hp : cs_penalty_factor ws = penalty_factor (cs_size ws)).
    { unfold penalty_factor.
      destruct (Nat.ltb_spec (cs_size ws) 5) as [Hl|Hl]; [now apply Hpf2|now apply Hpf1]. }
    rewrite Hp, penalty_factor_note. apply Nat.ltb_lt.
Qed.

Lemma find_winning_confidence_consistent_witness :
  exists w ca qa,
    find_winning_with_assessment true [cand_small; cand_large] = Some (w, ca, qa) /\
    (((exists m, ca.(ca_margin_vs_second) = QFin m /\ 0 <= m) \/
     (ca.(ca_margin_vs_second) = QInf /\ ca.(ca_confidence_level) = "high"%string /\
      length (cluster_scores true [cand_small; cand_large]) = 1%nat)) /\
    (forall r, ca.(ca_relative_margin) = Some (QFin r) -> 0 <= r)).
Proof.
  do 3 eexists. split; [reflexivity|].
  eapply find_winning_confidence_consistent. reflexivity.
Defined.

Lemma collect_members_from gamma k r i ms members :
  collect_members gamma k r i ms = Some members ->
  forall p, In p members -> exists m, In m ms /\ snd p = get_best_metric_value m.
Proof.
  revert i members. induction ms as [|m ms IH]; intros i members H p Hp; simpl in H.
  - injection H as <-. destruct Hp.
  - destruct (gamma_at gamma i k) as [g|]; [|discriminate].
    destruct (collect_members gamma k r (S i) ms) as [tl|] eqn:Ht; [|discriminate].
    injection H as <-.
    destruct (Qle_bool r g); [destruct Hp as [<-|Hp]|].
    + exists m. split; [left|]; reflexivity.
    + destruct (IH _ _ Ht p Hp) as [m' [Hm' Hv]]. exists m'. split; [right|]; assumption.
    + destruct (IH _ _ Ht p Hp) as [m' [Hm' Hv]]. exists m'. split; [right|]; assumption.
Qed.

Lemma Qsum_nonneg l : (forall x, In x l -> 0 <= x) -> 0 <= Qsum l.
Proof.
  induction l as [|a l IH]; intro H; simpl; [apply Qle_refl|].
  rewrite <- (Qplus_0_l 0). apply Qplus_le_compat;
    [apply H; left; reflexivity|apply IH; intros x Hx; apply H; now right].
Qed.

Lemma Qsum_ge_in l x : (forall y, In y l -> 0 <= y) -> In x l -> x <= Qsum l.
Proof.
  induction l as [|a l IH]; intros H Hx; [destruct Hx|]. simpl.
  destruct Hx as [->|Hx].
  - rewrite <- (Qplus_0_r x) at 1. apply Qplus_le_r.
    apply Qsum_nonneg. intros y Hy. apply H. now right.
  - rewrite <- (Qplus_0_l x). apply Qplus_le_compat; [apply H; now left|].
    apply IH; [intros y Hy; apply H; now right|exact Hx].
Qed.

Lemma Qlen_nonneg {A} (l : list A) : 0 <= Qlen l.
Proof. unfold Qlen, Qle. simpl. lia. Qed.

Lemma Qdiv_nonneg a b : 0 <= a -> 0 <= b -> 0 <= a / b.
Proof.
  intros Ha Hb. unfold Qdiv. apply Qmult_le_0_compat; [exact Ha|].
  now apply Qinv_le_0_compat.
Qed.

Lemma in_firstn_in {A} n (l : list A) x : In x (firstn n l) -> In x l.
Proof. intro H. rewrite <- (firstn_skipn n l). apply in_or_app. now left. Qed.

Lemma subtype_score_nonneg values :
  (forall v, In v values -> 0 <= v) -> 0 <= subtype_score values.
Proof.
  intro H. unfold subtype_score.
  apply Qmult_le_0_compat; [apply Qdiv_nonneg; [|apply Qlen_nonneg]|].
  - apply Qsum_nonneg. intros x Hx. apply in_firstn_in in Hx.
    apply H. now apply (in_sort_desc (fun q => q)).
  - apply Qdiv_nonneg; [apply Qlen_nonneg|]. discriminate.
Qed.

Lemma first_max_in b l : In (first_max b l) (b :: l).
Proof.
  revert b. induction l as [|x xs IH]; intro b; simpl; [now left|].
  destruct (Qltb (snd b) (snd x)).
  - destruct (IH x) as [E|E]; [right; left; exact E|right; right; exact E].
  - destruct (IH b) as [E|E]; [left; exact E|right; right; exact E].
Qed.

Lemma subtype_scores_nonneg members :
  (forall p, In p members -> 0 <= snd p) ->
  forall x, In x (map snd (subtype_scores (group_by_subtype members))) -> 0 <= x.
Proof.
  intros H x Hx. unfold subtype_scores in Hx. rewrite map_map in Hx.
  apply in_map_iff in Hx. destruct Hx as [[st vs] [<- Hin]]. cbn [fst snd].
  apply subtype_score_nonneg. intros v Hv.
  destruct (group_by_subtype_vals _ _ _ Hin) as [-> _].
  unfold vals_of in Hv. apply in_map_iff in Hv. destruct Hv as [p [<- Hp]].
  apply filter_In in Hp. apply H, Hp.
Qed.

(** With non-negative metric values, the subtype vote's confidence lies in
    [0, 1] and its relative margin is non-negative. *)
Theorem choose_subtype_confidence_bounds k_star matches gamma resp_cut best conf rel second :
  (forall m, In m matches -> 0 <= get_best_metric_value m) ->
  choose_subtype_weighted_voting k_star matches gamma resp_cut = Some (best, conf, rel, second) ->
  0 <= conf <= 1 /\ 0 <= rel.
Proof.
  intros Hm. unfold choose_subtype_weighted_voting.
  destruct (collect_members gamma k_star resp_cut 0 matches) as [members|] eqn:Hc; [|discriminate].
  assert (Hp : forall p, In p members -> 0 <= snd p).
  { intros p Hin. destruct (collect_members_from _ _ _ _ _ _ Hc p Hin) as [m [Hin' ->]].
    now apply Hm. }
  pose proof (subtype_scores_nonneg _ Hp) as Hnn.
  destruct members as [|p0 ps].
  { intro H. injection H as _ <- <- _. split; [split; discriminate|apply Qle_refl]. }
  destruct (subtype_scores (group_by_subtype (p0 :: ps))) as [|s0 rest] eqn:Hs.
  { intro H. injection H as _ <- <- _. split; [split; discriminate|apply Qle_refl]. }
  cbv zeta. intro H. injection H as _ <- <- _.
  split.
  - change (snd s0 + Qsum (map snd rest)) with (Qsum (map snd (s0 :: rest))).
    destruct (Qltb 0 (Qsum (map snd (s0 :: rest)))) eqn:Ht; [|split; unfold Qle; simpl; lia].
    apply Qltb_true in Ht.
    assert (Hb : In (snd (first_max s0 rest)) (map snd (s0 :: rest)))
      by (apply in_map, first_max_in).
    split.
    + apply Qdiv_nonneg; [now apply Hnn|now apply Qlt_le_weak].
    + apply Qle_shift_div_r; [exact Ht|]. rewrite Qmult_1_l.
      now apply Qsum_ge_in.
  - change (insert_desc (fun q : Q => q) (snd s0) (sort_desc (fun q : Q => q) (map snd rest)))
      with (sort_desc (fun q => q) (map snd (s0 :: rest))).
    destruct ((1 <? length (sort_desc (fun q => q) (map snd (s0 :: rest))))%nat
              && Qltb 0 (nth 1 (sort_desc (fun q => q) (map snd (s0 :: rest))) 0)) eqn:Hr;
      [|apply Qle_refl].
    apply andb_true_iff in Hr. destruct Hr as [Hl Hq].
    rewrite Hl. apply Qltb_true in Hq.
    destruct (sort_desc (fun q => q) (map snd (s0 :: rest))) as [|f [|sc tl]] eqn:Hsort;
      [discriminate|discriminate|].
    cbn [hd nth] in *.
    destruct (sort_desc_head _ _ _ _ Hsort) as [pre [post [_ [Hmax _]]]].
    assert (Hsf : sc <= f).
    { apply Hmax. apply (in_sort_desc (fun q => q)). rewrite Hsort. right. now left. }
    apply Qmult_le_0_compat; [|discriminate].
    apply Qdiv_nonneg; [|now apply Qlt_le_weak].
    unfold Qminus. apply (proj1 (Qle_minus_iff _ _)). exact Hsf.
Qed.

Lemma find_winning_quality_consistent_witness :
  exists w ca qa,
    find_winning_with_assessment false [cand_b; cand_large] = Some (w, ca, qa) /\
    ((forall s, In s (cluster_scores false [cand_b; cand_large]) ->
       (10 <= s.(cs_penalized_score) -> qa.(qa_quality_category) = "high"%string) /\
       (5 <= s.(cs_penalized_score) -> qa.(qa_quality_category) <> "low"%string)) /\
     qa.(qa_cluster_size) = length w.(c_matches) /\
     (qa.(qa_penalty_note) = true <-> (length w.(c_matches) < 5)%nat)).
Proof.
  do 3 eexists. split; [reflexivity|].
  eapply find_winning_quality_consistent. reflexivity.
Defined.

Lemma choose_subtype_confidence_bounds_witness :
  (forall m, In m subtype_matches -> 0 <= get_best_metric_value m) /\
  choose_subtype_weighted_voting 0 subtype_matches [[1]; [1]; [1]] (1 # 2)
    = Some ("Ia-norm"%string, 1800 # 2300, 65000 # 250, Some "Ia-91T"%string) /\
  (0 <= 1800 # 2300 <= 1 /\ 0 <= 65000 # 250).
Proof.
  assert (Hm : forall m, In m subtype_matches -> 0 <= get_best_metric_value m).
  { intros m Hin. simpl in Hin.
    destruct Hin as [<-|[<-|[<-|[]]]]; unfold get_best_metric_value, Qle; simpl; lia. }
  assert (Hv : choose_subtype_weighted_voting 0 subtype_matches [[1]; [1]; [1]] (1 # 2)
    = Some ("Ia-norm"%string, 1800 # 2300, 65000 # 250, Some "Ia-91T"%string))
    by (vm_compute; reflexivity).
  split; [exact Hm|]. split; [exact Hv|].
  exact (choose_subtype_confidence_bounds _ _ _ _ _ _ _ _ Hm Hv).
Defined.

End ClusteringProps.

Module Visualization3DProps.
Import Clustering Visualization3D.
Local Open Scope Q_scope.

Lemma lookup_index_app_some t m m' i :
  lookup_index t m = Some i -> lookup_index t (m ++ m') = Some i.
Proof.
  induction m as [|[k j] m IH]; simpl; [discriminate|].
  destruct (String.eqb t k); [tauto|exact IH].
Qed.

Lemma lookup_index_app_new t m k :
  lookup_index t m = None -> lookup_index t (m ++ [(t, k)]) = Some k.
Proof.
  induction m as [|[k' j] m IH]; simpl.
  - now rewrite String.eqb_refl.
  - destruct (String.eqb t k'); [discriminate|exact IH].
Qed.

Lemma lookup_index_none t m : lookup_index t m = None <-> ~ In t (map fst m).
Proof.
  induction m as [|[k j] m IH]; simpl; [tauto|].
  destruct (String.eqb_spec t k) as [->|Hne].
  - split; [discriminate|]. intro H. exfalso. apply H. now left.
  - rewrite IH. split; intros H1 H2; apply H1; [destruct H2 as [E|E]; [congruence|exact E]|now right].
Qed.

Lemma Forall2_map_const {A B C} (R : A -> B -> Prop) a b (l : list C) :
  R a b -> Forall2 R (map (fun _ => a) l) (map (fun _ => b) l).
Proof. intro H. induction l; simpl; constructor; assumption. Qed.

Lemma dedup_first_snoc l t :
  dedup_first (l ++ [t]) =
  if in_dec string_dec t l then dedup_first l else dedup_first l ++ [t].
Proof.
  induction l as [|x l IH].
  - destruct (in_dec string_dec t []) as [[]|_]. reflexivity.
  - cbn [app dedup_first]. rewrite IH.
    destruct (in_dec string_dec t l) as [Hin|Hn].
    + destruct (in_dec string_dec t (x :: l)) as [_|Hc]; [reflexivity|].
      exfalso. apply Hc. now right.
    + destruct (String.eqb_spec t x) as [->|Hne].
      * destruct (in_dec string_dec x (x :: l)) as [_|Hc]; [|exfalso; apply Hc; now left].
        rewrite filter_app. cbn [filter]. rewrite String.eqb_refl. cbn [negb].
        now rewrite app_nil_r.
      * destruct (in_dec string_dec t (x :: l)) as [[E|E]|_];
          [congruence|contradiction|].
        rewrite filter_app. cbn [filter].
        apply String.eqb_neq in Hne. rewrite Hne. reflexivity.
Qed.

Lemma viz_inv_step done_ st c : viz_inv done_ st -> viz_inv (done_ ++ [c]) (viz_step st c).
Proof.
  destruct st as [v cur].
  intros [Hm [Hz [Hr [Ht [Hc [Hnd [Hseq [Hcur [Hf [Hkeys Hdk]]]]]]]]]].
  unfold viz_step.
  destruct (lookup_index (c_type c) (v_type_mapping v)) as [i|] eqn:Hl.
  - simpl.
    rewrite Hl. simpl.
    assert (Hin : In (c_type c) (map fst (v_type_mapping v))).
    { destruct (in_dec string_dec (c_type c) (map fst (v_type_mapping v))) as [Hin|Hn];
        [exact Hin|]. apply lookup_index_none in Hn. congruence. }
    split; [rewrite Hm, flat_map_app; simpl; now rewrite app_nil_r|].
    split; [rewrite Hz, map_app; reflexivity|].
    split; [rewrite Hr, map_app; reflexivity|].
    split; [rewrite Ht, flat_map_app; simpl; now rewrite app_nil_r|].
    split; [rewrite Hc, flat_map_app; simpl; now rewrite app_nil_r|].
    split; [exact Hnd|]. split; [exact Hseq|]. split; [exact Hcur|]. split.
    + apply Forall2_app; [exact Hf|]. now apply Forall2_map_const.
    + split.
      * intro t. rewrite Hkeys, map_app, in_app_iff. simpl. split; [tauto|].
        intros [H|[<-|[]]]; [exact H|]. apply Hkeys, Hin.
      * rewrite map_app. cbn [map]. rewrite dedup_first_snoc.
        destruct (in_dec string_dec (c_type c) (map c_type done_)) as [_|Hn]; [exact Hdk|].
        exfalso. apply Hn, Hkeys, Hin.
  - simpl.
    rewrite (lookup_index_app_new _ _ _ Hl). simpl.
    split; [rewrite Hm, flat_map_app; simpl; now rewrite app_nil_r|].
    split; [rewrite Hz, map_app; reflexivity|].
    split; [rewrite Hr, map_app; reflexivity|].
    split; [rewrite Ht, flat_map_app; simpl; now rewrite app_nil_r|].
    split; [rewrite Hc, flat_map_app; simpl; now rewrite app_nil_r|].
    split.
    { rewrite map_app. apply NoDup_app; [exact Hnd|repeat constructor; simpl; tauto|].
      intros a Ha [<-|[]]. apply lookup_index_none in Hl. contradiction. }
    split; [rewrite map_app, Hseq, length_app, Nat.add_1_r, seq_S; simpl; now rewrite Hcur|].
    split; [rewrite length_app, Hcur; simpl; lia|]. split.
    + apply Forall2_app.
      * refine (Forall2_impl _ _ Hf). intros a b Hab. now apply lookup_index_app_some.
      * apply Forall2_map_const. now apply lookup_index_app_new.
    + split.
      * intro t. rewrite !map_app, !in_app_iff, Hkeys. simpl. tauto.
      * rewrite !map_app. cbn [map fst]. rewrite dedup_first_snoc, Hdk.
        destruct (in_dec string_dec (c_type c) (map c_type done_)) as [Hin|_]; [|reflexivity].
        exfalso. apply Hkeys in Hin. apply lookup_index_none in Hl. contradiction.
Qed.

Lemma viz_inv_fold cands done_ st :
  viz_inv done_ st -> viz_inv (done_ ++ cands) (fold_left viz_step cands st).
Proof.
  revert done_ st. induction cands as [|c cs IH]; intros done_ st H; simpl.
  - now rewrite app_nil_r.
  - replace (done_ ++ c :: cs) with ((done_ ++ [c]) ++ cs) by (rewrite <- app_assoc; reflexivity).
    apply IH. now apply viz_inv_step.
Qed.

(** [create_3d_visualization_data] lists every match of every candidate in
    order, with the parallel redshift, metric, type and cluster-id arrays
    holding each match's redshift, best metric value, candidate type and
    candidate cluster id; the type mapping has as keys the candidates'
    distinct types in first-seen order (also types of candidates without
    matches), numbered 0, 1, ..., and each entry's type index is the number
    of its type. *)
Theorem create_3d_visualization_data_consistent all_candidates :
  let v := create_3d_visualization_data all_candidates in
  v.(v_matches) = flat_map c_matches all_candidates /\
  v.(v_redshifts) = map m_redshift v.(v_matches) /\
  v.(v_rlaps) = map get_best_metric_value v.(v_matches) /\
  v.(v_types) = flat_map (fun c => map (fun _ => c.(c_type)) c.(c_matches)) all_candidates /\
  v.(v_cluster_ids) =
    flat_map (fun c => map (fun _ => c.(c_cluster_id)) c.(c_matches)) all_candidates /\
  length v.(v_type_indices) = length v.(v_matches) /\
  map fst v.(v_type_mapping) = dedup_first (map c_type all_candidates) /\
  map snd v.(v_type_mapping) = seq 0 (length v.(v_type_mapping)) /\
  Forall2 (fun t i => lookup_index t v.(v_type_mapping) = Some i) v.(v_types) v.(v_type_indices).
Proof.
  unfold create_3d_visualization_data.
  assert (H0 : viz_inv [] (viz_empty, 0%nat)).
  { cbn. repeat split; try reflexivity; try constructor; tauto. }
  pose proof (viz_inv_fold all_candidates [] _ H0) as H. simpl in H.
  destruct (fold_left viz_step all_candidates (viz_empty, 0%nat)) as [v cur].
  destruct H as [Hm [Hz [Hr [Ht [Hc [Hnd [Hseq [_ [Hf [Hkeys Hdk]]]]]]]]]].
  cbn [fst].
  do 5 (split; [assumption|]).
  split.
  { rewrite <- (Forall2_length Hf), Ht, Hm. clear.
    induction all_candidates as [|c cs IH]; [reflexivity|].
    cbn [flat_map]. rewrite !length_app, length_map, IH. reflexivity. }
  split; [exact Hdk|]. split; [exact Hseq|exact Hf].
Qed.

End Visualization3DProps.
